(** * can2040: software CAN bus controller — bit engine, parser and queue

    Shallow embedding of [src/can2040.c].  Every [uint32_t] is a [Z] in
    [0, 2^32) with the wrap-around written out by [u32]; the C bit operators
    are [Z.land], [Z.lor], [Z.lxor], [Z.shiftl], [Z.shiftr].  Loops become
    fixpoints over a fuel that is the loop's own bound. *)

From Stdlib Require Import ZArith List Lia Bool.
From coqutil Require Import Z.bitblast.
Import ListNotations.
Local Open Scope Z_scope.

(** ** 32-bit unsigned arithmetic *)

Definition u32 (x : Z) : Z := x mod 2 ^ 32.

(** [x << n] and [x >> n] on [uint32_t]. *)
Definition shl (x n : Z) : Z := u32 (Z.shiftl x n).
Definition shr (x n : Z) : Z := Z.shiftr x n.
(** [(1 << n) - 1] on [uint32_t]. *)
Definition lowmask (n : Z) : Z := u32 (shl 1 n - 1).
(** [~x] on [uint32_t]. *)
Definition not32 (x : Z) : Z := u32 (Z.lnot x).

(** ** CRC calculation *)

(** Body of the loop of [crcbits] for bit index [i]. *)
Definition crc_step (crc data i : Z) : Z :=
  let bit := Z.land (shr data i) 1 in
  if Z.lxor (Z.land (shr crc 14) 1) bit =? 0
  then shl crc 1
  else Z.lxor (shl crc 1) 0x4599.

(** [for (i=count-1; i>=0; i--)]: [n] is [i+1]. *)
Fixpoint crcbits_loop (n : nat) (crc data : Z) : Z :=
  match n with
  | O => crc
  | S i => crcbits_loop i (crc_step crc data (Z.of_nat i)) data
  end.

Definition crcbits (crc data count : Z) : Z :=
  crcbits_loop (Z.to_nat count) crc data.

(** ** Bit unstuffing *)

Record can2040_bitunstuffer := mk_unstuf {
  stuffed_bits : Z;
  count_stuff : Z;
  unstuffed_bits : Z;
  count_unstuff : Z
}.

Definition unstuf_add_bits (bu : can2040_bitunstuffer) (data count : Z)
  : can2040_bitunstuffer :=
  let mask := lowmask count in
  mk_unstuf (Z.lor (shl (stuffed_bits bu) count) (Z.land data mask))
            count (unstuffed_bits bu) (count_unstuff bu).

Definition unstuf_set_count (bu : can2040_bitunstuffer) (count : Z)
  : can2040_bitunstuffer :=
  mk_unstuf (stuffed_bits bu) (count_stuff bu) 0 count.

Definition unstuf_clear_state (bu : can2040_bitunstuffer)
  : can2040_bitunstuffer :=
  let sb := stuffed_bits bu in
  let edges := Z.lxor sb (shr sb 1) in
  let cs := count_stuff bu in
  let re := shr edges cs in
  if (Z.land re 1 =? 0) && negb (Z.land re 0xf =? 0)
  then mk_unstuf (Z.lxor sb (shl 1 cs)) cs (unstuffed_bits bu) (count_unstuff bu)
  else bu.

(** The [for (;;)] loop of [unstuf_pull_bits] on its locals [ub], [cs], [cu];
    [sb] and [edges] are loop constants.  Every iteration that does not
    return decrements [cs], so a fuel of [cs + 1] iterations reaches a
    return.  The result is the return value with the written-back
    [(ub, cs, cu)]. *)
Fixpoint unstuf_pull_loop (fuel : nat) (sb edges ub cs cu : Z)
  : Z * (Z * Z * Z) :=
  if cu =? 0 then (0, (ub, cs, cu))
  else if cs =? 0 then (1, (ub, cs, cu))
  else match fuel with
  | O => (1, (ub, cs, cu))
  | S fuel' =>
    let cs := cs - 1 in
    if negb (Z.land (shr edges (cs + 1)) 0xf =? 0) then
      let cu := cu - 1 in
      let ub := Z.lor ub (shl (Z.land (shr sb cs) 1) cu) in
      unstuf_pull_loop fuel' sb edges ub cs cu
    else if Z.land (shr edges cs) 0x1f =? 0 then
      (if negb (Z.land (shr sb cs) 1 =? 0) then -1 else -2, (ub, cs, cu))
    else unstuf_pull_loop fuel' sb edges ub cs cu
  end.

Definition unstuf_pull_bits (bu : can2040_bitunstuffer)
  : Z * can2040_bitunstuffer :=
  let sb := stuffed_bits bu in
  let edges := Z.lxor sb (shr sb 1) in
  let '(ret, (ub, cs, cu)) :=
    unstuf_pull_loop (Z.to_nat (count_stuff bu)) sb edges
                     (unstuffed_bits bu) (count_stuff bu) (count_unstuff bu) in
  (ret, mk_unstuf sb cs ub cu).

(** ** Bit stuffing *)

(** The insertion performed by [bitstuff] at index [i]. *)
Definition bitstuff_insert (b i : Z) : Z :=
  let mask := lowmask (i + 1) in
  let low := Z.land b mask in
  let high := shl (Z.land b (not32 (shr mask 1))) 1 in
  Z.lxor (Z.lxor high low) (shl 1 i).

(** [for (i=num_bits-1; i>=0; i--)] with the extra [i -= 3] of the stuffing
    branch.  [i] decreases in every iteration, so [i + 1] iterations are
    enough. *)
Fixpoint bitstuff_loop (fuel : nat) (b edges count i : Z) : Z * Z :=
  if i <? 0 then (b, count)
  else match fuel with
  | O => (b, count)
  | S fuel' =>
    if Z.land (shr edges i) 0xf =? 0 then
      let b := bitstuff_insert b i in
      bitstuff_loop fuel' b (Z.lxor b (shr b 1)) (count + 1) (i - 3 - 1)
    else bitstuff_loop fuel' b edges count (i - 1)
  end.

(** [bitstuff(&b, num_bits)]: the new [*pb] and the returned count. *)
Definition bitstuff (b num_bits : Z) : Z * Z :=
  bitstuff_loop (Z.to_nat num_bits) b (Z.lxor b (shr b 1)) num_bits
                (num_bits - 1).

(** [struct bitstuffer_s]; [buf] is the array the pointer designates. *)
Record bitstuffer_s := mk_bs {
  prev_stuffed : Z;
  bitpos : Z;
  buf : list Z;
  bs_crc : Z
}.

(** [a[i] |= v] on an array held as a list; an index past the end is a
    write outside the array, which the model drops. *)
Fixpoint or_at (a : list Z) (i : nat) (v : Z) : list Z :=
  match a, i with
  | [], _ => []
  | x :: r, O => Z.lor x v :: r
  | x :: r, S j => x :: or_at r j v
  end.

Definition bs_pushraw (bs : bitstuffer_s) (data count : Z) : bitstuffer_s :=
  let bitpos := bitpos bs in
  let wp := bitpos / 32 in
  let bitused := bitpos mod 32 in
  let bitavail := 32 - bitused in
  let buf' :=
    if count <=? bitavail then
      or_at (buf bs) (Z.to_nat wp) (shl data (bitavail - count))
    else
      or_at (or_at (buf bs) (Z.to_nat wp) (shr data (count - bitavail)))
            (Z.to_nat wp + 1) (shl data (32 - (count - bitavail))) in
  mk_bs (prev_stuffed bs) (u32 (bitpos + count)) buf' (bs_crc bs).

Definition bs_push (bs : bitstuffer_s) (data count : Z) : bitstuffer_s :=
  let data := Z.land data (lowmask count) in
  let crc := crcbits (bs_crc bs) data count in
  let stuf := Z.lor (shl (prev_stuffed bs) count) data in
  let '(stuf, newcount) := bitstuff stuf count in
  let bs := bs_pushraw (mk_bs (prev_stuffed bs) (bitpos bs) (buf bs) crc)
                       stuf newcount in
  mk_bs stuf (bitpos bs) (buf bs) (bs_crc bs).

(** [bs_finalize]: the buffer after padding and the returned word count. *)
Definition bs_finalize (bs : bitstuffer_s) : list Z * Z :=
  let bitpos := bitpos bs in
  let words := (bitpos + 32 - 1) / 32 in
  let extra := words * 32 - bitpos in
  (if negb (extra =? 0)
   then or_at (buf bs) (Z.to_nat (words - 1)) (lowmask extra)
   else buf bs, words).

(** ** Messages, transmit slots and the controller *)

(** [struct can2040_msg]: the union of [d1[8]] and [d4[2]] is held as its
    eight bytes; [d4] reads them as two little-endian words, the byte order
    of the rp2040. *)
Record can2040_msg := mk_msg {
  addr : Z;
  data_len : Z;
  d1 : list Z
}.

Definition le_word (l : list Z) : Z :=
  nth 0 l 0 + 2 ^ 8 * nth 1 l 0 + 2 ^ 16 * nth 2 l 0 + 2 ^ 24 * nth 3 l 0.

Definition d4 (m : can2040_msg) (k : nat) : Z :=
  le_word (firstn 4 (skipn (4 * k) (d1 m))).

Definition zero_msg : can2040_msg := mk_msg 0 0 (repeat 0 8).

(** Modelled from the spec: the length of [stuffed_data] is declared in
    can2040.h, which is not among the sources; five words hold the longest
    frame (at most 123 stuffed bits) that the encoder of §4.4 produces. *)
Definition STUFFED_DATA_WORDS : nat := 5.

(** Modelled from the spec: [ARRAY_SIZE(cd->tx_queue)] comes from can2040.h,
    which is not among the sources; §3 gives "a fixed-capacity ring
    (power-of-two, at least 4)". *)
Definition TX_QUEUE_SIZE : Z := 4.

(** [struct can2040_transmit]; the suffix keeps the name apart from the
    function [can2040_transmit]. *)
Record can2040_transmit_s := mk_transmit {
  msg : can2040_msg;
  crc : Z;
  stuffed_words : Z;
  stuffed_data : list Z
}.

Definition zero_transmit : can2040_transmit_s :=
  mk_transmit zero_msg 0 0 (repeat 0 STUFFED_DATA_WORDS).

Inductive parse_state_t :=
  MS_START | MS_DATA | MS_CRC | MS_ACK | MS_EOF | MS_DISCARD.

Definition parse_state_eqb (a b : parse_state_t) : bool :=
  match a, b with
  | MS_START, MS_START | MS_DATA, MS_DATA | MS_CRC, MS_CRC
  | MS_ACK, MS_ACK | MS_EOF, MS_EOF | MS_DISCARD, MS_DISCARD => true
  | _, _ => false
  end.

Inductive notify_id :=
  | CAN2040_ID_RX
  | CAN2040_ID_TX
  | CAN2040_ID_TX_FAIL
  | CAN2040_ID_ERROR (error_code : Z).

(** What the driver does to the PIO block and to the user: every register
    sequence of the [pio_*] helpers and every call of [rx_cb] is one entry
    of a log, newest first. *)
Inductive event :=
  | PioTxSend (data : list Z)
  | PioTxCancel
  | PioAckInject (crc_bits rx_bit_pos : Z)
  | PioAckCancel
  | PioSyncSetup
  | PioSmSetup
  | PioIdleIrq (enable : bool)
  | Notify (id : notify_id) (m : can2040_msg).

(** [struct can2040], without the hardware handles.  [rx_stall] is the
    RXSTALL flag of state machine 1 in the PIO debug register; [log] records
    the effects. *)
Record can2040 := mk_can2040 {
  parse_state : parse_state_t;
  parse_hdr : Z;
  parse_crc : Z;
  parse_msg : can2040_msg;
  parse_datapos : Z;
  unstuf : can2040_bitunstuffer;
  raw_bit_count : Z;
  in_transmit : Z;
  cancel_count : Z;
  tx_pull_pos : Z;
  tx_push_pos : Z;
  tx_queue : list can2040_transmit_s;
  rx_stall : bool;
  log : list event
}.

Definition set_parse_state v cd := mk_can2040 v (parse_hdr cd) (parse_crc cd) (parse_msg cd) (parse_datapos cd) (unstuf cd) (raw_bit_count cd) (in_transmit cd) (cancel_count cd) (tx_pull_pos cd) (tx_push_pos cd) (tx_queue cd) (rx_stall cd) (log cd).
Definition set_parse_hdr v cd := mk_can2040 (parse_state cd) v (parse_crc cd) (parse_msg cd) (parse_datapos cd) (unstuf cd) (raw_bit_count cd) (in_transmit cd) (cancel_count cd) (tx_pull_pos cd) (tx_push_pos cd) (tx_queue cd) (rx_stall cd) (log cd).
Definition set_parse_crc v cd := mk_can2040 (parse_state cd) (parse_hdr cd) v (parse_msg cd) (parse_datapos cd) (unstuf cd) (raw_bit_count cd) (in_transmit cd) (cancel_count cd) (tx_pull_pos cd) (tx_push_pos cd) (tx_queue cd) (rx_stall cd) (log cd).
Definition set_parse_msg v cd := mk_can2040 (parse_state cd) (parse_hdr cd) (parse_crc cd) v (parse_datapos cd) (unstuf cd) (raw_bit_count cd) (in_transmit cd) (cancel_count cd) (tx_pull_pos cd) (tx_push_pos cd) (tx_queue cd) (rx_stall cd) (log cd).
Definition set_parse_datapos v cd := mk_can2040 (parse_state cd) (parse_hdr cd) (parse_crc cd) (parse_msg cd) v (unstuf cd) (raw_bit_count cd) (in_transmit cd) (cancel_count cd) (tx_pull_pos cd) (tx_push_pos cd) (tx_queue cd) (rx_stall cd) (log cd).
Definition set_unstuf v cd := mk_can2040 (parse_state cd) (parse_hdr cd) (parse_crc cd) (parse_msg cd) (parse_datapos cd) v (raw_bit_count cd) (in_transmit cd) (cancel_count cd) (tx_pull_pos cd) (tx_push_pos cd) (tx_queue cd) (rx_stall cd) (log cd).
Definition set_raw_bit_count v cd := mk_can2040 (parse_state cd) (parse_hdr cd) (parse_crc cd) (parse_msg cd) (parse_datapos cd) (unstuf cd) v (in_transmit cd) (cancel_count cd) (tx_pull_pos cd) (tx_push_pos cd) (tx_queue cd) (rx_stall cd) (log cd).
Definition set_in_transmit v cd := mk_can2040 (parse_state cd) (parse_hdr cd) (parse_crc cd) (parse_msg cd) (parse_datapos cd) (unstuf cd) (raw_bit_count cd) v (cancel_count cd) (tx_pull_pos cd) (tx_push_pos cd) (tx_queue cd) (rx_stall cd) (log cd).
Definition set_cancel_count v cd := mk_can2040 (parse_state cd) (parse_hdr cd) (parse_crc cd) (parse_msg cd) (parse_datapos cd) (unstuf cd) (raw_bit_count cd) (in_transmit cd) v (tx_pull_pos cd) (tx_push_pos cd) (tx_queue cd) (rx_stall cd) (log cd).
Definition set_tx_pull_pos v cd := mk_can2040 (parse_state cd) (parse_hdr cd) (parse_crc cd) (parse_msg cd) (parse_datapos cd) (unstuf cd) (raw_bit_count cd) (in_transmit cd) (cancel_count cd) v (tx_push_pos cd) (tx_queue cd) (rx_stall cd) (log cd).
Definition set_tx_push_pos v cd := mk_can2040 (parse_state cd) (parse_hdr cd) (parse_crc cd) (parse_msg cd) (parse_datapos cd) (unstuf cd) (raw_bit_count cd) (in_transmit cd) (cancel_count cd) (tx_pull_pos cd) v (tx_queue cd) (rx_stall cd) (log cd).
Definition set_tx_queue v cd := mk_can2040 (parse_state cd) (parse_hdr cd) (parse_crc cd) (parse_msg cd) (parse_datapos cd) (unstuf cd) (raw_bit_count cd) (in_transmit cd) (cancel_count cd) (tx_pull_pos cd) (tx_push_pos cd) v (rx_stall cd) (log cd).
Definition set_rx_stall v cd := mk_can2040 (parse_state cd) (parse_hdr cd) (parse_crc cd) (parse_msg cd) (parse_datapos cd) (unstuf cd) (raw_bit_count cd) (in_transmit cd) (cancel_count cd) (tx_pull_pos cd) (tx_push_pos cd) (tx_queue cd) v (log cd).
Definition emit (e : event) cd := mk_can2040 (parse_state cd) (parse_hdr cd) (parse_crc cd) (parse_msg cd) (parse_datapos cd) (unstuf cd) (raw_bit_count cd) (in_transmit cd) (cancel_count cd) (tx_pull_pos cd) (tx_push_pos cd) (tx_queue cd) (rx_stall cd) (e :: log cd).

(** ** PIO driver, as far as the upper layers see it *)

Definition pio_tx_send (cd : can2040) (data : list Z) (count : Z) : can2040 :=
  emit (PioTxSend (firstn (Z.to_nat count) data)) cd.
Definition pio_tx_cancel (cd : can2040) : can2040 := emit PioTxCancel cd.
Definition pio_ack_inject (cd : can2040) (crc_bits rx_bit_pos : Z) : can2040 :=
  emit (PioAckInject crc_bits rx_bit_pos) cd.
Definition pio_ack_cancel (cd : can2040) : can2040 := emit PioAckCancel cd.
Definition pio_rx_check_stall (cd : can2040) : bool := rx_stall cd.
Definition pio_sync_enable_idle_irq (cd : can2040) : can2040 :=
  emit (PioIdleIrq true) cd.
Definition pio_sync_disable_idle_irq (cd : can2040) : can2040 :=
  emit (PioIdleIrq false) cd.
Definition pio_sync_setup (cd : can2040) : can2040 := emit PioSyncSetup cd.
(** [pio_sm_setup] writes all ones to the debug register, which clears the
    stall flag. *)
Definition pio_sm_setup (cd : can2040) : can2040 :=
  emit PioSmSetup (set_rx_stall false cd).

(** ** Notification callbacks *)

Definition report_error (cd : can2040) (error_code : Z) : can2040 :=
  emit (Notify (CAN2040_ID_ERROR error_code) zero_msg) cd.
Definition report_rx_msg (cd : can2040) : can2040 :=
  emit (Notify CAN2040_ID_RX (parse_msg cd)) cd.
Definition report_tx_msg (cd : can2040) (m : can2040_msg) : can2040 :=
  emit (Notify CAN2040_ID_TX m) cd.
Definition report_tx_fail (cd : can2040) (m : can2040_msg) : can2040 :=
  emit (Notify CAN2040_ID_TX_FAIL m) cd.

(** ** Transmit *)

Definition tx_qpos (pos : Z) : Z := pos mod TX_QUEUE_SIZE.

Definition tx_slot (cd : can2040) (pos : Z) : can2040_transmit_s :=
  nth (Z.to_nat (tx_qpos pos)) (tx_queue cd) zero_transmit.

Definition tx_do_schedule (cd : can2040) : can2040 :=
  if negb (in_transmit cd =? 0) || (tx_push_pos cd =? tx_pull_pos cd) then cd
  else
    let cd :=
      if 32 <? cancel_count cd then
        let cd := set_cancel_count 0 cd in
        let tx_pull_pos0 := tx_pull_pos cd in
        let cd := set_tx_pull_pos (u32 (tx_pull_pos cd + 1)) cd in
        report_tx_fail cd (msg (tx_slot cd tx_pull_pos0))
      else cd in
    let cd := set_in_transmit 1 cd in
    let qt := tx_slot cd (tx_pull_pos cd) in
    pio_tx_send cd (stuffed_data qt) (stuffed_words qt).

Definition tx_cancel (cd : can2040) : can2040 :=
  let cd := set_in_transmit 0 cd in
  let cd := set_cancel_count (u32 (cancel_count cd + 1)) cd in
  pio_tx_cancel cd.

Definition tx_check_self_transmit (cd : can2040) : bool * can2040 :=
  if in_transmit cd =? 0 then (false, cd)
  else
    let qt := tx_slot cd (tx_pull_pos cd) in
    let pm := parse_msg cd in
    if (crc qt =? parse_crc cd)
       && (addr (msg qt) =? addr pm) && (data_len (msg qt) =? data_len pm)
       && (d4 (msg qt) 0 =? d4 pm 0) && (d4 (msg qt) 1 =? d4 pm 1)
    then (true, cd)
    else (false, tx_cancel cd).

Definition tx_finalize (cd : can2040) : can2040 :=
  let cd := tx_cancel cd in
  let cd := set_cancel_count 0 cd in
  let tx_pull_pos0 := tx_pull_pos cd in
  let cd := set_tx_pull_pos (u32 (tx_pull_pos cd + 1)) cd in
  report_tx_msg cd (msg (tx_slot cd tx_pull_pos0)).

(** ** Input state tracking *)

Definition with_unstuf (f : can2040_bitunstuffer -> can2040_bitunstuffer)
  (cd : can2040) : can2040 := set_unstuf (f (unstuf cd)) cd.

Definition data_state_go_discard (cd : can2040) : can2040 :=
  let cd := set_parse_state MS_DISCARD cd in
  let cd := with_unstuf (fun bu => unstuf_set_count bu 8) cd in
  let cd := tx_cancel cd in
  pio_sync_enable_idle_irq cd.

Definition data_state_go_error (cd : can2040) : can2040 :=
  data_state_go_discard cd.

Definition data_state_go_idle (cd : can2040) : can2040 :=
  if parse_state_eqb (parse_state cd) MS_START then
    if (count_stuff (unstuf cd) =? 0)
       && (stuffed_bits (unstuf cd) =? 0xffffffff) then
      let cd := pio_sync_setup cd in
      let cd := with_unstuf (fun bu =>
        mk_unstuf 0 (count_stuff bu) (unstuffed_bits bu) (count_unstuff bu)) cd in
      data_state_go_discard cd
    else with_unstuf (fun bu => unstuf_set_count bu 18) cd
  else
    let cd := pio_sync_disable_idle_irq cd in
    let cd :=
      if parse_state_eqb (parse_state cd) MS_EOF then
        let ub := unstuffed_bits (unstuf cd) in
        let cu := count_unstuff (unstuf cd) in
        if u32 (shr ub cu + 1) =? shl 1 (6 - cu) then
          let '(self, cd) := tx_check_self_transmit cd in
          if self then tx_finalize cd else report_rx_msg cd
        else cd
      else cd in
    let cd := pio_ack_cancel cd in
    let cd := tx_do_schedule cd in
    let cd := set_parse_state MS_START cd in
    with_unstuf (fun bu => unstuf_set_count bu 18) cd.

Definition data_state_go_crc (cd : can2040) : can2040 :=
  let cd := set_parse_state MS_CRC cd in
  let cd := with_unstuf (fun bu => unstuf_set_count bu 15) cd in
  let cd := set_parse_crc (Z.land (parse_crc cd) 0x7fff) cd in
  let '(self, cd) := tx_check_self_transmit cd in
  if self then cd
  else
    let cs := count_stuff (unstuf cd) in
    let last := shl (shr (stuffed_bits (unstuf cd)) cs) 15 in
    let last := Z.lor last (parse_crc cd) in
    let '(last, newcount) := bitstuff last (15 + 1) in
    let count := newcount - 1 in
    let last := Z.lor (shl last 1) 1 in
    let pos := u32 (raw_bit_count cd - cs - 1) in
    pio_ack_inject cd last (u32 (pos + count + 1)).

(** [a[i] = v] on an array held as a list. *)
Fixpoint set_nth {A} (a : list A) (i : nat) (v : A) : list A :=
  match a, i with
  | [], _ => []
  | _ :: r, O => v :: r
  | x :: r, S j => x :: set_nth r j v
  end.

Definition data_state_update_start (cd : can2040) (data : Z) : can2040 :=
  if negb (Z.land data (Z.lor (Z.shiftl 1 18) (Z.shiftl 7 4)) =? 0) then
    data_state_go_discard cd
  else
    let cd := set_parse_hdr data cd in
    let cd := set_parse_crc (crcbits 0 data 18) cd in
    let rdlc := Z.land data 0xf in
    let dlc := if 8 <? rdlc then 8 else rdlc in
    let cd := set_parse_msg
      (mk_msg (Z.land (shr data 7) 0x7ff) dlc (repeat 0 8)) cd in
    let cd := set_parse_datapos 0 cd in
    let cd :=
      if dlc <=? parse_datapos cd then data_state_go_crc cd
      else
        let cd := set_parse_state MS_DATA cd in
        with_unstuf (fun bu => unstuf_set_count bu 8) cd in
    pio_sync_enable_idle_irq cd.

Definition data_state_update_data (cd : can2040) (data : Z) : can2040 :=
  let cd := set_parse_crc (crcbits (parse_crc cd) data 8) cd in
  let pm := parse_msg cd in
  let cd := set_parse_msg
    (mk_msg (addr pm) (data_len pm)
            (set_nth (d1 pm) (Z.to_nat (parse_datapos cd)) (data mod 2 ^ 8)))
    cd in
  let cd := set_parse_datapos (u32 (parse_datapos cd + 1)) cd in
  if data_len (parse_msg cd) <=? parse_datapos cd then data_state_go_crc cd
  else with_unstuf (fun bu => unstuf_set_count bu 8) cd.

Definition data_state_update_crc (cd : can2040) (data : Z) : can2040 :=
  if negb (parse_crc cd =? data) then
    data_state_go_discard (pio_ack_cancel cd)
  else
    let cd := set_parse_state MS_ACK cd in
    let cd := with_unstuf unstuf_clear_state cd in
    with_unstuf (fun bu => unstuf_set_count bu 2) cd.

Definition data_state_update_ack (cd : can2040) (data : Z) : can2040 :=
  let cd := pio_ack_cancel cd in
  if negb (data =? 0x02) then
    let cd := data_state_go_discard cd in
    if pio_rx_check_stall cd then report_error (pio_sm_setup cd) 0 else cd
  else
    let cd := set_parse_state MS_EOF cd in
    with_unstuf (fun bu => unstuf_set_count bu 6) cd.

Definition data_state_update_eof (cd : can2040) (data : Z) : can2040 :=
  data_state_go_discard cd.

Definition data_state_update_discard (cd : can2040) (data : Z) : can2040 :=
  data_state_go_discard cd.

Definition data_state_update (cd : can2040) (data : Z) : can2040 :=
  match parse_state cd with
  | MS_START => data_state_update_start cd data
  | MS_DATA => data_state_update_data cd data
  | MS_CRC => data_state_update_crc cd data
  | MS_ACK => data_state_update_ack cd data
  | MS_EOF => data_state_update_eof cd data
  | MS_DISCARD => data_state_update_discard cd data
  end.

(** ** Input processing *)

(** The [for (;;)] of [process_rx]; [None] when [fuel] iterations did not
    reach the [break]. *)
Fixpoint process_rx_loop (fuel : nat) (cd : can2040) : option can2040 :=
  match fuel with
  | O => None
  | S fuel' =>
    let '(ret, bu) := unstuf_pull_bits (unstuf cd) in
    let cd := set_unstuf bu cd in
    if ret =? 0 then
      process_rx_loop fuel' (data_state_update cd (unstuffed_bits (unstuf cd)))
    else if 0 <? ret then Some cd
    else if ret =? -1 then process_rx_loop fuel' (data_state_go_idle cd)
    else process_rx_loop fuel' (data_state_go_error cd)
  end.

(** A byte carries eight raw bits; one iteration may run before the first of
    them is consumed and one sees the window empty. *)
Definition PROCESS_RX_FUEL : nat := 10.

Definition process_rx (cd : can2040) (rx_byte : Z) : option can2040 :=
  let cd := with_unstuf (fun bu => unstuf_add_bits bu rx_byte 8) cd in
  let cd := set_raw_bit_count (u32 (raw_bit_count cd + 8)) cd in
  process_rx_loop PROCESS_RX_FUEL cd.

(** The forced-interrupt branch of [can2040_dma_irq_handler]; [idle] is what
    [pio_sync_check_idle] reads from the PIO. *)
Definition dma_irq_forced (cd : can2040) (idle : bool) : can2040 :=
  if negb (parse_state_eqb (parse_state cd) MS_START) && idle
  then data_state_go_idle cd else cd.

(** ** Transmit queuing *)

Definition can2040_check_transmit (cd : can2040) : bool :=
  let pending := u32 (tx_push_pos cd - tx_pull_pos cd) in
  pending <? TX_QUEUE_SIZE.

(** [memcpy(dst, src, n)] on arrays held as lists. *)
Definition memcpy {A} (dst src : list A) (n : nat) : list A :=
  firstn n src ++ skipn n dst.

(** The encoder block of [can2040_transmit] ("Calculate crc and stuff
    bits") for the sanitized message [m] of the slot: the new
    [stuffed_data], [crc] and [stuffed_words]. *)
Definition tx_encode_bs (m : can2040_msg) : bitstuffer_s :=
  let bs := mk_bs 1 0 (repeat 0 STUFFED_DATA_WORDS) 0 in
  let hdr := Z.lor (shl (addr m) 7) (data_len m) in
  let bs := bs_push bs hdr 19 in
  fold_left (fun bs i => bs_push bs (nth i (d1 m) 0) 8)
            (seq 0 (Z.to_nat (data_len m))) bs.

Definition tx_encode (m : can2040_msg) : can2040_transmit_s :=
  let bs := tx_encode_bs m in
  let qcrc := Z.land (bs_crc bs) 0x7fff in
  let bs := bs_push bs qcrc 15 in
  let bs := bs_pushraw bs 1 1 in
  let '(data, words) := bs_finalize bs in
  mk_transmit m qcrc words data.

(** The sanitized copy that [can2040_transmit] writes into [qt->msg]. *)
Definition tx_copy_msg (m : can2040_msg) : can2040_msg :=
  let rl := data_len m in
  let len := if 8 <? rl then 8 else rl in
  mk_msg (Z.land (addr m) 0x7ff) len
         (memcpy (repeat 0 8) (d1 m) (Z.to_nat len)).

Definition can2040_transmit (cd : can2040) (m : can2040_msg) : Z * can2040 :=
  let tx_pull_pos0 := tx_pull_pos cd in
  let tx_push_pos0 := tx_push_pos cd in
  let pending := u32 (tx_push_pos0 - tx_pull_pos0) in
  if TX_QUEUE_SIZE <=? pending then (-1, cd)
  else
    let qt := tx_encode (tx_copy_msg m) in
    let cd := set_tx_queue
      (set_nth (tx_queue cd) (Z.to_nat (tx_qpos tx_push_pos0)) qt) cd in
    let cd := set_tx_push_pos (u32 (tx_push_pos0 + 1)) cd in
    let cd :=
      if parse_state_eqb (parse_state cd) MS_START then tx_do_schedule cd
      else cd in
    (0, cd).

(** ** Setup *)

(** [can2040_setup]: the controller after its [memset] of the whole structure to zero. *)
Definition can2040_setup : can2040 :=
  mk_can2040 MS_START 0 0 zero_msg 0 (mk_unstuf 0 0 0 0) 0 0 0 0 0
             (repeat zero_transmit (Z.to_nat TX_QUEUE_SIZE)) false [].

Definition can2040_start (cd : can2040) : can2040 :=
  data_state_go_discard (pio_sm_setup cd).

(** ** Executions *)

(** The DMA interrupt delivering a sequence of bytes: one [process_rx] per
    byte. *)
Fixpoint rx_bytes (cd : can2040) (bytes : list Z) : option can2040 :=
  match bytes with
  | [] => Some cd
  | b :: r =>
    match process_rx cd b with
    | Some cd' => rx_bytes cd' r
    | None => None
    end
  end.

(** The states the controller can be in: zero-initialized by
    [can2040_setup], then driven by the public entry points, the two
    interrupt paths and the hardware setting the stall flag. *)
Inductive reachable : can2040 -> Prop :=
  | reach_setup : reachable can2040_setup
  | reach_start cd : reachable cd -> reachable (can2040_start cd)
  | reach_rx cd b cd' :
      reachable cd -> process_rx cd b = Some cd' -> reachable cd'
  | reach_irq cd idle : reachable cd -> reachable (dma_irq_forced cd idle)
  | reach_transmit cd m :
      reachable cd -> reachable (snd (can2040_transmit cd m))
  | reach_stall cd b : reachable cd -> reachable (set_rx_stall b cd).

(** [pending] of [can2040_transmit] and [can2040_check_transmit]. *)
Definition pending (cd : can2040) : Z :=
  u32 (tx_push_pos cd - tx_pull_pos cd).

(** A bus that first carries 32 bytes of alternating bits and then goes
    idle, a frame queued by the user, and a frame of another node (identifier
    0, no data, acknowledged) followed by idle. *)
Definition noise_bytes : list Z := repeat 0x55 32 ++ [0xff; 0xff].
Definition user_msg : can2040_msg := mk_msg 0x123 1 [0xA5; 0; 0; 0; 0; 0; 0; 0].
Definition foreign_frame_bytes : list Z := [4; 16; 65; 4; 16; 191; 255].

Definition after_noise : option can2040 :=
  rx_bytes (can2040_start can2040_setup) noise_bytes.

Definition after_enqueue : option can2040 :=
  match after_noise with
  | Some cd => Some (snd (can2040_transmit cd user_msg))
  | None => None
  end.

Definition after_foreign_frame : option can2040 :=
  match after_enqueue with
  | Some cd => rx_bytes cd foreign_frame_bytes
  | None => None
  end.

Definition is_tx_send (e : event) : bool :=
  match e with PioTxSend _ => true | _ => false end.

(** ** Relations between states *)

(** The parser's part of the controller is the same in both states. *)
Definition same_parse (cd cd' : can2040) : Prop :=
  parse_state cd' = parse_state cd /\ parse_hdr cd' = parse_hdr cd /\
  parse_crc cd' = parse_crc cd /\ parse_msg cd' = parse_msg cd /\
  parse_datapos cd' = parse_datapos cd /\ unstuf cd' = unstuf cd /\
  raw_bit_count cd' = raw_bit_count cd.

(** A handler of the parser has run: the raw cursor is where it was and a
    new field is being collected. *)
Definition rearmed (cd cd' : can2040) : Prop :=
  count_stuff (unstuf cd') = count_stuff (unstuf cd) /\
  0 < count_unstuff (unstuf cd').

(** ** Bit strings and the stuffing rule *)

(** The [n] low bits of [w], most significant first: the order in which the
    bits travel on the wire. *)
Fixpoint bits_of (w : Z) (n : nat) : list bool :=
  match n with
  | O => []
  | S k => Z.testbit w (Z.of_nat k) :: bits_of w k
  end.

(** The [k] bits of [w] from position [c] upwards: as a history of the bits
    that went through position [c], the most recent first. *)
Definition hist (w c : Z) (k : nat) : list bool :=
  map (fun j => Z.testbit w (c + Z.of_nat j)) (seq 0 k).

(** The five most recent bits of a history are equal; a history that is too
    short continues with zeros, as a word does above its top bit. *)
Definition run5 (h : list bool) : bool :=
  let g i := nth i h false in
  eqb (g 0%nat) (g 1%nat) && eqb (g 1%nat) (g 2%nat)
  && eqb (g 2%nat) (g 3%nat) && eqb (g 3%nat) (g 4%nat).

(** The stuffing rule on bit strings: after history [h], every data bit is
    sent, and when it is the fifth equal bit in a row its complement is sent
    after it.  The result is in wire order. *)
Fixpoint stuff (h : list bool) (data : list bool) : list bool :=
  match data with
  | [] => []
  | d :: r =>
    if run5 (d :: h) then d :: negb d :: stuff (negb d :: d :: h) r
    else d :: stuff (d :: h) r
  end.

(** No run of six or more equal bits in a bit string: the scan keeps the
    last bit and the length of the run it ends. *)
Fixpoint no_run6_from (last : bool) (len : nat) (l : list bool) : bool :=
  match l with
  | [] => true
  | b :: r =>
    let len' := if eqb b last then S len else 1%nat in
    (len' <? 6)%nat && no_run6_from b len' r
  end.

Definition no_run6 (l : list bool) : bool :=
  match l with
  | [] => true
  | b :: r => no_run6_from b 1 r
  end.

(** The outcomes of a pull. *)
Inductive pull_result := PullDone | PullMore | PullSixHigh | PullSixLow.

Definition pull_code (r : pull_result) : Z :=
  match r with
  | PullDone => 0 | PullMore => 1 | PullSixHigh => -1 | PullSixLow => -2
  end.

(** The unstuffing rule on bit strings, after §4.3: [h] is the history of
    raw bits already consumed, [p] the raw bits not yet consumed, [n] the
    number of bits the field still needs.  The result gives the outcome, the
    bits appended to the field (in wire order), and the raw bits left.  A raw
    bit that follows five equal bits is either the sixth equal bit, which
    stops the pull, or a stuff bit, which is consumed and not appended. *)
Fixpoint unstuff (h p : list bool) (n : nat)
  : pull_result * list bool * list bool :=
  match n with
  | O => (PullDone, [], p)
  | S n' =>
    match p with
    | [] => (PullMore, [], [])
    | b :: p' =>
      if run5 h then
        if eqb b (nth 0 h false)
        then (if b then PullSixHigh else PullSixLow, [], p')
        else unstuff (b :: h) p' n
      else
        let '(r, f, q) := unstuff (b :: h) p' n' in (r, b :: f, q)
    end
  end.

(** Bits [c] to [c+4] of [w] are equal: what a zero four-bit edge
    neighbourhood at [c] means. *)
Definition eq5 (w c : Z) : bool :=
  eqb (Z.testbit w c) (Z.testbit w (c + 1))
  && eqb (Z.testbit w (c + 1)) (Z.testbit w (c + 2))
  && eqb (Z.testbit w (c + 2)) (Z.testbit w (c + 3))
  && eqb (Z.testbit w (c + 3)) (Z.testbit w (c + 4)).

(** Word [b'] carries the bit string [s] in its low bits and, above them,
    what word [b] carries above its [n] low bits, as far as 32 bits reach. *)
Definition stuffed_as (b : Z) (n : nat) (b' : Z) (s : list bool) : Prop :=
  0 <= b' < 2 ^ 32 /\
  bits_of b' (length s) = s /\
  forall j, 0 <= j ->
    Z.testbit b' (Z.of_nat (length s) + j)
    = (Z.of_nat (length s) + j <? 32) && Z.testbit b (Z.of_nat n + j).

(** What the pull loop does to [unstuffed_bits] when it appends the bits
    [f] to a field that still needs [cu] bits. *)
Fixpoint or_bits (ub : Z) (f : list bool) (cu : Z) : Z :=
  match f with
  | [] => ub
  | b :: r => or_bits (Z.lor ub (shl (Z.b2z b) (cu - 1))) r (cu - 1)
  end.

(** ** The transmit buffer as a bit stream *)

(** Bit [p] of the stream held in a buffer of words: a word is sent most
    significant bit first. *)
Definition sbit (buf : list Z) (p : Z) : bool :=
  Z.testbit (nth (Z.to_nat (p / 32)) buf 0) (31 - p mod 32).

(** The first [n] bits of the stream of a buffer. *)
Definition stream_of (buf : list Z) (n : nat) : list bool :=
  map (fun p => sbit buf (Z.of_nat p)) (seq 0 n).

(** The buffer of the encoder holds exactly the stream [s]: its bits, then
    zeros. *)
Definition buf_holds (buf : list Z) (s : list bool) : Prop :=
  length buf = STUFFED_DATA_WORDS /\
  forall p, 0 <= p < 32 * Z.of_nat STUFFED_DATA_WORDS ->
    sbit buf p = nth (Z.to_nat p) s false.

(** Word [w] holds the 32 most recent bits of history [h]. *)
Definition hist_word (w : Z) (h : list bool) : Prop :=
  0 <= w < 2 ^ 32 /\
  forall j, 0 <= j < 32 -> Z.testbit w j = nth (Z.to_nat j) h false.

(** The history of a frame being encoded after the stream [s]: its bits,
    most recent first, and before them the 1 that [can2040_transmit] puts in
    [prev_stuffed]. *)
Definition tx_hist (s : list bool) : list bool := rev s ++ [true].

(** What [bs_push] and [bs_pushraw] maintain while a frame is encoded:
    the buffer holds the stream [s], [bitpos] is its length and
    [prev_stuffed] its most recent bits. *)
Definition enc_inv (bs : bitstuffer_s) (s : list bool) : Prop :=
  buf_holds (buf bs) s /\
  bitpos bs = Z.of_nat (length s) /\
  hist_word (prev_stuffed bs) (tx_hist s).

(** ** The bits of a frame *)

(** The header word that [can2040_transmit] pushes as 19 bits. *)
Definition tx_hdr (m : can2040_msg) : Z :=
  Z.lor (shl (addr m) 7) (data_len m).

(** The data bits: eight per payload byte, [data_len] bytes. *)
Definition tx_data_bits (m : can2040_msg) : list bool :=
  flat_map (fun i => bits_of (nth i (d1 m) 0) 8)
           (seq 0 (Z.to_nat (data_len m))).

(** Everything that goes through [bs_push]: header, data and CRC. *)
Definition tx_frame_bits (m : can2040_msg) : list bool :=
  bits_of (tx_hdr m) 19 ++ tx_data_bits m ++ bits_of (crc (tx_encode m)) 15.

(** The stuffed region of the frame of [m]. *)
Definition tx_stream (m : can2040_msg) : list bool :=
  stuff [true] (tx_frame_bits m).

(** The encoder of [can2040_transmit] up to and including the CRC. *)
Definition tx_encode_crc_bs (m : can2040_msg) : bitstuffer_s :=
  let bs := tx_encode_bs m in
  bs_push bs (Z.land (bs_crc bs) 0x7fff) 15.

(** ** The receive path one raw bit at a time *)

(** What [process_rx] does to the controller before its loop: the byte
    enters the window and the raw bit counter advances. *)
Definition rx_load (cd : can2040) (rx_byte : Z) : can2040 :=
  set_raw_bit_count (u32 (raw_bit_count cd + 8))
    (with_unstuf (fun bu => unstuf_add_bits bu rx_byte 8) cd).

(** What the loops of [process_rx] and [unstuf_pull_bits] do with the next
    raw bit of the window, the bit below the cursor [count_stuff]: after
    five equal bits it is the sixth, which ends the frame or is an error, or
    a stuff bit, which is dropped; otherwise it is appended to the field,
    and the handler of the parser runs when the field is complete. *)
Definition rx_step (cd : can2040) : can2040 :=
  let bu := unstuf cd in
  let sb := stuffed_bits bu in
  let cs := count_stuff bu in
  let b := Z.testbit sb (cs - 1) in
  if eq5 sb cs then
    let cd := set_unstuf
      (mk_unstuf sb (cs - 1) (unstuffed_bits bu) (count_unstuff bu)) cd in
    if eqb b (Z.testbit sb cs) then
      if b then data_state_go_idle cd else data_state_go_error cd
    else cd
  else
    let cu := count_unstuff bu - 1 in
    let ub := Z.lor (unstuffed_bits bu) (shl (Z.b2z b) cu) in
    let cd := set_unstuf (mk_unstuf sb (cs - 1) ub cu) cd in
    if cu =? 0 then data_state_update cd ub else cd.

Fixpoint rx_steps (n : nat) (cd : can2040) : can2040 :=
  match n with
  | O => cd
  | S k => rx_steps k (rx_step cd)
  end.

(** The receive path over a sequence of bytes, [n] raw bits further: a byte
    is loaded when the window is used up. *)
Fixpoint rx_run (n : nat) (cd : can2040) (bytes : list Z)
  : can2040 * list Z :=
  match n with
  | O => (cd, bytes)
  | S k =>
    if count_stuff (unstuf cd) =? 0 then
      match bytes with
      | [] => (cd, [])
      | b :: r => rx_run k (rx_step (rx_load cd b)) r
      end
    else rx_run k (rx_step cd) bytes
  end.

(** The raw bits not yet consumed: those left in the window, then those of
    the bytes to come. *)
Definition rx_future (cd : can2040) (bytes : list Z) : list bool :=
  bits_of (stuffed_bits (unstuf cd)) (Z.to_nat (count_stuff (unstuf cd)))
  ++ flat_map (fun b => bits_of b 8) bytes.

(** ** A frame on the wire *)

(** The bytes a receiver gets from a word of the transmit buffer: the PIO
    shifts a word out most significant bit first. *)
Definition word_bytes (w : Z) : list Z :=
  [Z.land (shr w 24) 0xff; Z.land (shr w 16) 0xff;
   Z.land (shr w 8) 0xff; Z.land w 0xff].

(** The bytes of the [stuffed_words] words that [pio_tx_send] is given. *)
Definition tx_wire_bytes (q : can2040_transmit_s) : list Z :=
  flat_map word_bytes (firstn (Z.to_nat (stuffed_words q)) (stuffed_data q)).

(** The receiver waits for a frame on an idle bus: it is in MS_START, a
    header of 18 bits is to be collected, the window is used up and its five
    most recent bits are recessive. *)
Definition rx_idle (cd : can2040) : Prop :=
  parse_state cd = MS_START /\
  count_stuff (unstuf cd) = 0 /\
  unstuffed_bits (unstuf cd) = 0 /\ count_unstuff (unstuf cd) = 18 /\
  eq5 (stuffed_bits (unstuf cd)) 0 = true /\
  Z.testbit (stuffed_bits (unstuf cd)) 0 = true.

(** ** The stream as the receiver reads it *)

(** The stuffing rule with the stuff bit put before the data bit that
    follows it, which is where the receiver meets it: after five equal
    bits the complement of the most recent bit comes first. *)
Fixpoint lstuff (h : list bool) (data : list bool) : list bool :=
  match data with
  | [] => []
  | d :: r =>
    if run5 h then
      let s := negb (nth 0 h false) in s :: d :: lstuff (d :: s :: h) r
    else d :: lstuff (d :: h) r
  end.

(** The stuff bit that [stuff] has sent after the last data bit and
    [lstuff] has not. *)
Definition stuff_due (h : list bool) : list bool :=
  if run5 h then [negb (nth 0 h false)] else [].

(** The fields of the parser that the handlers of a frame write. *)
Definition parse_fields (cd : can2040)
  : parse_state_t * Z * can2040_msg * Z :=
  (parse_state cd, parse_crc cd, parse_msg cd, parse_datapos cd).

(** The unstuffer as the receiver of a stream sees it: the five most recent
    raw bits are the head of [hs], the raw bits to come are [p], and the
    field being collected holds [ub] and needs [cu] more bits. *)
Definition rx_window (cd : can2040) (bytes : list Z) (hs p : list bool)
  (ub cu : Z) : Prop :=
  0 <= count_stuff (unstuf cd) <= 8 /\
  rx_future cd bytes = p /\
  (forall j, (j < 5)%nat ->
     Z.testbit (stuffed_bits (unstuf cd))
               (count_stuff (unstuf cd) + Z.of_nat j) = nth j hs false) /\
  unstuffed_bits (unstuf cd) = ub /\ count_unstuff (unstuf cd) = cu.

(** The running CRC and the message of the parser after the header and
    [k] data bytes of the frame of [m]. *)
Definition rx_crc (m : can2040_msg) (k : nat) : Z :=
  fold_left (fun c i => crcbits c (nth i (d1 m) 0) 8) (seq 0 k)
            (crcbits 0 (tx_hdr m) 18).

Definition rx_msg (m : can2040_msg) (k : nat) : can2040_msg :=
  mk_msg (addr m) (data_len m) (firstn k (d1 m) ++ repeat 0 (8 - k)).

Definition rx_after (m : can2040_msg) (k : nat) (cd : can2040) : Prop :=
  parse_msg cd = rx_msg m k /\ parse_datapos cd = Z.of_nat k /\
  if Z.of_nat k <? data_len m
  then parse_state cd = MS_DATA /\ parse_crc cd = rx_crc m k
  else parse_state cd = MS_CRC /\
       parse_crc cd = Z.land (rx_crc m k) 0x7fff.

(** The parser once the CRC of a frame has been checked: the message and
    its CRC stay as they are while no new header is collected, and in
    MS_START none is as long as the bus stays recessive. *)
Definition rx_tail (M : can2040_msg) (C : Z) (cd : can2040) : Prop :=
  parse_msg cd = M /\ parse_crc cd = C /\
  0 <= count_stuff (unstuf cd) /\ count_unstuff (unstuf cd) <> 0 /\
  match parse_state cd with
  | MS_START =>
    eq5 (stuffed_bits (unstuf cd)) (count_stuff (unstuf cd)) = true /\
    Z.testbit (stuffed_bits (unstuf cd)) (count_stuff (unstuf cd)) = true
  | MS_DATA | MS_CRC => False
  | _ => True
  end.

(** The raw bits to come do not start a frame: all are recessive, but for
    the first one when the parser is not in MS_START. *)
Definition tail_ok (st : parse_state_t) (p : list bool) : Prop :=
  match p with
  | [] => True
  | b :: r => (st = MS_START -> b = true) /\ Forall (fun x => x = true) r
  end.

(** A message as a caller gives it that keeps to the frame format: an
    11-bit identifier, at most 8 data bytes, and an array of 8 bytes. *)
Definition msg_wf (m : can2040_msg) : Prop :=
  0 <= addr m < 2 ^ 11 /\ 0 <= data_len m <= 8 /\
  length (d1 m) = 8%nat /\ Forall (fun x => 0 <= x < 256) (d1 m).

(** Controller [cd'] is [cd] but for the unstuffer and the raw bit counter,
    the two fields that [process_rx] and [unstuf_pull_bits] write between
    two calls of the parser. *)
Definition rx_only (cd cd' : can2040) : Prop :=
  exists bu rc, cd' = set_raw_bit_count rc (set_unstuf bu cd).

(** [N] raw bits take the receive path from one point to another. *)
Definition rx_reaches (N : nat) (cd : can2040) (bytes : list Z)
  (cd' : can2040) (bytes' : list Z) : Prop :=
  forall n, rx_run (N + n) cd bytes = rx_run n cd' bytes'.

(** The controller when the noise has ended and the bus has gone idle:
    the state [after_noise] reaches. *)
Definition idle_after_noise : can2040 :=
  match after_noise with
  | Some cd => cd
  | None => can2040_setup
  end.

(** The data cursor of the parser is inside the payload: the message in
    progress has its 8 bytes and a length of at most 8, and while data bytes
    are collected the cursor is below the length. *)
Definition parser_in_bounds (cd : can2040) : Prop :=
  0 <= data_len (parse_msg cd) <= 8 /\
  length (d1 (parse_msg cd)) = 8%nat /\
  (parse_state cd = MS_DATA ->
   0 <= parse_datapos cd < data_len (parse_msg cd)).

(** What [unstuf_clear_state] does to the history: when the two most
    recent bits are equal and the five most recent are not, the most recent
    one is flipped. *)
Definition clear_hist (h : list bool) : list bool :=
  if eqb (nth 0 h false) (nth 1 h false) && negb (run5 h)
  then negb (nth 0 h false) :: tl h else h.

(** The callbacks the controller has made, most recent first. *)
Definition is_notify (e : event) : bool :=
  match e with Notify _ _ => true | _ => false end.

Definition notes (cd : can2040) : list event := filter is_notify (log cd).

(** The controller only listens: nothing is being sent, nothing is queued,
    and [L] are the callbacks it has made. *)
Definition rx_passive (L : list event) (cd : can2040) : Prop :=
  in_transmit cd = 0 /\ tx_push_pos cd = tx_pull_pos cd /\ notes cd = L.

(** The controller that has reported a frame and sees the bus recessive:
    it waits in MS_START with recessive bits behind it, or is in MS_DISCARD
    after the idle counter of the PIO has been reset. *)
Definition rx_rest (L : list event) (cd : can2040) : Prop :=
  rx_passive L cd /\
  0 <= count_stuff (unstuf cd) <= 8 /\ count_unstuff (unstuf cd) <> 0 /\
  match parse_state cd with
  | MS_START =>
    eq5 (stuffed_bits (unstuf cd)) (count_stuff (unstuf cd)) = true /\
    Z.testbit (stuffed_bits (unstuf cd)) (count_stuff (unstuf cd)) = true
  | MS_DISCARD => True
  | _ => False
  end.

(** The bus as the receiver of the frame of [user_msg] sees it when
    another node sends the frame and it is acknowledged: the stuffed frame,
    the CRC delimiter, a dominant ACK slot, recessive bits. *)
Definition acked_frame_bytes : list Z := [18; 48; 90; 80; 130; 203; 255].

(** A controller started on an idle bus: after [can2040_start] two bytes of
    recessive bits arrive and the parser waits in MS_START.  From there,
    [after_header] has received the first three bytes of the frame of
    [user_msg] sent by another node, so the header is parsed and the data
    byte awaited; [sending_user_msg] has been given [user_msg] to send, and
    [own_frame_heard] has then read back the first six bytes of its own
    frame, with the ACK slot dominant. *)
Definition idle_after_start : can2040 :=
  match rx_bytes (can2040_start can2040_setup) [0xff; 0xff] with
  | Some cd => cd
  | None => can2040_setup
  end.

Definition after_header : can2040 :=
  match rx_bytes idle_after_start [0x12; 0x30; 0x5a] with
  | Some cd => cd
  | None => can2040_setup
  end.

Definition sending_user_msg : can2040 :=
  snd (can2040_transmit idle_after_start user_msg).

Definition own_frame_heard : can2040 :=
  match rx_bytes sending_user_msg [0x12; 0x30; 0x5a; 0x50; 0x82; 0xcb] with
  | Some cd => cd
  | None => can2040_setup
  end.

(** The same frame when no node acknowledges it: after the stuffed frame
    the bus stays recessive. *)
Definition unacked_frame_bytes : list Z := [18; 48; 90; 80; 130; 207; 255].


(** * Properties *)

(** The arithmetic helpers and the bit engines are kept folded by [simpl]
    and [cbn]; proofs unfold them where they look inside. *)
Arguments u32 : simpl never.
Arguments shl : simpl never.
Arguments shr : simpl never.
Arguments lowmask : simpl never.
Arguments not32 : simpl never.
Arguments crcbits : simpl never.
Arguments bitstuff : simpl never.
Arguments unstuf_pull_bits : simpl never.
Arguments tx_encode : simpl never.
Arguments tx_slot : simpl never.
Arguments d4 : simpl never.

(** Reduction of the record projections, the setters and the thin wrappers
    of the driver, and nothing else. *)
Ltac cd_simpl :=
  cbn [parse_state parse_hdr parse_crc parse_msg parse_datapos unstuf
       raw_bit_count in_transmit cancel_count tx_pull_pos tx_push_pos
       tx_queue rx_stall log
       set_parse_state set_parse_hdr set_parse_crc set_parse_msg
       set_parse_datapos set_unstuf set_raw_bit_count set_in_transmit
       set_cancel_count set_tx_pull_pos set_tx_push_pos set_tx_queue
       set_rx_stall emit with_unstuf
       pio_tx_send pio_tx_cancel pio_ack_inject pio_ack_cancel
       pio_rx_check_stall pio_sync_enable_idle_irq pio_sync_disable_idle_irq
       pio_sync_setup pio_sm_setup
       report_error report_rx_msg report_tx_msg report_tx_fail
       tx_cancel tx_finalize data_state_go_discard data_state_go_error
       unstuf_set_count stuffed_bits count_stuff unstuffed_bits count_unstuff
       addr data_len d1 msg crc stuffed_words stuffed_data
       fst snd negb] in *.

Lemma reachable_rx_bytes bytes : forall cd cd',
  reachable cd -> rx_bytes cd bytes = Some cd' -> reachable cd'.
Proof.
  induction bytes as [|b r IH]; simpl; intros cd cd' R E.
  - now inversion E; subst.
  - destruct (process_rx cd b) as [c1|] eqn:P; [|discriminate].
    eapply IH; [eapply reach_rx; eauto | exact E].
Qed.

Lemma reachable_after_noise cd : after_noise = Some cd -> reachable cd.
Proof.
  unfold after_noise; intros E.
  eapply reachable_rx_bytes; [|exact E].
  apply reach_start, reach_setup.
Qed.

Lemma reachable_after_enqueue cd : after_enqueue = Some cd -> reachable cd.
Proof.
  unfold after_enqueue.
  destruct after_noise as [c|] eqn:E; [|discriminate].
  intros H; inversion H; subst.
  apply reach_transmit, reachable_after_noise, E.
Qed.

Lemma reachable_after_foreign_frame cd :
  after_foreign_frame = Some cd -> reachable cd.
Proof.
  unfold after_foreign_frame.
  destruct after_enqueue as [c|] eqn:E; [|discriminate].
  intros H. eapply reachable_rx_bytes; [|exact H].
  apply reachable_after_enqueue, E.
Qed.

(** ** The header field (START state) *)

Lemma tx_check_self_transmit_parse cd :
  let cd' := snd (tx_check_self_transmit cd) in
  parse_state cd' = parse_state cd /\ parse_hdr cd' = parse_hdr cd /\
  parse_crc cd' = parse_crc cd /\ parse_msg cd' = parse_msg cd /\
  parse_datapos cd' = parse_datapos cd /\ unstuf cd' = unstuf cd.
Proof.
  unfold tx_check_self_transmit.
  destruct (in_transmit cd =? 0); [simpl; tauto|].
  match goal with |- context [if ?c then _ else _] => destruct c end;
    simpl; tauto.
Qed.

Lemma data_state_go_crc_parse cd :
  let cd' := data_state_go_crc cd in
  parse_state cd' = MS_CRC /\ parse_hdr cd' = parse_hdr cd /\
  parse_crc cd' = Z.land (parse_crc cd) 0x7fff /\
  parse_msg cd' = parse_msg cd /\ parse_datapos cd' = parse_datapos cd /\
  unstuf cd' = unstuf_set_count (unstuf cd) 15.
Proof.
  unfold data_state_go_crc.
  match goal with |- context [tx_check_self_transmit ?c] =>
    pose proof (tx_check_self_transmit_parse c) as H;
    destruct (tx_check_self_transmit c) as [self c1] end.
  simpl in H. destruct H as (H1 & H2 & H3 & H4 & H5 & H6).
  destruct self.
  - cbv zeta. rewrite H1, H2, H3, H4, H5, H6. simpl. tauto.
  - destruct (bitstuff _ _) as [last newcount]. cbv zeta. simpl.
    rewrite H1, H2, H3, H4, H5, H6. simpl. tauto.
Qed.

Lemma data_state_go_discard_parse cd :
  let cd' := data_state_go_discard cd in
  parse_state cd' = MS_DISCARD /\ parse_hdr cd' = parse_hdr cd /\
  parse_crc cd' = parse_crc cd /\ parse_msg cd' = parse_msg cd /\
  parse_datapos cd' = parse_datapos cd /\
  unstuf cd' = unstuf_set_count (unstuf cd) 8.
Proof. simpl. tauto. Qed.

Lemma emit_parse e cd :
  parse_state (emit e cd) = parse_state cd /\ parse_hdr (emit e cd) = parse_hdr cd /\
  parse_crc (emit e cd) = parse_crc cd /\ parse_msg (emit e cd) = parse_msg cd /\
  parse_datapos (emit e cd) = parse_datapos cd /\ unstuf (emit e cd) = unstuf cd.
Proof. repeat split; reflexivity. Qed.

(** C5, as the code has it.  A header with a reserved bit set sends the
    parser to DISCARD and leaves the message in progress alone.  Any other
    header is recorded, the identifier is bits 7..17, the DLC is the low four
    bits clamped to 8, the payload is zeroed and the data cursor reset; the
    parser goes to CRC when the DLC is 0 and to DATA otherwise.  The running
    CRC is [crcbits(0, data, 18)] on the way to DATA, and that value masked to
    15 bits on the way to CRC, where [data_state_go_crc] masks it. *)
Theorem data_state_update_start_spec (cd : can2040) (data : Z) :
  let cd' := data_state_update_start cd data in
  let dlc := Z.min (Z.land data 0xf) 8 in
  if Z.land data (Z.lor (Z.shiftl 1 18) (Z.shiftl 7 4)) =? 0 then
    parse_hdr cd' = data /\
    addr (parse_msg cd') = Z.land (shr data 7) 0x7ff /\
    addr (parse_msg cd') = (data / 2 ^ 7) mod 2 ^ 11 /\
    data_len (parse_msg cd') = dlc /\
    d1 (parse_msg cd') = repeat 0 8 /\
    d4 (parse_msg cd') 0 = 0 /\ d4 (parse_msg cd') 1 = 0 /\
    parse_datapos cd' = 0 /\
    parse_state cd' = (if dlc =? 0 then MS_CRC else MS_DATA) /\
    parse_crc cd' = (if dlc =? 0 then Z.land (crcbits 0 data 18) 0x7fff
                     else crcbits 0 data 18)
  else
    cd' = data_state_go_discard cd /\
    parse_state cd' = MS_DISCARD /\ parse_msg cd' = parse_msg cd.
Proof.
  cbv zeta. unfold data_state_update_start.
  generalize (crcbits 0 data 18) as c; intro c.
  destruct (Z.land data (Z.lor (Z.shiftl 1 18) (Z.shiftl 7 4)) =? 0) eqn:Hm;
    cbn [negb]; [|repeat split; reflexivity].
  assert (Hd : (if 8 <? Z.land data 15 then 8 else Z.land data 15)
               = Z.min (Z.land data 15) 8).
  { destruct (8 <? Z.land data 15) eqn:E;
      [apply Z.ltb_lt in E | apply Z.ltb_ge in E]; lia. }
  assert (Ha : Z.land (shr data 7) 2047 = (data / 2 ^ 7) mod 2 ^ 11).
  { unfold shr. rewrite Z.shiftr_div_pow2 by lia.
    change 2047 with (Z.ones 11). now rewrite Z.land_ones by lia. }
  cbn [parse_datapos set_parse_datapos].
  rewrite Hd.
  set (dlc := Z.min (Z.land data 15) 8).
  assert (Hz : (dlc <=? 0) = (dlc =? 0)).
  { assert (0 <= Z.land data 15) by (apply Z.land_nonneg; lia).
    destruct (dlc =? 0) eqn:E;
      [apply Z.eqb_eq in E; apply Z.leb_le | apply Z.eqb_neq in E;
       apply Z.leb_gt]; unfold dlc in *; lia. }
  rewrite Hz. destruct (dlc =? 0).
  - match goal with |- context [data_state_go_crc ?c] =>
      pose proof (data_state_go_crc_parse c) as H end.
    cbv zeta in H. destruct H as (H1 & H2 & H3 & H4 & H5 & H6).
    unfold pio_sync_enable_idle_irq.
    match goal with |- context [emit ?e ?c] =>
      destruct (emit_parse e c) as (E1 & E2 & E3 & E4 & E5 & E6) end.
    rewrite E1, E2, E3, E4, E5, H1, H2, H3, H4, H5.
    split; [reflexivity|]. split; [reflexivity|]. split; [exact Ha|].
    repeat (split; [reflexivity|]); reflexivity.
  - split; [reflexivity|]. split; [reflexivity|]. split; [exact Ha|].
    repeat (split; [reflexivity|]); reflexivity.
Qed.

(** C5 as stated fails for a header with DLC 0: identifier 0x400, DLC 0
    passes the reserved-bit test, and the running CRC the parser is left with
    is not [crcbits(0, data, 18)] but its low 15 bits. *)
Lemma data_state_update_start_crc_counterexample :
  Z.land 131072 (Z.lor (Z.shiftl 1 18) (Z.shiftl 7 4)) = 0 /\
  0 <= 131072 < 2 ^ 18 /\
  parse_crc (data_state_update_start can2040_setup 131072)
    <> crcbits 0 131072 18.
Proof. vm_compute. repeat split; congruence. Qed.
(** ** Cancellation and the retry ceiling *)

Lemma data_state_go_discard_tx cd :
  in_transmit (data_state_go_discard cd) = 0 /\
  cancel_count (data_state_go_discard cd) = u32 (cancel_count cd + 1).
Proof. split; reflexivity. Qed.

(** C10.  [data_state_go_discard] clears [in_transmit] and increments
    [cancel_count] whatever [in_transmit] was, and so does every path of the
    parser that ends in it: a stuff error, a CRC mismatch, an unsupported
    header, a malformed ACK, the EOF fallback and the DISCARD re-entry.  As a
    consequence a frame can be dropped with TX_FAIL although nothing was ever
    handed to the PIO for transmission: after [can2040_start] and 34 received
    bytes the counter stands at 34, no [pio_tx_send] has happened, the queue
    is empty, and the first [can2040_transmit] reports TX_FAIL for the frame
    it has just queued. *)
Theorem go_discard_counts_without_transmission :
  (forall cd,
     in_transmit (data_state_go_discard cd) = 0 /\
     cancel_count (data_state_go_discard cd) = u32 (cancel_count cd + 1) /\
     cancel_count (data_state_go_error cd) = u32 (cancel_count cd + 1)) /\
  (forall cd data,
     cancel_count (data_state_update_eof cd data)
       = u32 (cancel_count cd + 1) /\
     cancel_count (data_state_update_discard cd data)
       = u32 (cancel_count cd + 1) /\
     cancel_count (data_state_update_crc cd data)
       = (if parse_crc cd =? data then cancel_count cd
          else u32 (cancel_count cd + 1)) /\
     cancel_count (data_state_update_ack cd data)
       = (if data =? 2 then cancel_count cd
          else u32 (cancel_count cd + 1)) /\
     (if Z.land data (Z.lor (Z.shiftl 1 18) (Z.shiftl 7 4)) =? 0 then True
      else cancel_count (data_state_update_start cd data)
           = u32 (cancel_count cd + 1))) /\
  (exists cd0 cd rest,
     after_noise = Some cd0 /\ reachable cd0 /\
     in_transmit cd0 = 0 /\ cancel_count cd0 = 34 /\
     tx_push_pos cd0 = tx_pull_pos cd0 /\
     existsb is_tx_send (log cd0) = false /\
     can2040_transmit cd0 user_msg = (0, cd) /\
     log cd = PioTxSend rest
              :: Notify CAN2040_ID_TX_FAIL (tx_copy_msg user_msg)
              :: log cd0).
Proof.
  split; [|split].
  - intros cd. repeat split; reflexivity.
  - intros cd data. split; [reflexivity|]. split; [reflexivity|].
    split; [|split].
    + unfold data_state_update_crc.
      destruct (parse_crc cd =? data); reflexivity.
    + unfold data_state_update_ack.
      destruct (data =? 2); cbn [negb]; [reflexivity|].
      destruct (pio_rx_check_stall _); reflexivity.
    + unfold data_state_update_start.
      destruct (Z.land data _ =? 0); [exact I | reflexivity].
  - destruct after_noise as [cd0|] eqn:E.
    + pose proof (reachable_after_noise _ E) as R.
      vm_compute in E. inversion E as [E']. clear E.
      exists cd0. rewrite <- E'.
      eexists. eexists.
      split; [reflexivity|]. split; [rewrite E'; exact R|].
      clear R E'. vm_compute. repeat split; reflexivity.
    + vm_compute in E. discriminate.
Qed.

(** ** The queue counters *)

(** C7, where the code departs from it.  In the state reached after
    [can2040_start] and the 34 bytes of [noise_bytes] the queue is empty and
    [cancel_count] is 34.  [can2040_transmit] queues one frame and calls
    [tx_do_schedule], which drops that frame (TX_FAIL), advances
    [tx_pull_pos] to [tx_push_pos], and still calls [pio_tx_send]: the slot
    it hands over is not a pending one. *)
Theorem tx_do_schedule_sends_unqueued_slot :
  option_map (fun cd => (in_transmit cd, cancel_count cd, pending cd))
             after_noise = Some (0, 34, 0) /\
  option_map (fun cd => fst (can2040_transmit cd user_msg)) after_noise
    = Some 0 /\
  option_map (fun cd => (firstn 2 (log cd), in_transmit cd,
                         tx_pull_pos cd, tx_push_pos cd, pending cd))
             after_enqueue
    = Some ([PioTxSend [];
             Notify CAN2040_ID_TX_FAIL (tx_copy_msg user_msg)], 1, 1, 1, 0) /\
  exists cd, after_enqueue = Some cd /\ reachable cd.
Proof.
  split; [vm_compute; reflexivity|].
  split; [vm_compute; reflexivity|].
  split; [vm_compute; reflexivity|].
  destruct after_enqueue as [cd|] eqn:E.
  - exists cd. split; [reflexivity|]. apply reachable_after_enqueue, E.
  - vm_compute in E. discriminate.
Qed.

(** C6, where the code departs from it.  After the execution above the
    controller is in transmit state with an empty queue; when a frame of
    another node with identifier 0 and no data then passes on the bus, it
    compares equal to the zero-initialized slot at [tx_pull_pos], so
    [tx_finalize] advances [tx_pull_pos] past [tx_push_pos]: the reachable
    state has [pending = 2^32 - 1], above the capacity. *)
Theorem pending_exceeds_capacity_reachable :
  option_map (fun cd => (tx_push_pos cd, tx_pull_pos cd, pending cd,
                         TX_QUEUE_SIZE <? pending cd))
             after_foreign_frame
    = Some (1, 2, 2 ^ 32 - 1, true) /\
  exists cd, after_foreign_frame = Some cd /\ reachable cd.
Proof.
  split; [vm_compute; reflexivity|].
  destruct after_foreign_frame as [cd|] eqn:E.
  - exists cd. split; [reflexivity|]. apply reachable_after_foreign_frame, E.
  - vm_compute in E. discriminate.
Qed.

(** ** What the transmit side leaves alone *)

Lemma same_parse_refl cd : same_parse cd cd.
Proof. unfold same_parse; tauto. Qed.

Lemma same_parse_trans a b c :
  same_parse a b -> same_parse b c -> same_parse a c.
Proof.
  unfold same_parse. intros (A1&A2&A3&A4&A5&A6&A7) (B1&B2&B3&B4&B5&B6&B7).
  repeat split; congruence.
Qed.

Lemma same_parse_emit e cd : same_parse cd (emit e cd).
Proof. unfold same_parse; repeat split; reflexivity. Qed.

Lemma same_parse_tx_cancel cd : same_parse cd (tx_cancel cd).
Proof. unfold same_parse; repeat split; reflexivity. Qed.

Lemma same_parse_tx_finalize cd : same_parse cd (tx_finalize cd).
Proof. unfold same_parse; repeat split; reflexivity. Qed.

Lemma same_parse_tx_do_schedule cd : same_parse cd (tx_do_schedule cd).
Proof.
  unfold tx_do_schedule.
  destruct (negb (in_transmit cd =? 0) || (tx_push_pos cd =? tx_pull_pos cd));
    [apply same_parse_refl|].
  destruct (32 <? cancel_count cd);
    unfold same_parse; repeat split; reflexivity.
Qed.

Lemma same_parse_tx_check_self_transmit cd :
  same_parse cd (snd (tx_check_self_transmit cd)).
Proof.
  unfold tx_check_self_transmit.
  destruct (in_transmit cd =? 0); [apply same_parse_refl|].
  match goal with |- context [if ?c then _ else _] => destruct c end;
    [apply same_parse_refl | apply same_parse_tx_cancel].
Qed.

Lemma same_parse_set_rx_stall b cd : same_parse cd (set_rx_stall b cd).
Proof. unfold same_parse; repeat split; reflexivity. Qed.

(** ** The handlers re-arm the unstuffer *)

Lemma rearmed_set_count cd cd' n :
  0 < n -> unstuf cd' = unstuf_set_count (unstuf cd) n -> rearmed cd cd'.
Proof. intros Hn E. unfold rearmed. rewrite E. simpl. split; [reflexivity|lia]. Qed.

Lemma rearmed_go_discard cd : rearmed cd (data_state_go_discard cd).
Proof. apply (rearmed_set_count _ _ 8); [lia | reflexivity]. Qed.

Lemma rearmed_go_crc cd : rearmed cd (data_state_go_crc cd).
Proof.
  apply (rearmed_set_count _ _ 15); [lia|].
  apply data_state_go_crc_parse.
Qed.

Lemma rearmed_same_parse a b c :
  rearmed a b -> same_parse b c -> rearmed a c.
Proof.
  unfold rearmed, same_parse. intros (A1 & A2) (_&_&_&_&_&B&_).
  rewrite B. tauto.
Qed.

Lemma rearmed_same_parse_l a b c :
  same_parse a b -> rearmed b c -> rearmed a c.
Proof.
  unfold rearmed, same_parse. intros (_&_&_&_&_&B&_) (A1 & A2).
  rewrite <- B. tauto.
Qed.

Lemma rearmed_unstuf_l a b c :
  unstuf b = unstuf a -> rearmed b c -> rearmed a c.
Proof. unfold rearmed. intros E (A1 & A2). rewrite <- E. tauto. Qed.

Lemma rearmed_update_start cd data :
  rearmed cd (data_state_update_start cd data).
Proof.
  unfold data_state_update_start.
  destruct (negb _); [apply rearmed_go_discard|].
  eapply rearmed_same_parse; [|apply same_parse_emit].
  match goal with |- context [if ?c then _ else _] => destruct c end.
  - eapply rearmed_unstuf_l; [|apply rearmed_go_crc]. reflexivity.
  - apply (rearmed_set_count _ _ 8); [lia | reflexivity].
Qed.

Lemma rearmed_update_data cd data :
  rearmed cd (data_state_update_data cd data).
Proof.
  unfold data_state_update_data.
  match goal with |- context [if ?c then _ else _] => destruct c end.
  - eapply rearmed_unstuf_l; [|apply rearmed_go_crc]. reflexivity.
  - apply (rearmed_set_count _ _ 8); [lia | reflexivity].
Qed.

Lemma count_stuff_clear_state bu :
  count_stuff (unstuf_clear_state bu) = count_stuff bu.
Proof.
  unfold unstuf_clear_state.
  match goal with |- context [if ?c then _ else _] => destruct c end;
    reflexivity.
Qed.

Lemma rearmed_update_crc cd data :
  rearmed cd (data_state_update_crc cd data).
Proof.
  unfold data_state_update_crc.
  destruct (negb _).
  - eapply rearmed_same_parse_l; [apply same_parse_emit|].
    apply rearmed_go_discard.
  - unfold rearmed. cbn [with_unstuf unstuf set_unstuf set_parse_state
      unstuf_set_count count_stuff count_unstuff].
    rewrite count_stuff_clear_state. split; [reflexivity|lia].
Qed.

Lemma rearmed_update_ack cd data :
  rearmed cd (data_state_update_ack cd data).
Proof.
  unfold data_state_update_ack.
  destruct (negb _).
  - destruct (pio_rx_check_stall _).
    + unfold rearmed. simpl. split; [reflexivity|lia].
    + unfold rearmed. simpl. split; [reflexivity|lia].
  - unfold rearmed. simpl. split; [reflexivity|lia].
Qed.

Lemma rearmed_data_state_update cd data :
  rearmed cd (data_state_update cd data).
Proof.
  unfold data_state_update. destruct (parse_state cd).
  - apply rearmed_update_start.
  - apply rearmed_update_data.
  - apply rearmed_update_crc.
  - apply rearmed_update_ack.
  - apply rearmed_go_discard.
  - apply rearmed_go_discard.
Qed.

Lemma unstuf_with_unstuf f cd : unstuf (with_unstuf f cd) = f (unstuf cd).
Proof. reflexivity. Qed.

Lemma unstuf_set_parse_state s cd : unstuf (set_parse_state s cd) = unstuf cd.
Proof. reflexivity. Qed.

Lemma same_parse_unstuf a b : same_parse a b -> unstuf b = unstuf a.
Proof. unfold same_parse; tauto. Qed.

(** The state [data_state_go_idle] has when it leaves the EOF test. *)
Lemma same_parse_go_idle_eof cd :
  same_parse cd
    (if parse_state_eqb (parse_state cd) MS_EOF then
       let ub := unstuffed_bits (unstuf cd) in
       let cu := count_unstuff (unstuf cd) in
       if u32 (shr ub cu + 1) =? shl 1 (6 - cu) then
         let '(self, cd) := tx_check_self_transmit cd in
         if self then tx_finalize cd else report_rx_msg cd
       else cd
     else cd).
Proof.
  destruct (parse_state_eqb _ _); [|apply same_parse_refl].
  cbv zeta. destruct (_ =? _); [|apply same_parse_refl].
  pose proof (same_parse_tx_check_self_transmit cd) as H.
  destruct (tx_check_self_transmit cd) as [self c1]. cbn [snd] in H.
  destruct self.
  - eapply same_parse_trans; [exact H | apply same_parse_tx_finalize].
  - eapply same_parse_trans; [exact H | apply same_parse_emit].
Qed.

Lemma go_idle_not_start cd :
  parse_state_eqb (parse_state cd) MS_START = false ->
  let cd' := data_state_go_idle cd in
  parse_state cd' = MS_START /\ parse_hdr cd' = parse_hdr cd /\
  parse_crc cd' = parse_crc cd /\ parse_msg cd' = parse_msg cd /\
  parse_datapos cd' = parse_datapos cd /\
  unstuf cd' = unstuf_set_count (unstuf cd) 18.
Proof.
  intros Hs. cbv zeta. unfold data_state_go_idle. rewrite Hs.
  cbv zeta.
  pose proof (same_parse_go_idle_eof (pio_sync_disable_idle_irq cd)) as H.
  cbv zeta in H.
  match type of H with same_parse _ ?y => set (Y := y) in * end.
  assert (H1 : same_parse cd Y).
  { eapply same_parse_trans; [apply same_parse_emit | exact H]. }
  assert (H2 : same_parse cd (tx_do_schedule (pio_ack_cancel Y))).
  { eapply same_parse_trans; [exact H1|].
    eapply same_parse_trans; [apply same_parse_emit|].
    apply same_parse_tx_do_schedule. }
  clearbody Y. clear H H1.
  set (Z0 := tx_do_schedule (pio_ack_cancel Y)) in *. clearbody Z0.
  destruct H2 as (A1 & A2 & A3 & A4 & A5 & A6 & A7).
  cbn [with_unstuf set_unstuf set_parse_state parse_state parse_hdr
       parse_crc parse_msg parse_datapos unstuf].
  rewrite A2, A3, A4, A5, A6. repeat split; reflexivity.
Qed.

Lemma go_idle_start cd :
  parse_state_eqb (parse_state cd) MS_START = true ->
  let cd' := data_state_go_idle cd in
  parse_hdr cd' = parse_hdr cd /\
  parse_crc cd' = parse_crc cd /\ parse_msg cd' = parse_msg cd /\
  parse_datapos cd' = parse_datapos cd /\
  (if (count_stuff (unstuf cd) =? 0)
      && (stuffed_bits (unstuf cd) =? 0xffffffff)
   then parse_state cd' = MS_DISCARD /\
        unstuf cd' = mk_unstuf 0 (count_stuff (unstuf cd)) 0 8
   else parse_state cd' = parse_state cd /\
        unstuf cd' = unstuf_set_count (unstuf cd) 18).
Proof.
  intros Hs. cbv zeta. unfold data_state_go_idle. rewrite Hs.
  destruct (_ && _); repeat split; reflexivity.
Qed.

Lemma rearmed_go_idle cd : rearmed cd (data_state_go_idle cd).
Proof.
  destruct (parse_state_eqb (parse_state cd) MS_START) eqn:Hs.
  - pose proof (go_idle_start cd Hs) as H. cbv zeta in H.
    destruct H as (_ & _ & _ & _ & H).
    destruct (_ && _); destruct H as (_ & H);
      unfold rearmed; rewrite H; simpl; split; (reflexivity || lia).
  - pose proof (go_idle_not_start cd Hs) as H. cbv zeta in H.
    destruct H as (_ & _ & _ & _ & _ & H).
    apply (rearmed_set_count _ _ 18); [lia | exact H].
Qed.

(** ** The pull loop: return value against the counters *)

Lemma unstuf_pull_loop_counts fuel : forall sb edges ub cs cu,
  0 <= cs <= Z.of_nat fuel ->
  let r := unstuf_pull_loop fuel sb edges ub cs cu in
  let ret := fst r in
  let cs' := snd (fst (snd r)) in
  let cu' := snd (snd r) in
  0 <= cs' <= cs /\
  (ret = 0 \/ ret = 1 \/ ret = -1 \/ ret = -2) /\
  (ret = 0 <-> cu' = 0) /\
  (ret = 1 -> cs' = 0) /\
  (cu <> 0 -> ret <> 1 -> cs' < cs).
Proof.
  induction fuel as [|fuel IH]; intros sb edges ub cs cu Hcs; cbv zeta.
  - assert (cs = 0) by lia. subst cs. simpl.
    destruct (cu =? 0) eqn:Ecu; simpl;
      [apply Z.eqb_eq in Ecu | apply Z.eqb_neq in Ecu];
      repeat split; intros; try lia; try tauto.
  - cbn [unstuf_pull_loop].
    destruct (cu =? 0) eqn:Ecu;
      [apply Z.eqb_eq in Ecu | apply Z.eqb_neq in Ecu].
    { simpl. repeat split; intros; try lia; try tauto. }
    destruct (cs =? 0) eqn:Ecs;
      [apply Z.eqb_eq in Ecs | apply Z.eqb_neq in Ecs].
    { simpl. repeat split; intros; try lia; try tauto. }
    cbv zeta.
    destruct (negb (Z.land (shr edges (cs - 1 + 1)) 15 =? 0)).
    { specialize (IH sb edges
        (Z.lor ub (shl (Z.land (shr sb (cs - 1)) 1) (cu - 1))) (cs - 1)
        (cu - 1)).
      cbv zeta in IH.
      destruct IH as (I1 & I2 & I3 & I4 & I5);
        [rewrite Nat2Z.inj_succ in Hcs; lia|].
      split; [lia|]. split; [exact I2|]. split; [exact I3|].
      split; [exact I4|].
      intros _ H. lia. }
    destruct (Z.land (shr edges (cs - 1)) 31 =? 0).
    { destruct (negb (Z.land (shr sb (cs - 1)) 1 =? 0)); simpl;
        repeat split; intros; try lia; try tauto. }
    specialize (IH sb edges ub (cs - 1) cu).
    cbv zeta in IH.
    destruct IH as (I1 & I2 & I3 & I4 & I5);
      [rewrite Nat2Z.inj_succ in Hcs; lia|].
    split; [lia|]. split; [exact I2|]. split; [exact I3|].
    split; [exact I4|].
    intros _ H. lia.
Qed.

Lemma unstuf_pull_bits_counts bu :
  0 <= count_stuff bu ->
  let ret := fst (unstuf_pull_bits bu) in
  let bu' := snd (unstuf_pull_bits bu) in
  stuffed_bits bu' = stuffed_bits bu /\
  0 <= count_stuff bu' <= count_stuff bu /\
  (ret = 0 \/ ret = 1 \/ ret = -1 \/ ret = -2) /\
  (ret = 0 <-> count_unstuff bu' = 0) /\
  (ret = 1 -> count_stuff bu' = 0) /\
  (count_unstuff bu <> 0 -> ret <> 1 -> count_stuff bu' < count_stuff bu).
Proof.
  intros Hcs. cbv zeta. unfold unstuf_pull_bits.
  pose proof (unstuf_pull_loop_counts (Z.to_nat (count_stuff bu))
    (stuffed_bits bu) (Z.lxor (stuffed_bits bu) (shr (stuffed_bits bu) 1))
    (unstuffed_bits bu) (count_stuff bu) (count_unstuff bu)) as H.
  cbv zeta in H.
  destruct (unstuf_pull_loop _ _ _ _ _ _) as [ret [[ub cs] cu]].
  cbn [fst snd stuffed_bits count_stuff count_unstuff] in *.
  split; [reflexivity|]. apply H. lia.
Qed.

Lemma unstuf_pull_bits_done bu :
  count_unstuff bu = 0 -> unstuf_pull_bits bu = (0, bu).
Proof.
  intros E. unfold unstuf_pull_bits.
  destruct (Z.to_nat (count_stuff bu)); simpl; rewrite E; simpl;
    destruct bu; simpl in *; subst; reflexivity.
Qed.

Lemma rearmed_set_unstuf cd bu cd' :
  rearmed (set_unstuf bu cd) cd' ->
  count_stuff (unstuf cd') = count_stuff bu /\ count_unstuff (unstuf cd') <> 0.
Proof. unfold rearmed. simpl. intros (A & B). split; [exact A|lia]. Qed.

Lemma process_rx_loop_terminates fuel : forall cd,
  0 <= count_stuff (unstuf cd) < Z.of_nat fuel ->
  count_unstuff (unstuf cd) <> 0 ->
  exists cd', process_rx_loop fuel cd = Some cd' /\
              count_stuff (unstuf cd') = 0 /\
              count_unstuff (unstuf cd') <> 0.
Proof.
  induction fuel as [|fuel IH]; intros cd Hcs Hcu; [lia|].
  cbn [process_rx_loop].
  pose proof (unstuf_pull_bits_counts (unstuf cd)) as H. cbv zeta in H.
  destruct (unstuf_pull_bits (unstuf cd)) as [ret bu].
  cbn [fst snd] in H.
  destruct H as (_ & H1 & H2 & H3 & H4 & H5); [lia|].
  assert (Hstep : forall cd2, rearmed (set_unstuf bu cd) cd2 -> ret <> 1 ->
            exists cd', process_rx_loop fuel cd2 = Some cd' /\
                        count_stuff (unstuf cd') = 0 /\
                        count_unstuff (unstuf cd') <> 0).
  { intros cd2 R Hr. apply rearmed_set_unstuf in R. destruct R as (R1 & R2).
    specialize (H5 Hcu Hr).
    apply IH; [rewrite R1; rewrite Nat2Z.inj_succ in Hcs; lia | exact R2]. }
  destruct H2 as [E|[E|[E|E]]]; subst ret; simpl.
  - apply Hstep; [apply rearmed_data_state_update | lia].
  - exists (set_unstuf bu cd). split; [reflexivity|]. simpl.
    split; [tauto|]. intros E. apply H3 in E. discriminate.
  - apply Hstep; [apply rearmed_go_idle | lia].
  - apply Hstep; [apply rearmed_go_discard | lia].
Qed.

Lemma process_rx_loop_S fuel cd :
  process_rx_loop (S fuel) cd =
  let '(ret, bu) := unstuf_pull_bits (unstuf cd) in
  let cd := set_unstuf bu cd in
  if ret =? 0 then
    process_rx_loop fuel (data_state_update cd (unstuffed_bits (unstuf cd)))
  else if 0 <? ret then Some cd
  else if ret =? -1 then process_rx_loop fuel (data_state_go_idle cd)
  else process_rx_loop fuel (data_state_go_error cd).
Proof. reflexivity. Qed.

Lemma process_rx_terminates cd rx_byte :
  exists cd', process_rx cd rx_byte = Some cd' /\
              count_stuff (unstuf cd') = 0 /\
              count_unstuff (unstuf cd') <> 0.
Proof.
  unfold process_rx.
  set (cd1 := set_raw_bit_count _ _).
  assert (Hcs : count_stuff (unstuf cd1) = 8) by reflexivity.
  destruct (Z.eq_dec (count_unstuff (unstuf cd1)) 0) as [E|E].
  - change PROCESS_RX_FUEL with (S 9). rewrite process_rx_loop_S.
    rewrite (unstuf_pull_bits_done _ E). cbv zeta. simpl (0 =? 0).
    cbv iota.
    pose proof (rearmed_data_state_update
      (set_unstuf (unstuf cd1) cd1) (unstuffed_bits (unstuf cd1))) as R.
    apply rearmed_set_unstuf in R. destruct R as (R1 & R2).
    apply process_rx_loop_terminates; [|exact R2].
    cbn [unstuf set_unstuf] in R1 |- *. rewrite R1, Hcs. lia.
  - apply process_rx_loop_terminates; [rewrite Hcs|exact E].
    unfold PROCESS_RX_FUEL. lia.
Qed.

Lemma unstuf_pull_bits_empty bu :
  count_stuff bu = 0 -> count_unstuff bu <> 0 ->
  unstuf_pull_bits bu = (1, bu).
Proof.
  intros E1 E2. unfold unstuf_pull_bits. rewrite E1.
  apply Z.eqb_neq in E2. simpl. rewrite E2.
  destruct bu; simpl in *; subst; reflexivity.
Qed.

Lemma unstuf_can2040_transmit cd m :
  unstuf (snd (can2040_transmit cd m)) = unstuf cd.
Proof.
  unfold can2040_transmit.
  destruct (TX_QUEUE_SIZE <=? _); [reflexivity|]. cbn [snd].
  destruct (parse_state_eqb _ _); [|reflexivity].
  rewrite (same_parse_unstuf _ _ (same_parse_tx_do_schedule _)).
  reflexivity.
Qed.

Lemma reachable_count_stuff cd :
  reachable cd -> count_stuff (unstuf cd) = 0.
Proof.
  induction 1 as [|cd R IH|cd b cd' R IH P|cd idle R IH|cd m R IH|cd b R IH].
  - reflexivity.
  - exact IH.
  - destruct (process_rx_terminates cd b) as (c & Pc & Hc & _).
    rewrite P in Pc. inversion Pc. subst. exact Hc.
  - unfold dma_irq_forced. destruct (_ && _); [|exact IH].
    destruct (rearmed_go_idle cd) as (E & _). rewrite E. exact IH.
  - rewrite unstuf_can2040_transmit. exact IH.
  - exact IH.
Qed.

(** C9.  In every reachable state [count_stuff] is zero when [process_rx]
    is entered, so [unstuf_add_bits], whose only call is the first statement
    of [process_rx], overwrites a zero count.  [process_rx] returns, and the
    state it hands back has [count_stuff] zero with a field still being
    collected: a state in which [unstuf_pull_bits] returns 1. *)
Theorem process_rx_adds_bits_to_consumed_window (cd : can2040) (rx_byte : Z) :
  reachable cd ->
  count_stuff (unstuf cd) = 0 /\
  exists cd',
    process_rx cd rx_byte = Some cd' /\ reachable cd' /\
    count_stuff (unstuf cd') = 0 /\
    unstuf_pull_bits (unstuf cd') = (1, unstuf cd').
Proof.
  intros R. split; [apply reachable_count_stuff, R|].
  destruct (process_rx_terminates cd rx_byte) as (cd' & P & H1 & H2).
  exists cd'. split; [exact P|].
  split; [eapply reach_rx; eauto|]. split; [exact H1|].
  apply unstuf_pull_bits_empty; assumption.
Qed.

Lemma process_rx_adds_bits_to_consumed_window_witness :
  reachable can2040_setup /\
  (count_stuff (unstuf can2040_setup) = 0 /\
   exists cd',
     process_rx can2040_setup 0x55 = Some cd' /\ reachable cd' /\
     count_stuff (unstuf cd') = 0 /\
     unstuf_pull_bits (unstuf cd') = (1, unstuf cd')).
Proof.
  split; [apply reach_setup|].
  apply (process_rx_adds_bits_to_consumed_window can2040_setup 0x55).
  apply reach_setup.
Defined.

(** ** Enqueueing *)

Lemma tx_do_schedule_queue cd :
  tx_queue (tx_do_schedule cd) = tx_queue cd /\
  tx_push_pos (tx_do_schedule cd) = tx_push_pos cd.
Proof.
  unfold tx_do_schedule.
  destruct (_ || _); [tauto|].
  destruct (32 <? cancel_count cd); split; reflexivity.
Qed.

Lemma nth_set_nth {A} (l : list A) : forall i v d,
  (i < length l)%nat -> nth i (set_nth l i v) d = v.
Proof.
  induction l as [|x r IH]; intros i v d H; simpl in *; [lia|].
  destruct i; simpl; [reflexivity|]. apply IH. lia.
Qed.

Lemma msg_tx_encode m : msg (tx_encode m) = m.
Proof.
  unfold tx_encode. destruct (bs_finalize _). reflexivity.
Qed.

Lemma crc_tx_encode m :
  crc (tx_encode m) = Z.land (bs_crc (tx_encode_bs m)) 0x7fff.
Proof.
  unfold tx_encode. destruct (bs_finalize _). reflexivity.
Qed.

Lemma clamp8 rl : (if 8 <? rl then 8 else rl) = Z.min rl 8.
Proof.
  destruct (8 <? rl) eqn:E;
    [apply Z.ltb_lt in E | apply Z.ltb_ge in E]; lia.
Qed.

(** ** Words bit by bit *)

Lemma u32_range x : 0 <= u32 x < 2 ^ 32.
Proof. unfold u32. apply Z.mod_pos_bound. lia. Qed.

Lemma u32_small x : 0 <= x < 2 ^ 32 -> u32 x = x.
Proof. unfold u32. intros. apply Z.mod_small. lia. Qed.

Lemma testbit_u32 x i : Z.testbit (u32 x) i = (i <? 32) && Z.testbit x i.
Proof. unfold u32. apply Z.testbit_mod_pow2. lia. Qed.

Lemma testbit_shl x n i :
  Z.testbit (shl x n) i = (i <? 32) && (negb (i <? 0) && Z.testbit x (i - n)).
Proof. unfold shl. rewrite testbit_u32, Z.shiftl_spec'. reflexivity. Qed.

Lemma testbit_shr x n i :
  Z.testbit (shr x n) i = negb (i <? 0) && Z.testbit x (i + n).
Proof. unfold shr. apply Z.shiftr_spec'. Qed.

Lemma lowmask_ones n : 0 <= n <= 32 -> lowmask n = Z.ones n.
Proof.
  intros H. unfold lowmask, shl, u32. rewrite Z.shiftl_1_l, Z.ones_equiv.
  destruct (Z.eq_dec n 32) as [->|Hn].
  - reflexivity.
  - assert (2 ^ n < 2 ^ 32) by (apply Z.pow_lt_mono_r; lia).
    assert (0 < 2 ^ n) by (apply Z.pow_pos_nonneg; lia).
    rewrite (Z.mod_small (2 ^ n)) by lia.
    rewrite Z.mod_small by lia. lia.
Qed.

Lemma testbit_bound w i : 0 <= w < 2 ^ 32 -> 32 <= i -> Z.testbit w i = false.
Proof.
  intros Hw Hi. rewrite <- (Z.mod_small w (2 ^ 32)) by lia.
  apply Z.mod_pow2_bits_high. lia.
Qed.

Ltac push_testbit :=
  repeat first
    [ rewrite Z.lxor_spec | rewrite Z.lor_spec | rewrite Z.land_spec
    | rewrite testbit_shl | rewrite testbit_shr | rewrite testbit_u32
    | rewrite Z.lnot_spec' | rewrite Z.testbit_ones_nonneg' by lia
    | rewrite Z.testbit_0_l ].

Lemma testbit_bitstuff_insert b i j :
  0 <= b < 2 ^ 32 -> 0 <= i < 32 -> 0 <= j ->
  Z.testbit (bitstuff_insert b i) j =
  if j <? i then Z.testbit b j
  else if j =? i then negb (Z.testbit b i)
  else (j <? 32) && Z.testbit b (j - 1).
Proof.
  intros Hb Hi Hj. unfold bitstuff_insert, not32.
  rewrite lowmask_ones by lia.
  push_testbit.
  change (Z.testbit 1 (j - i)) with (Z.testbit (2 ^ 0) (j - i)).
  rewrite Z.pow2_bits_eqb by lia.
  destruct (j <? i) eqn:E1; destruct (j =? i) eqn:E2;
  destruct (j <? 32) eqn:E3; destruct (j <? 0) eqn:E4;
  repeat match goal with
  | H : (_ <? _) = true |- _ => apply Z.ltb_lt in H
  | H : (_ <? _) = false |- _ => apply Z.ltb_ge in H
  | H : (_ =? _) = true |- _ => apply Z.eqb_eq in H
  | H : (_ =? _) = false |- _ => apply Z.eqb_neq in H
  end; try lia;
  repeat match goal with
  | |- context [?a <? ?b] => destruct (Z.ltb_spec a b); try lia
  | |- context [?a =? ?b] => destruct (Z.eqb_spec a b); try lia
  end; subst; cbn [negb andb xorb];
  rewrite ?andb_true_r, ?andb_false_r, ?xorb_false_r, ?xorb_false_l;
  try reflexivity;
  try (rewrite (testbit_bound b) by lia; reflexivity).
  all: try (destruct (Z.testbit b _); reflexivity).
Qed.

(** The edge tests of the stuffer and of the unstuffer. *)

Lemma land_ones_eq0 x k :
  0 <= k ->
  (Z.land x (Z.ones k) = 0 <-> forall j, 0 <= j < k -> Z.testbit x j = false).
Proof.
  intros Hk. split.
  - intros H j Hj.
    apply (f_equal (fun z => Z.testbit z j)) in H.
    rewrite Z.land_spec, Z.testbit_ones_nonneg, Z.testbit_0_l in H by lia.
    destruct (Z.ltb_spec j k); [|lia].
    now rewrite andb_true_r in H.
  - intros H. apply Z.bits_inj'. intros j Hj.
    rewrite Z.land_spec, Z.testbit_ones_nonneg, Z.testbit_0_l by lia.
    destruct (Z.ltb_spec j k).
    + rewrite H by lia. reflexivity.
    + apply andb_false_r.
Qed.

Lemma testbit_edges w k :
  0 <= k ->
  Z.testbit (Z.lxor w (shr w 1)) k
  = xorb (Z.testbit w k) (Z.testbit w (k + 1)).
Proof.
  intros Hk. rewrite Z.lxor_spec, testbit_shr.
  destruct (Z.ltb_spec k 0); [lia|]. reflexivity.
Qed.

Lemma xorb_false_eqb a b : xorb a b = false <-> eqb a b = true.
Proof. destruct a, b; simpl; intuition congruence. Qed.

Ltac by_arith H :=
  match type of H with
  | eqb (Z.testbit _ ?a) (Z.testbit _ ?b) = true =>
    match goal with
    | |- eqb (Z.testbit _ ?a') (Z.testbit _ ?b') = true =>
      let Ea := fresh in let Eb := fresh in
      assert (Ea : a' = a) by lia; assert (Eb : b' = b) by lia;
      rewrite ?Eb, ?Ea; exact H
    end
  end.

Lemma edges4_eq5 w c :
  0 <= c ->
  (Z.land (shr (Z.lxor w (shr w 1)) c) 0xf =? 0) = eq5 w c.
Proof.
  intros Hc. change 15 with (Z.ones 4).
  destruct (eq5 w c) eqn:E.
  - apply Z.eqb_eq. apply land_ones_eq0; [lia|]. intros j Hj.
    rewrite testbit_shr, testbit_edges by lia.
    destruct (Z.ltb_spec j 0); [lia|]. cbn [negb andb].
    unfold eq5 in E. rewrite !andb_true_iff in E.
    destruct E as (((E0 & E1) & E2) & E3).
    apply xorb_false_eqb.
    assert (j = 0 \/ j = 1 \/ j = 2 \/ j = 3)
      as [ -> | [ -> | [ -> | -> ] ] ] by lia;
      first [by_arith E0 | by_arith E1 | by_arith E2 | by_arith E3].
  - apply Z.eqb_neq. intros H.
    rewrite land_ones_eq0 in H by lia.
    assert (K : forall j, 0 <= j < 4 ->
              eqb (Z.testbit w (c + j)) (Z.testbit w (c + j + 1)) = true).
    { intros j Hj. specialize (H j Hj).
      rewrite testbit_shr, testbit_edges in H by lia.
      destruct (Z.ltb_spec j 0); [lia|]. cbn [negb andb] in H.
      apply xorb_false_eqb. rewrite (Z.add_comm c j). exact H. }
    unfold eq5 in E.
    pose proof (K 0) as K0. pose proof (K 1) as K1.
    pose proof (K 2) as K2. pose proof (K 3) as K3.
    rewrite Z.add_0_r in K0.
    replace (c + 1 + 1) with (c + 2) in K1 by lia.
    replace (c + 2 + 1) with (c + 3) in K2 by lia.
    replace (c + 3 + 1) with (c + 4) in K3 by lia.
    rewrite K0, K1, K2, K3 in E by lia. discriminate.
Qed.

Lemma edges5_eq6 w c :
  0 <= c ->
  (Z.land (shr (Z.lxor w (shr w 1)) c) 0x1f =? 0)
  = eqb (Z.testbit w c) (Z.testbit w (c + 1)) && eq5 w (c + 1).
Proof.
  intros Hc. change 31 with (Z.ones 5).
  match goal with |- _ = ?r => destruct r eqn:E end.
  - apply Z.eqb_eq. apply land_ones_eq0; [lia|]. intros j Hj.
    rewrite testbit_shr, testbit_edges by lia.
    destruct (Z.ltb_spec j 0); [lia|]. cbn [negb andb].
    unfold eq5 in E. rewrite !andb_true_iff in E.
    destruct E as (E0 & (((E1 & E2) & E3) & E4)).
    replace (c + 1 + 1) with (c + 2) in * by lia.
    replace (c + 1 + 2) with (c + 3) in * by lia.
    replace (c + 1 + 3) with (c + 4) in * by lia.
    replace (c + 1 + 4) with (c + 5) in * by lia.
    apply xorb_false_eqb.
    assert (j = 0 \/ j = 1 \/ j = 2 \/ j = 3 \/ j = 4)
      as [ -> | [ -> | [ -> | [ -> | -> ] ] ] ] by lia;
      first [by_arith E0 | by_arith E1 | by_arith E2 | by_arith E3
            | by_arith E4].
  - apply Z.eqb_neq. intros H.
    rewrite land_ones_eq0 in H by lia.
    assert (K : forall j, 0 <= j < 5 ->
              eqb (Z.testbit w (c + j)) (Z.testbit w (c + j + 1)) = true).
    { intros j Hj. specialize (H j Hj).
      rewrite testbit_shr, testbit_edges in H by lia.
      destruct (Z.ltb_spec j 0); [lia|]. cbn [negb andb] in H.
      apply xorb_false_eqb. rewrite (Z.add_comm c j). exact H. }
    unfold eq5 in E.
    pose proof (K 0) as K0. pose proof (K 1) as K1.
    pose proof (K 2) as K2. pose proof (K 3) as K3. pose proof (K 4) as K4.
    rewrite Z.add_0_r in K0.
    replace (c + 1 + 1) with (c + 2) in * by lia.
    replace (c + 2 + 1) with (c + 3) in * by lia.
    replace (c + 3 + 1) with (c + 4) in * by lia.
    replace (c + 4 + 1) with (c + 5) in * by lia.
    replace (c + 1 + 2) with (c + 3) in * by lia.
    replace (c + 1 + 3) with (c + 4) in * by lia.
    replace (c + 1 + 4) with (c + 5) in * by lia.
    rewrite K0, K1, K2, K3, K4 in E by lia. discriminate.
Qed.

Lemma run5_hist w c : run5 (hist w c 5) = eq5 w c.
Proof.
  unfold run5, hist, eq5. cbn [map seq nth Z.of_nat].
  rewrite Z.add_0_r. reflexivity.
Qed.

(** ** Bit strings *)

Lemma length_bits_of w n : length (bits_of w n) = n.
Proof. induction n; simpl; congruence. Qed.

Lemma bits_of_ext w w' n :
  (forall j, 0 <= j < Z.of_nat n -> Z.testbit w j = Z.testbit w' j) ->
  bits_of w n = bits_of w' n.
Proof.
  induction n as [|n IH]; intros H; [reflexivity|].
  cbn [bits_of]. rewrite H by lia. f_equal. apply IH.
  intros j Hj. apply H. lia.
Qed.

Lemma hist_S w c k :
  hist w c (S k) = Z.testbit w c :: hist w (c + 1) k.
Proof.
  unfold hist. cbn [seq map]. rewrite Z.add_0_r. f_equal.
  rewrite <- seq_shift, map_map. apply map_ext. intros j.
  f_equal. lia.
Qed.

Lemma nth_hist w c k j :
  (j < k)%nat -> nth j (hist w c k) false = Z.testbit w (c + Z.of_nat j).
Proof.
  revert c j. induction k as [|k IH]; intros c j H; [lia|].
  rewrite hist_S. destruct j as [|j]; cbn [nth].
  - f_equal. lia.
  - rewrite IH by lia. f_equal. lia.
Qed.

(** Only the four most recent bits of the history matter to [stuff]. *)
Lemma run5_ext d h h' :
  (forall j, (j < 4)%nat -> nth j h false = nth j h' false) ->
  run5 (d :: h) = run5 (d :: h').
Proof.
  intros H. unfold run5. cbn [nth].
  rewrite (H 0%nat), (H 1%nat), (H 2%nat), (H 3%nat) by lia. reflexivity.
Qed.

Lemma stuff_ext data : forall h h',
  (forall j, (j < 4)%nat -> nth j h false = nth j h' false) ->
  stuff h data = stuff h' data.
Proof.
  induction data as [|d r IH]; intros h h' H; [reflexivity|].
  cbn [stuff]. rewrite (run5_ext d h h' H).
  destruct (run5 (d :: h')).
  - f_equal. f_equal. apply IH. intros [|[|j]] Hj; cbn [nth]; auto.
    apply H. lia.
  - f_equal. apply IH. intros [|j] Hj; cbn [nth]; auto. apply H. lia.
Qed.

(** After a stuff bit the next three data bits cannot complete a run. *)
Lemma stuff_after_stuff_1 d h x :
  run5 (x :: negb d :: d :: h) = false.
Proof.
  unfold run5. cbn [nth].
  destruct d, x, (nth 0 h false), (nth 1 h false); reflexivity.
Qed.

Lemma stuff_after_stuff_2 d h x y :
  run5 (y :: x :: negb d :: d :: h) = false.
Proof.
  unfold run5. cbn [nth].
  destruct d, x, y, (nth 0 h false); reflexivity.
Qed.

Lemma stuff_after_stuff_3 d h x y z :
  run5 (z :: y :: x :: negb d :: d :: h) = false.
Proof.
  unfold run5. cbn [nth]. destruct d, x, y, z; reflexivity.
Qed.

Lemma stuff_skip_short d h l :
  (length l <= 3)%nat -> stuff (negb d :: d :: h) l = l.
Proof.
  destruct l as [|x [|y [|z [|u l]]]]; cbn [length stuff]; intros H;
    try lia;
    rewrite ?stuff_after_stuff_1, ?stuff_after_stuff_2, ?stuff_after_stuff_3;
    reflexivity.
Qed.

Lemma stuff_skip_3 d h x y z r :
  stuff (negb d :: d :: h) (x :: y :: z :: r)
  = x :: y :: z :: stuff (z :: y :: x :: negb d :: d :: h) r.
Proof.
  cbn [stuff].
  rewrite stuff_after_stuff_1, stuff_after_stuff_2, stuff_after_stuff_3.
  reflexivity.
Qed.

Lemma bitstuff_insert_range b i :
  0 <= b < 2 ^ 32 -> 0 <= i < 32 -> 0 <= bitstuff_insert b i < 2 ^ 32.
Proof.
  intros Hb Hi. unfold bitstuff_insert.
  assert (R : forall x y, 0 <= x < 2 ^ 32 -> 0 <= y < 2 ^ 32 ->
                          0 <= Z.lxor x y < 2 ^ 32).
  { intros x y Hx Hy. split; [apply Z.lxor_nonneg; lia|].
    destruct (Z.eq_dec (Z.lxor x y) 0) as [->|Hn]; [lia|].
    apply Z.log2_lt_pow2; [pose proof (Z.lxor_nonneg x y); lia|].
    eapply Z.le_lt_trans; [apply Z.log2_lxor; lia|].
    apply Z.max_lub_lt.
    - destruct (Z.eq_dec x 0) as [->|]; [simpl; lia|].
      apply Z.log2_lt_pow2; lia.
    - destruct (Z.eq_dec y 0) as [->|]; [simpl; lia|].
      apply Z.log2_lt_pow2; lia. }
  apply R; [apply R|]; try apply u32_range.
  rewrite lowmask_ones by lia.
  rewrite Z.land_ones by lia.
  pose proof (Z.mod_pos_bound b (2 ^ (i + 1))).
  assert (0 < 2 ^ (i + 1)) by (apply Z.pow_pos_nonneg; lia).
  assert (2 ^ (i + 1) <= 2 ^ 32) by (apply Z.pow_le_mono_r; lia).
  lia.
Qed.

(** ** [bitstuff] implements the stuffing rule *)

Lemma stuffed_as_nil b : 0 <= b < 2 ^ 32 -> stuffed_as b 0 b [].
Proof.
  intros Hb. split; [exact Hb|]. split; [reflexivity|].
  intros j Hj. cbn [length Z.of_nat]. rewrite !Z.add_0_l.
  destruct (Z.ltb_spec j 32); [reflexivity|].
  rewrite testbit_bound by lia. reflexivity.
Qed.

(** One data bit in front of a stuffed string. *)
Lemma stuffed_as_cons b n b' s :
  stuffed_as b n b' s -> (length s < 32)%nat ->
  stuffed_as b (S n) b' (Z.testbit b (Z.of_nat n) :: s).
Proof.
  intros (R & B & C) L. split; [exact R|]. split.
  - cbn [length bits_of]. rewrite B. f_equal.
    specialize (C 0). rewrite !Z.add_0_r in C. rewrite C by lia.
    destruct (Z.ltb_spec (Z.of_nat (length s)) 32); [reflexivity|lia].
  - intros j Hj. cbn [length]. rewrite !Nat2Z.inj_succ.
    replace (Z.succ (Z.of_nat (length s)) + j)
      with (Z.of_nat (length s) + (j + 1)) by lia.
    rewrite C by lia. f_equal. f_equal. lia.
Qed.

Lemma stuffed_as_rebase b b1 m n b' s :
  stuffed_as b1 m b' s -> (m <= length s)%nat ->
  (forall j, 0 <= j -> Z.of_nat m + j < 32 ->
     Z.testbit b1 (Z.of_nat m + j) = Z.testbit b (Z.of_nat n + j)) ->
  stuffed_as b n b' s.
Proof.
  intros (R & B & C) L H. split; [exact R|]. split; [exact B|].
  intros j Hj. rewrite C by lia.
  destruct (Z.ltb_spec (Z.of_nat (length s) + j) 32); [|reflexivity].
  cbn [andb]. apply H; lia.
Qed.

Lemma bits_of_S w n :
  bits_of w (S n) = Z.testbit w (Z.of_nat n) :: bits_of w n.
Proof. reflexivity. Qed.

Lemma length_stuff_ge data : forall h,
  (length data <= length (stuff h data))%nat.
Proof.
  induction data as [|d r IH]; intros h; cbn [stuff length]; [lia|].
  destruct (run5 (d :: h)); cbn [length].
  - specialize (IH (negb d :: d :: h)). lia.
  - specialize (IH (d :: h)). lia.
Qed.

Ltac norm_nat H :=
  change (Z.of_nat 0) with 0 in H; change (Z.of_nat 1) with 1 in H;
  change (Z.of_nat 2) with 2 in H; change (Z.of_nat 3) with 3 in H;
  change (Z.of_nat 4) with 4 in H.

Lemma bitstuff_loop_spec fuel : forall b count i,
  0 <= b < 2 ^ 32 -> i < 32 -> i + 1 <= Z.of_nat fuel ->
  let n := Z.to_nat (i + 1) in
  let s := stuff (hist b (i + 1) 4) (bits_of b n) in
  (length s <= 32)%nat ->
  let r := bitstuff_loop fuel b (Z.lxor b (shr b 1)) count i in
  stuffed_as b n (fst r) s /\
  snd r = count + Z.of_nat (length s) - Z.of_nat n.
Proof.
  induction fuel as [|fuel IH]; intros b count i Hb Hi Hf; cbv zeta.
  - assert (Z.to_nat (i + 1) = 0%nat) as -> by lia.
    cbn [bits_of stuff length bitstuff_loop].
    destruct (Z.ltb_spec i 0); [|lia]. cbn [fst snd]. intros _.
    split; [apply stuffed_as_nil, Hb | lia].
  - cbn [bitstuff_loop]. destruct (Z.ltb_spec i 0) as [Hneg|Hpos].
    { assert (Z.to_nat (i + 1) = 0%nat) as -> by lia.
      cbn [bits_of stuff length fst snd]. intros _.
      split; [apply stuffed_as_nil, Hb | lia]. }
    assert (En : Z.to_nat (i + 1) = S (Z.to_nat i)) by lia.
    rewrite En, bits_of_S, Z2Nat.id by lia.
    set (d := Z.testbit b i). set (h := hist b (i + 1) 4).
    rewrite edges4_eq5 by lia. rewrite <- run5_hist.
    rewrite (hist_S b i 4). fold d h.
    cbn [stuff].
    destruct (run5 (d :: h)) eqn:Erun.
    + (* five equal bits end at [i]: insert the stuff bit *)
      cbv zeta. set (b1 := bitstuff_insert b i).
      assert (Hb1 : 0 <= b1 < 2 ^ 32)
        by (apply bitstuff_insert_range; lia).
      assert (T : forall j, 0 <= j -> Z.testbit b1 j =
                  if j <? i then Z.testbit b j
                  else if j =? i then negb (Z.testbit b i)
                  else (j <? 32) && Z.testbit b (j - 1))
        by (intros; apply testbit_bitstuff_insert; lia).
      assert (Tlow : forall j, 0 <= j < i -> Z.testbit b1 j = Z.testbit b j).
      { intros j Hj. rewrite T by lia.
        destruct (Z.ltb_spec j i); [reflexivity|lia]. }
      assert (Ti : Z.testbit b1 i = negb d).
      { rewrite T by lia. destruct (Z.ltb_spec i i); [lia|].
        rewrite Z.eqb_refl. reflexivity. }
      assert (Thigh : forall j, i < j < 32 ->
                Z.testbit b1 j = Z.testbit b (j - 1)).
      { intros j Hj. rewrite T by lia.
        destruct (Z.ltb_spec j i); [lia|].
        destruct (Z.eqb_spec j i); [lia|].
        destruct (Z.ltb_spec j 32); [reflexivity|lia]. }
      specialize (IH b1 (count + 1) (i - 3 - 1) Hb1).
      cbv zeta in IH.
      set (r := bitstuff_loop fuel b1 (Z.lxor b1 (shr b1 1)) (count + 1)
                              (i - 3 - 1)) in *.
      replace (i - 3 - 1 + 1) with (i - 3) in IH by lia.
      replace (bits_of b (Z.to_nat i)) with (bits_of b1 (Z.to_nat i)).
      2:{ apply bits_of_ext. intros j Hj. apply Tlow. lia. }
      assert (Rb : forall j, 0 <= j -> Z.of_nat (Z.to_nat i + 2) + j < 32 ->
                Z.testbit b1 (Z.of_nat (Z.to_nat i + 2) + j)
                = Z.testbit b (Z.of_nat (S (Z.to_nat i)) + j)).
      { intros j Hj Hlt. rewrite Thigh by lia. f_equal. lia. }
      destruct (Z.ltb_spec i 3) as [Hsmall|Hbig].
      * (* fewer than three bits left: the loop ends *)
        assert (Z.to_nat (i - 3) = 0%nat) as E0 by lia.
        rewrite E0 in IH. cbn [bits_of stuff length] in IH.
        rewrite stuff_skip_short by (rewrite length_bits_of; lia).
        intros _.
        destruct IH as (S0 & C0); [lia|lia|lia|].
        split.
        -- eapply stuffed_as_rebase with (m := (Z.to_nat i + 2)%nat);
             [| cbn [length]; rewrite length_bits_of; lia | exact Rb].
           assert (i = 0 \/ i = 1 \/ i = 2) as [ -> | [ -> | -> ] ] by lia.
           ++ change (Z.to_nat 0) with 0%nat. cbn [bits_of Nat.add].
              apply (stuffed_as_cons b1 0) in S0; [|cbn [length]; lia].
              apply (stuffed_as_cons b1 1) in S0; [|cbn [length]; lia].
              norm_nat S0.
              rewrite Ti in S0. rewrite (Thigh 1) in S0 by lia.
              exact S0.
           ++ change (Z.to_nat 1) with 1%nat. cbn [bits_of Nat.add Z.of_nat].
              apply (stuffed_as_cons b1 0) in S0; [|cbn [length]; lia].
              apply (stuffed_as_cons b1 1) in S0; [|cbn [length]; lia].
              apply (stuffed_as_cons b1 2) in S0; [|cbn [length]; lia].
              norm_nat S0.
              rewrite Ti in S0. rewrite (Thigh 2) in S0 by lia.
              exact S0.
           ++ change (Z.to_nat 2) with 2%nat. cbn [bits_of Nat.add Z.of_nat
                Pos.of_succ_nat Pos.succ].
              apply (stuffed_as_cons b1 0) in S0; [|cbn [length]; lia].
              apply (stuffed_as_cons b1 1) in S0; [|cbn [length]; lia].
              apply (stuffed_as_cons b1 2) in S0; [|cbn [length]; lia].
              apply (stuffed_as_cons b1 3) in S0; [|cbn [length]; lia].
              norm_nat S0.
              rewrite Ti in S0. rewrite (Thigh 3) in S0 by lia.
              exact S0.
        -- rewrite C0. cbn [length]. rewrite length_bits_of. lia.
      * (* three bits are skipped, the loop goes on at [i - 4] *)
        assert (E3 : Z.to_nat i = S (S (S (Z.to_nat (i - 3))))) by lia.
        rewrite E3, !bits_of_S, stuff_skip_3.
        set (n' := Z.to_nat (i - 3)) in *.
        assert (En' : Z.of_nat n' = i - 3) by lia.
        assert (Es : stuff (Z.testbit b1 (Z.of_nat n')
                            :: Z.testbit b1 (Z.of_nat (S n'))
                            :: Z.testbit b1 (Z.of_nat (S (S n')))
                            :: negb d :: d :: h) (bits_of b1 n')
                     = stuff (hist b1 (i - 3) 4) (bits_of b1 n')).
        { apply stuff_ext. intros j Hj.
          rewrite nth_hist by lia.
          destruct j as [|[|[|[|j]]]]; cbn [nth]; try lia.
          - f_equal. lia.
          - f_equal. lia.
          - f_equal. lia.
          - rewrite <- Ti. f_equal. lia. }
        rewrite Es. set (s' := stuff (hist b1 (i - 3) 4) (bits_of b1 n')) in *.
        intros L. cbn [length] in L.
        destruct IH as (S0 & C0); [lia|lia|lia|].
        split.
        -- pose proof (length_stuff_ge (bits_of b1 n') (hist b1 (i - 3) 4))
             as Lge.
           rewrite length_bits_of in Lge. fold s' in Lge.
           eapply stuffed_as_rebase with (m := (n' + 5)%nat);
             [| cbn [length]; lia |].
           ++ apply stuffed_as_cons in S0; [|lia].
              apply stuffed_as_cons in S0; [|cbn [length]; lia].
              apply stuffed_as_cons in S0; [|cbn [length]; lia].
              apply stuffed_as_cons in S0; [|cbn [length]; lia].
              apply stuffed_as_cons in S0; [|cbn [length]; lia].
              replace (n' + 5)%nat with (S (S (S (S (S n'))))) by lia.
              replace (Z.testbit b1 (Z.of_nat (S (S (S n'))))) with (negb d)
                in S0 by (rewrite <- Ti; f_equal; lia).
              replace (Z.testbit b1 (Z.of_nat (S (S (S (S n')))))) with d
                in S0.
              2:{ rewrite Thigh by lia. unfold d. f_equal. lia. }
              exact S0.
           ++ intros j Hj Hlt. rewrite Thigh by lia. f_equal. lia.
        -- rewrite C0. cbn [length]. lia.
    + (* an ordinary bit *)
      specialize (IH b count (i - 1) Hb). cbv zeta in IH.
      replace (i - 1 + 1) with i in IH by lia.
      assert (Es : stuff (d :: h) (bits_of b (Z.to_nat i))
                   = stuff (hist b i 4) (bits_of b (Z.to_nat i))).
      { apply stuff_ext. intros j Hj. rewrite nth_hist by lia.
        destruct j as [|j]; cbn [nth].
        - unfold d. f_equal. lia.
        - unfold h. rewrite nth_hist by lia. f_equal. lia. }
      rewrite Es. intros L. cbn [length] in L.
      destruct IH as (S0 & C0); [lia|lia|lia|].
      split.
      * apply stuffed_as_cons in S0; [|lia].
        rewrite Z2Nat.id in S0 by lia. exact S0.
      * rewrite C0. cbn [length]. lia.
Qed.

Lemma length_stuff_le n : forall l h,
  (length l <= n)%nat ->
  (4 * length (stuff h l) <= 5 * length l + 3)%nat.
Proof.
  induction n as [n IH] using lt_wf_ind. intros l h Hn.
  destruct l as [|d r]; cbn [stuff length]; [lia|].
  cbn [length] in Hn.
  destruct (run5 (d :: h)).
  - destruct r as [|x [|y [|z r]]].
    + cbn [stuff length]. lia.
    + rewrite stuff_skip_short by (cbn [length]; lia). cbn [length]. lia.
    + rewrite stuff_skip_short by (cbn [length]; lia). cbn [length]. lia.
    + rewrite stuff_skip_3. cbn [length] in *.
      specialize (IH (length r) ltac:(lia) r
                     (z :: y :: x :: negb d :: d :: h) (le_n _)).
      lia.
  - cbn [length].
    specialize (IH (length r) ltac:(lia) r (d :: h) (le_n _)). lia.
Qed.

(** [bitstuff] on a word whose [n] low bits are the data and whose next
    four bits are the history, when the result fits in 32 bits. *)
Lemma bitstuff_spec b n :
  0 <= b < 2 ^ 32 -> 0 <= n <= 32 ->
  let s := stuff (hist b n 4) (bits_of b (Z.to_nat n)) in
  (length s <= 32)%nat ->
  stuffed_as b (Z.to_nat n) (fst (bitstuff b n)) s /\
  snd (bitstuff b n) = Z.of_nat (length s).
Proof.
  intros Hb Hn s L. unfold bitstuff.
  pose proof (bitstuff_loop_spec (Z.to_nat n) b n (n - 1) Hb) as H.
  cbv zeta in H. replace (n - 1 + 1) with n in H by lia.
  destruct H as (H1 & H2); [lia|lia|exact L|].
  split; [exact H1|]. rewrite H2. fold s. lia.
Qed.

(** ** [unstuf_pull_bits] implements the unstuffing rule *)

Lemma land_shr_1 w c : 0 <= c -> Z.land (shr w c) 1 = Z.b2z (Z.testbit w c).
Proof.
  intros Hc. unfold shr. change 1 with (Z.ones 1).
  rewrite Z.land_ones, Z.shiftr_div_pow2, Z.testbit_spec' by lia.
  reflexivity.
Qed.

Lemma run5_ext5 h h' :
  (forall j, (j < 5)%nat -> nth j h false = nth j h' false) ->
  run5 h = run5 h'.
Proof.
  intros H. unfold run5.
  rewrite (H 0%nat), (H 1%nat), (H 2%nat), (H 3%nat), (H 4%nat) by lia.
  reflexivity.
Qed.

Lemma unstuff_ext p : forall n h h',
  (forall j, (j < 5)%nat -> nth j h false = nth j h' false) ->
  unstuff h p n = unstuff h' p n.
Proof.
  induction p as [|b p IH]; intros n h h' H; destruct n as [|n];
    try reflexivity.
  cbn [unstuff]. rewrite (run5_ext5 h h' H), (H 0%nat) by lia.
  assert (H' : forall j, (j < 5)%nat ->
            nth j (b :: h) false = nth j (b :: h') false).
  { intros [|j] Hj; cbn [nth]; [reflexivity | apply H; lia]. }
  rewrite (IH (S n) _ _ H'), (IH n _ _ H'). reflexivity.
Qed.

Lemma unstuff_0 h p : unstuff h p 0 = (PullDone, [], p).
Proof. destruct p; reflexivity. Qed.

Lemma unstuf_pull_loop_spec fuel : forall sb ub cs cu,
  0 <= cs <= Z.of_nat fuel -> 0 <= cu ->
  unstuf_pull_loop fuel sb (Z.lxor sb (shr sb 1)) ub cs cu
  = let '(r, f, q) :=
      unstuff (hist sb cs 5) (bits_of sb (Z.to_nat cs)) (Z.to_nat cu) in
    (pull_code r,
     (or_bits ub f cu, Z.of_nat (length q), cu - Z.of_nat (length f))).
Proof.
  induction fuel as [|fuel IH]; intros sb ub cs cu Hcs Hcu.
  - assert (cs = 0) by lia. subst cs. cbn [unstuf_pull_loop Z.to_nat bits_of].
    destruct (Z.eqb_spec cu 0) as [->|Hne].
    + reflexivity.
    + destruct (Z.to_nat cu) eqn:E; [lia|]. cbn [unstuff].
      simpl. f_equal. f_equal. lia.
  - cbn [unstuf_pull_loop].
    destruct (Z.eqb_spec cu 0) as [->|Hne].
    { cbn [Z.to_nat]. rewrite unstuff_0. cbn [pull_code or_bits length].
      rewrite length_bits_of. rewrite Z2Nat.id, Z.sub_0_r by lia.
      reflexivity. }
    destruct (Z.eqb_spec cs 0) as [->|Hcs0].
    { cbn [Z.to_nat bits_of]. destruct (Z.to_nat cu) eqn:E; [lia|].
      cbn [unstuff]. simpl. f_equal. f_equal. lia. }
    cbv zeta.
    assert (Ecs : Z.to_nat cs = S (Z.to_nat (cs - 1))) by lia.
    assert (Ecu : Z.to_nat cu = S (Z.to_nat (cu - 1))) by lia.
    rewrite Ecs, Ecu, bits_of_S. rewrite Z2Nat.id by lia.
    set (b := Z.testbit sb (cs - 1)). set (h := hist sb cs 5).
    cbn [unstuff].
    replace (cs - 1 + 1) with cs by lia.
    rewrite edges4_eq5 by lia. rewrite <- run5_hist. fold h.
    assert (Hext : forall j, (j < 5)%nat ->
              nth j (b :: h) false = nth j (hist sb (cs - 1) 5) false).
    { intros j Hj. rewrite nth_hist by lia.
      destruct j as [|j]; cbn [nth].
      - unfold b. f_equal. lia.
      - unfold h. rewrite nth_hist by lia. f_equal. lia. }
    destruct (run5 h) eqn:Erun; cbn [negb].
    + rewrite edges5_eq6 by lia.
      replace (cs - 1 + 1) with cs by lia.
      rewrite <- run5_hist. fold h b. rewrite Erun, andb_true_r.
      assert (E0 : nth 0 h false = Z.testbit sb cs).
      { unfold h. rewrite nth_hist by lia. f_equal. lia. }
      rewrite E0.
      destruct (eqb b (Z.testbit sb cs)).
      * rewrite land_shr_1 by lia. fold b.
        rewrite length_bits_of.
        destruct b; cbn [Z.b2z Z.eqb negb pull_code or_bits length];
          f_equal; f_equal; [f_equal| |f_equal|]; lia.
      * rewrite IH by lia.
        rewrite (unstuff_ext _ _ _ _ Hext).
        rewrite <- Ecu. reflexivity.
    + rewrite IH by lia.
      rewrite (unstuff_ext _ _ _ _ Hext).
      rewrite land_shr_1 by lia. fold b.
      destruct (unstuff _ _ _) as [[r f] q].
      cbn [or_bits length].
      replace (cu - Z.of_nat (S (length f)))
        with (cu - 1 - Z.of_nat (length f)) by lia.
      reflexivity.
Qed.

Lemma testbit_b2z b k : Z.testbit (Z.b2z b) k = b && (k =? 0).
Proof.
  destruct b; cbn [Z.b2z andb].
  - destruct (Z.eqb_spec k 0) as [->|H]; [reflexivity|].
    destruct k; try congruence; reflexivity.
  - apply Z.testbit_0_l.
Qed.

Ltac zbool :=
  repeat match goal with
  | |- context [?a <? ?b] => destruct (Z.ltb_spec a b); try lia
  | |- context [?a <=? ?b] => destruct (Z.leb_spec a b); try lia
  | |- context [?a =? ?b] => destruct (Z.eqb_spec a b); try lia
  end.

Lemma testbit_or_bits f : forall ub cu j,
  0 <= j -> Z.of_nat (length f) <= cu <= 32 ->
  Z.testbit (or_bits ub f cu) j
  = Z.testbit ub j
    || ((cu - Z.of_nat (length f) <=? j) && (j <? cu)
        && nth (Z.to_nat (cu - 1 - j)) f false).
Proof.
  induction f as [|b r IH]; intros ub cu j Hj Hcu.
  - cbn [or_bits length nth]. destruct (Z.to_nat (cu - 1 - j));
      rewrite andb_false_r, orb_false_r; reflexivity.
  - cbn [or_bits]. cbn [length] in Hcu |- *.
    rewrite IH by lia.
    rewrite Z.lor_spec, testbit_shl, testbit_b2z.
    rewrite Nat2Z.inj_succ.
    destruct (Z.lt_total j (cu - 1)) as [C|[C|C]].
    + replace (Z.to_nat (cu - 1 - j))
        with (S (Z.to_nat (cu - 1 - 1 - j))) by lia.
      cbn [nth]. zbool; cbn [andb orb negb];
        rewrite ?andb_false_r, ?orb_false_r; reflexivity.
    + subst j. replace (cu - 1 - (cu - 1)) with 0 by lia.
      cbn [Z.to_nat nth]. zbool; cbn [andb orb negb];
        rewrite ?andb_false_r, ?orb_false_r, ?andb_true_r; reflexivity.
    + zbool; cbn [andb orb negb];
        rewrite ?andb_false_r, ?orb_false_r, ?andb_true_r; reflexivity.
Qed.

Lemma nth_bits_of w n k :
  (k < n)%nat -> nth k (bits_of w n) false = Z.testbit w (Z.of_nat (n - 1 - k)).
Proof.
  revert k. induction n as [|n IH]; intros k H; [lia|].
  cbn [bits_of]. destruct k as [|k]; cbn [nth].
  - f_equal. lia.
  - rewrite IH by lia. f_equal. lia.
Qed.

(** Collecting the bits of a whole field into a zeroed accumulator gives
    the value whose bits, most significant first, are the field. *)
Lemma or_bits_field f :
  (length f <= 32)%nat ->
  let v := or_bits 0 f (Z.of_nat (length f)) in
  0 <= v < 2 ^ Z.of_nat (length f) /\ bits_of v (length f) = f.
Proof.
  intros L v.
  assert (T : forall j, 0 <= j ->
            Z.testbit v j = (j <? Z.of_nat (length f))
                            && nth (Z.to_nat (Z.of_nat (length f) - 1 - j)) f false).
  { intros j Hj. unfold v. rewrite testbit_or_bits by lia.
    rewrite Z.testbit_0_l, Z.sub_diag. cbn [orb].
    destruct (Z.leb_spec 0 j); [|lia]. reflexivity. }
  assert (Hv : 0 <= v).
  { apply Z.bits_iff_nonneg_ex. exists 32. intros m Hm.
    rewrite T by lia. destruct (Z.ltb_spec m (Z.of_nat (length f))); [lia|].
    reflexivity. }
  split.
  - split; [exact Hv|].
    destruct (Z.eq_dec v 0) as [->|Hnz];
      [apply Z.pow_pos_nonneg; lia|].
    apply Z.log2_lt_pow2; [lia|].
    destruct (Z.lt_ge_cases (Z.log2 v) (Z.of_nat (length f))) as [|Hge];
      [assumption|].
    pose proof (Z.bit_log2 v ltac:(lia)) as B.
    rewrite T in B by (apply Z.log2_nonneg).
    destruct (Z.ltb_spec (Z.log2 v) (Z.of_nat (length f))); [lia|].
    discriminate.
  - apply nth_ext with (d := false) (d' := false);
      [apply length_bits_of|].
    intros k Hk. rewrite length_bits_of in Hk.
    rewrite nth_bits_of by lia. rewrite T by lia.
    destruct (Z.ltb_spec (Z.of_nat (length f - 1 - k)) (Z.of_nat (length f)));
      [|lia].
    cbn [andb]. f_equal. lia.
Qed.

Lemma eq5_all w c :
  eq5 w c = true ->
  forall j, 0 <= j <= 4 -> Z.testbit w (c + j) = Z.testbit w c.
Proof.
  unfold eq5. rewrite !andb_true_iff. intros (((E0 & E1) & E2) & E3) j Hj.
  apply eqb_prop in E0, E1, E2, E3.
  assert (j = 0 \/ j = 1 \/ j = 2 \/ j = 3 \/ j = 4)
    as [ -> | [ -> | [ -> | [ -> | -> ] ] ] ] by lia;
    rewrite ?Z.add_0_r; congruence.
Qed.

Lemma unstuf_pull_loop_six fuel : forall sb ub cs cu,
  0 <= cs <= Z.of_nat fuel ->
  let r := unstuf_pull_loop fuel sb (Z.lxor sb (shr sb 1)) ub cs cu in
  let ret := fst r in
  let cs' := snd (fst (snd r)) in
  ret = -1 \/ ret = -2 ->
  forall j, 0 <= j <= 5 -> Z.testbit sb (cs' + j) = (ret =? -1).
Proof.
  induction fuel as [|fuel IH]; intros sb ub cs cu Hcs; cbv zeta.
  - cbn [unstuf_pull_loop].
    destruct (cu =? 0); [cbn; lia|]. destruct (cs =? 0); cbn; lia.
  - cbn [unstuf_pull_loop].
    destruct (cu =? 0); [cbn; lia|].
    destruct (Z.eqb_spec cs 0); [cbn; lia|]. cbv zeta.
    replace (cs - 1 + 1) with cs by lia.
    rewrite edges4_eq5 by lia.
    destruct (eq5 sb cs) eqn:E5; cbn [negb].
    + rewrite edges5_eq6 by lia. replace (cs - 1 + 1) with cs by lia.
      rewrite E5, andb_true_r.
      destruct (eqb (Z.testbit sb (cs - 1)) (Z.testbit sb cs)) eqn:E6.
      * apply eqb_prop in E6. rewrite land_shr_1 by lia.
        cbn [fst snd]. intros _ j Hj.
        assert (Hb : Z.testbit sb (cs - 1 + j) = Z.testbit sb (cs - 1)).
        { destruct (Z.eq_dec j 0) as [->|Hn];
            [rewrite Z.add_0_r; reflexivity|].
          replace (cs - 1 + j) with (cs + (j - 1)) by lia.
          rewrite (eq5_all _ _ E5) by lia. congruence. }
        rewrite Hb. destruct (Z.testbit sb (cs - 1)); reflexivity.
      * apply IH. lia.
    + apply IH. lia.
Qed.

(** C8.  [unstuf_pull_bits] computes the unstuffing rule [unstuff] on the
    raw bits of its window: the history is the bits from the cursor upwards
    (a window bit above bit 31 reads 0, as [edges >> n] does), the pending
    bits are the [count_stuff] low bits.  It returns 0 exactly when
    [count_unstuff] has reached 0, and a field pulled at one go into a zeroed
    accumulator has its bits most significant first in [unstuffed_bits]; it
    returns 1 only with [count_stuff] at 0 and the field incomplete, and an
    exhausted window with an incomplete field gives 1 unless the last raw
    bit was the sixth equal one; on -1 the six bits at the cursor are all
    high and on -2 all low; a raw bit that follows five equal bits and
    differs from them is consumed and not appended. *)
Theorem unstuf_pull_bits_spec (bu : can2040_bitunstuffer) :
  0 <= count_stuff bu -> 0 <= count_unstuff bu ->
  let sb := stuffed_bits bu in
  let res := unstuff (hist sb (count_stuff bu) 5)
                     (bits_of sb (Z.to_nat (count_stuff bu)))
                     (Z.to_nat (count_unstuff bu)) in
  let r := fst (fst res) in
  let f := snd (fst res) in
  let q := snd res in
  let ret := fst (unstuf_pull_bits bu) in
  let bu' := snd (unstuf_pull_bits bu) in
  (ret = pull_code r /\ stuffed_bits bu' = sb /\
   count_stuff bu' = Z.of_nat (length q) /\
   count_unstuff bu' = count_unstuff bu - Z.of_nat (length f) /\
   unstuffed_bits bu' = or_bits (unstuffed_bits bu) f (count_unstuff bu)) /\
  (ret = 0 <-> count_unstuff bu' = 0) /\
  (ret = 1 -> count_stuff bu' = 0 /\ count_unstuff bu' <> 0) /\
  (count_stuff bu' = 0 -> count_unstuff bu' <> 0 ->
   ret = 1 \/ ret = -1 \/ ret = -2) /\
  (ret = -1 \/ ret = -2 ->
   forall j, 0 <= j <= 5 ->
     Z.testbit sb (count_stuff bu' + j) = (ret =? -1)) /\
  (unstuffed_bits bu = 0 -> count_unstuff bu <= 32 -> ret = 0 ->
   length f = Z.to_nat (count_unstuff bu) /\
   bits_of (unstuffed_bits bu') (length f) = f /\
   0 <= unstuffed_bits bu' < 2 ^ count_unstuff bu) /\
  (forall h b p n,
     run5 h = true -> eqb b (nth 0 h false) = false ->
     unstuff h (b :: p) (S n) = unstuff (b :: h) p (S n)).
Proof.
  intros Hcs Hcu. cbv zeta.
  pose proof (unstuf_pull_bits_counts bu Hcs) as C. cbv zeta in C.
  destruct C as (C0 & C1 & C2 & C3 & C4 & C5).
  assert (A : fst (unstuf_pull_bits bu) =
              pull_code (fst (fst (unstuff (hist (stuffed_bits bu)
                (count_stuff bu) 5) (bits_of (stuffed_bits bu)
                (Z.to_nat (count_stuff bu))) (Z.to_nat (count_unstuff bu)))))
            /\ stuffed_bits (snd (unstuf_pull_bits bu)) = stuffed_bits bu
            /\ count_stuff (snd (unstuf_pull_bits bu)) =
               Z.of_nat (length (snd (unstuff (hist (stuffed_bits bu)
                (count_stuff bu) 5) (bits_of (stuffed_bits bu)
                (Z.to_nat (count_stuff bu))) (Z.to_nat (count_unstuff bu)))))
            /\ count_unstuff (snd (unstuf_pull_bits bu)) =
               count_unstuff bu - Z.of_nat (length (snd (fst
                (unstuff (hist (stuffed_bits bu)
                (count_stuff bu) 5) (bits_of (stuffed_bits bu)
                (Z.to_nat (count_stuff bu))) (Z.to_nat (count_unstuff bu))))))
            /\ unstuffed_bits (snd (unstuf_pull_bits bu)) =
               or_bits (unstuffed_bits bu) (snd (fst
                (unstuff (hist (stuffed_bits bu)
                (count_stuff bu) 5) (bits_of (stuffed_bits bu)
                (Z.to_nat (count_stuff bu))) (Z.to_nat (count_unstuff bu)))))
                (count_unstuff bu)).
  { unfold unstuf_pull_bits.
    rewrite unstuf_pull_loop_spec by lia.
    destruct (unstuff _ _ _) as [[r f] q].
    cbn [fst snd stuffed_bits count_stuff count_unstuff unstuffed_bits].
    repeat split; reflexivity. }
  split; [exact A|]. destruct A as (A1 & A2 & A3 & A4 & A5).
  split; [exact C3|].
  split; [intros E; split; [apply C4, E | intros E0; apply C3 in E0; lia]|].
  split.
  { intros E1 E2. destruct C2 as [E|E]; [|tauto].
    apply C3 in E. contradiction. }
  split.
  { intros E j Hj. unfold unstuf_pull_bits in *.
    pose proof (unstuf_pull_loop_six (Z.to_nat (count_stuff bu))
      (stuffed_bits bu) (unstuffed_bits bu) (count_stuff bu)
      (count_unstuff bu)) as S6. cbv zeta in S6.
    destruct (unstuf_pull_loop _ _ _ _ _ _) as [ret [[ub cs] cu]].
    cbn [fst snd count_stuff] in *. apply S6; [lia | exact E | exact Hj]. }
  split.
  { intros U0 U32 E0. apply C3 in E0. rewrite A4 in E0.
    assert (L : length (snd (fst (unstuff (hist (stuffed_bits bu)
                (count_stuff bu) 5) (bits_of (stuffed_bits bu)
                (Z.to_nat (count_stuff bu))) (Z.to_nat (count_unstuff bu)))))
                = Z.to_nat (count_unstuff bu)) by lia.
    split; [exact L|].
    rewrite A5, U0.
    set (f := snd (fst (unstuff _ _ _))) in *.
    replace (count_unstuff bu) with (Z.of_nat (length f)) by lia.
    pose proof (or_bits_field f ltac:(lia)) as F. cbv zeta in F.
    destruct F as (F1 & F2). split; [exact F2 | exact F1]. }
  intros h b p n R E. cbn [unstuff]. rewrite R, E. reflexivity.
Qed.

Lemma unstuf_pull_bits_spec_witness :
  0 <= count_stuff (mk_unstuf 0x7c1 8 0 4) /\
  0 <= count_unstuff (mk_unstuf 0x7c1 8 0 4) /\
  let sb := stuffed_bits (mk_unstuf 0x7c1 8 0 4) in
  let res := unstuff (hist sb (count_stuff (mk_unstuf 0x7c1 8 0 4)) 5)
                     (bits_of sb (Z.to_nat (count_stuff (mk_unstuf 0x7c1 8 0 4))))
                     (Z.to_nat (count_unstuff (mk_unstuf 0x7c1 8 0 4))) in
  let r := fst (fst res) in
  let f := snd (fst res) in
  let q := snd res in
  let ret := fst (unstuf_pull_bits (mk_unstuf 0x7c1 8 0 4)) in
  let bu' := snd (unstuf_pull_bits (mk_unstuf 0x7c1 8 0 4)) in
  (ret = pull_code r /\ stuffed_bits bu' = sb /\
   count_stuff bu' = Z.of_nat (length q) /\
   count_unstuff bu' = count_unstuff (mk_unstuf 0x7c1 8 0 4) - Z.of_nat (length f) /\
   unstuffed_bits bu' = or_bits (unstuffed_bits (mk_unstuf 0x7c1 8 0 4)) f (count_unstuff (mk_unstuf 0x7c1 8 0 4))) /\
  (ret = 0 <-> count_unstuff bu' = 0) /\
  (ret = 1 -> count_stuff bu' = 0 /\ count_unstuff bu' <> 0) /\
  (count_stuff bu' = 0 -> count_unstuff bu' <> 0 ->
   ret = 1 \/ ret = -1 \/ ret = -2) /\
  (ret = -1 \/ ret = -2 ->
   forall j, 0 <= j <= 5 ->
     Z.testbit sb (count_stuff bu' + j) = (ret =? -1)) /\
  (unstuffed_bits (mk_unstuf 0x7c1 8 0 4) = 0 -> count_unstuff (mk_unstuf 0x7c1 8 0 4) <= 32 -> ret = 0 ->
   length f = Z.to_nat (count_unstuff (mk_unstuf 0x7c1 8 0 4)) /\
   bits_of (unstuffed_bits bu') (length f) = f /\
   0 <= unstuffed_bits bu' < 2 ^ count_unstuff (mk_unstuf 0x7c1 8 0 4)) /\
  (forall h b p n,
     run5 h = true -> eqb b (nth 0 h false) = false ->
     unstuff h (b :: p) (S n) = unstuff (b :: h) p (S n)).
Proof.
  split; [cbn; lia|]. split; [cbn; lia|].
  apply (unstuf_pull_bits_spec (mk_unstuf 0x7c1 8 0 4)); cbn; lia.
Defined.

(** C8 as stated fails in its second clause.  With six high bits in the
    window, one raw bit left to consume and three field bits wanted, the
    last raw bit is the sixth equal bit in a row: the window is exhausted
    and the field incomplete, yet the return value is -1 and not 1. *)
Lemma unstuf_pull_bits_exhausted_counterexample :
  let bu := mk_unstuf 0x3f 1 0 3 in
  let ret := fst (unstuf_pull_bits bu) in
  let bu' := snd (unstuf_pull_bits bu) in
  count_stuff bu' = 0 /\ count_unstuff bu' = 3 /\ ret = -1 /\
  ~ (ret = 1 <-> count_stuff bu' = 0 /\ count_unstuff bu' <> 0).
Proof.
  vm_compute. split; [reflexivity|]. split; [reflexivity|].
  split; [reflexivity|]. intros [_ H].
  assert (E : (-1 ?= 1) = Eq -> False) by discriminate.
  discriminate H. split; [reflexivity | discriminate].
Qed.

(** ** Stuffing and unstuffing are inverse *)

Lemma run5_after_stuff d h : run5 (negb d :: d :: h) = false.
Proof.
  unfold run5. cbn [nth].
  destruct d, (nth 0 h false), (nth 1 h false), (nth 2 h false); reflexivity.
Qed.

Lemma unstuff_stuff data : forall h,
  run5 h = false ->
  fst (unstuff h (stuff h data) (length data)) = (PullDone, data).
Proof.
  induction data as [|d r IH]; intros h Hh.
  - cbn [stuff length]. reflexivity.
  - cbn [stuff length].
    destruct (run5 (d :: h)) eqn:E.
    + cbn [unstuff]. rewrite Hh.
      destruct r as [|d' r'].
      * cbn [stuff length unstuff]. reflexivity.
      * change (length (d' :: r')) with (S (length r')) in *.
        cbn [unstuff]. rewrite E. cbn [nth].
        replace (eqb (negb d) d) with false by (destruct d; reflexivity).
        specialize (IH (negb d :: d :: h) (run5_after_stuff d h)).
        cbn [length] in IH.
        destruct (unstuff (negb d :: d :: h) _ _) as [[r0 f0] q0].
        cbn [fst] in IH |- *. inversion IH; subst. reflexivity.
    + cbn [unstuff]. rewrite Hh.
      specialize (IH (d :: h) E).
      destruct (unstuff (d :: h) _ _) as [[r0 f0] q0].
      cbn [fst] in IH |- *. inversion IH; subst. reflexivity.
Qed.

Lemma bits_of_inj n : forall v w,
  0 <= v < 2 ^ Z.of_nat n -> 0 <= w < 2 ^ Z.of_nat n ->
  bits_of v n = bits_of w n -> v = w.
Proof.
  intros v w Hv Hw E. apply Z.bits_inj'. intros j Hj.
  destruct (Z.lt_ge_cases j (Z.of_nat n)) as [Hlt|Hge].
  - apply (f_equal (fun l => nth (n - 1 - Z.to_nat j) l false)) in E.
    rewrite !nth_bits_of in E by lia.
    replace (Z.of_nat (n - 1 - (n - 1 - Z.to_nat j))) with j in E by lia.
    exact E.
  - rewrite <- (Z.mod_small v (2 ^ Z.of_nat n)) by lia.
    rewrite <- (Z.mod_small w (2 ^ Z.of_nat n)) by lia.
    rewrite !Z.mod_pow2_bits_high by lia. reflexivity.
Qed.

(** The window after [unstuf_add_bits]: the new bits below, the old window
    above. *)
Lemma testbit_add_bits sb data count j :
  0 <= count <= 32 -> 0 <= j ->
  Z.testbit (Z.lor (shl sb count) (Z.land data (lowmask count))) j
  = if j <? count then Z.testbit data j
    else (j <? 32) && Z.testbit sb (j - count).
Proof.
  intros Hc Hj. rewrite lowmask_ones by lia.
  rewrite Z.lor_spec, testbit_shl, Z.land_spec, Z.testbit_ones_nonneg' by lia.
  zbool; cbn [negb andb orb]; rewrite ?andb_false_r, ?andb_true_r,
    ?orb_false_r; try reflexivity;
    rewrite (Z.testbit_neg_r sb) by lia; reflexivity.
Qed.

Lemma lor_range32 x y :
  0 <= x < 2 ^ 32 -> 0 <= y < 2 ^ 32 -> 0 <= Z.lor x y < 2 ^ 32.
Proof.
  intros Hx Hy. split; [apply Z.lor_nonneg; lia|].
  destruct (Z.eq_dec (Z.lor x y) 0) as [->|Hn]; [lia|].
  apply Z.log2_lt_pow2; [pose proof (Z.lor_nonneg x y); lia|].
  rewrite Z.log2_lor by lia.
  apply Z.max_lub_lt.
  - destruct (Z.eq_dec x 0) as [->|]; [simpl; lia|].
    apply Z.log2_lt_pow2; lia.
  - destruct (Z.eq_dec y 0) as [->|]; [simpl; lia|].
    apply Z.log2_lt_pow2; lia.
Qed.

Lemma land_lowmask_small x n :
  0 <= n <= 32 -> 0 <= x < 2 ^ n -> Z.land x (lowmask n) = x.
Proof.
  intros Hn Hx. rewrite lowmask_ones, Z.land_ones by lia.
  apply Z.mod_small. lia.
Qed.

Lemma land_lowmask_range x n :
  0 <= n <= 32 -> 0 <= Z.land x (lowmask n) < 2 ^ 32.
Proof.
  intros Hn. rewrite lowmask_ones, Z.land_ones by lia.
  pose proof (Z.mod_pos_bound x (2 ^ n) ltac:(apply Z.pow_pos_nonneg; lia)).
  assert (2 ^ n <= 2 ^ 32) by (apply Z.pow_le_mono_r; lia). lia.
Qed.

(** C3 with what the counterexample forces: the stuffer's word carries,
    above the [n] data bits, the bits that the unstuffer has in its window,
    the five most recent of them are not all equal, and [n] is at most 21,
    so that the stuffed string and five bits of history fit in 32 bits.
    Then pulling [n] bits out of the stuffed string returns 0 and the field
    is the data. *)
Theorem bitstuff_unstuff_roundtrip
  (bu : can2040_bitunstuffer) (c bits n : Z) :
  0 <= n <= 21 -> 0 <= bits < 2 ^ n -> 0 <= c < 2 ^ 32 ->
  (forall j, 0 <= j < 5 ->
     Z.testbit (stuffed_bits bu) j = Z.testbit c j) ->
  eq5 c 0 = false ->
  let sk := bitstuff (Z.lor (shl c n) bits) n in
  let bu1 := unstuf_set_count (unstuf_add_bits bu (fst sk) (snd sk)) n in
  fst (unstuf_pull_bits bu1) = 0 /\
  unstuffed_bits (snd (unstuf_pull_bits bu1)) = bits.
Proof.
  intros Hn Hbits Hc Hctx Hrun. cbv zeta.
  set (w := Z.lor (shl c n) bits).
  assert (Ew : w = Z.lor (shl c n) (Z.land bits (lowmask n)))
    by (rewrite land_lowmask_small by lia; reflexivity).
  assert (Hw : 0 <= w < 2 ^ 32).
  { rewrite Ew. apply lor_range32;
      [apply u32_range | apply land_lowmask_range; lia]. }
  assert (Tw : forall j, 0 <= j ->
            Z.testbit w j = if j <? n then Z.testbit bits j
                            else (j <? 32) && Z.testbit c (j - n)).
  { intros j Hj. rewrite Ew. apply testbit_add_bits; lia. }
  set (data := bits_of w (Z.to_nat n)).
  assert (Ld : length data = Z.to_nat n) by apply length_bits_of.
  set (H := hist c 0 5).
  assert (ES : stuff (hist w n 4) data = stuff H data).
  { apply stuff_ext. intros j Hj. unfold H.
    rewrite !nth_hist by lia. rewrite Tw by lia. zbool.
    cbn [andb]. f_equal. lia. }
  pose proof (bitstuff_spec w n Hw ltac:(lia)) as BS. cbv zeta in BS.
  fold data in BS. rewrite ES in BS.
  pose proof (length_stuff_le (length data) data H (le_n _)) as LS.
  set (S := stuff H data) in *.
  destruct BS as ((Rs & Bs & Cs) & Ek); [lia|].
  destruct (bitstuff w n) as [s k]. cbn [fst snd] in *. subst k.
  unfold unstuf_pull_bits, unstuf_set_count, unstuf_add_bits.
  cbn [stuffed_bits count_stuff count_unstuff unstuffed_bits].
  set (sb := Z.lor (shl (stuffed_bits bu) (Z.of_nat (length S)))
                   (Z.land s (lowmask (Z.of_nat (length S))))).
  assert (Tsb : forall j, 0 <= j ->
            Z.testbit sb j = if j <? Z.of_nat (length S) then Z.testbit s j
              else (j <? 32)
                   && Z.testbit (stuffed_bits bu) (j - Z.of_nat (length S))).
  { intros j Hj. apply testbit_add_bits; lia. }
  rewrite unstuf_pull_loop_spec by lia.
  rewrite Nat2Z.id.
  assert (Eb : bits_of sb (length S) = S).
  { etransitivity; [|exact Bs]. apply bits_of_ext. intros j Hj.
    rewrite Tsb by lia. zbool. reflexivity. }
  rewrite Eb.
  rewrite (unstuff_ext S (Z.to_nat n) _ H).
  2:{ intros j Hj. unfold H. rewrite !nth_hist by lia.
      rewrite Tsb by lia. zbool. cbn [andb].
      replace (Z.of_nat (length S) + Z.of_nat j - Z.of_nat (length S))
        with (Z.of_nat j) by lia.
      rewrite Hctx by lia. f_equal. }
  pose proof (unstuff_stuff data H) as RT.
  rewrite Ld in RT. fold S in RT.
  destruct (unstuff H S (Z.to_nat n)) as [[r f] q].
  cbn [fst] in RT.
  specialize (RT ltac:(unfold H; rewrite run5_hist; exact Hrun)).
  inversion RT; subst r f. cbn [fst snd pull_code unstuffed_bits].
  split; [reflexivity|].
  pose proof (or_bits_field data ltac:(lia)) as F. cbv zeta in F.
  rewrite Ld, Z2Nat.id in F by lia. destruct F as (F1 & F2).
  apply (bits_of_inj (Z.to_nat n)).
  - rewrite Z2Nat.id by lia. exact F1.
  - rewrite Z2Nat.id by lia. exact Hbits.
  - rewrite F2. unfold data. apply bits_of_ext. intros j Hj.
    rewrite Tw by lia. zbool. reflexivity.
Qed.

Lemma bitstuff_unstuff_roundtrip_witness :
  0 <= 5 <= 21 /\ 0 <= 0x1f < 2 ^ 5 /\ 0 <= 1 < 2 ^ 32 /\
  (forall j, 0 <= j < 5 ->
     Z.testbit (stuffed_bits (mk_unstuf 1 0 0 0)) j = Z.testbit 1 j) /\
  eq5 1 0 = false /\
  let sk := bitstuff (Z.lor (shl 1 5) 0x1f) 5 in
  let bu1 := unstuf_set_count
               (unstuf_add_bits (mk_unstuf 1 0 0 0) (fst sk) (snd sk)) 5 in
  fst (unstuf_pull_bits bu1) = 0 /\
  unstuffed_bits (snd (unstuf_pull_bits bu1)) = 0x1f.
Proof.
  split; [lia|]. split; [lia|]. split; [lia|].
  split; [intros j Hj; reflexivity|]. split; [reflexivity|].
  apply (bitstuff_unstuff_roundtrip (mk_unstuf 1 0 0 0) 1 0x1f 5);
    [lia | lia | lia | intros j Hj; reflexivity | reflexivity].
Defined.

Lemma shl_31_cases x : shl x 31 = 0 \/ shl x 31 = 2 ^ 31.
Proof.
  unfold shl, u32. rewrite Z.shiftl_mul_pow2 by lia.
  change (2 ^ 32) with (2 * 2 ^ 31).
  rewrite Z.mul_mod_distr_r by lia.
  pose proof (Z.mod_pos_bound x 2 ltac:(lia)).
  assert (x mod 2 = 0 \/ x mod 2 = 1) as [-> | ->] by lia; [left|right];
    reflexivity.
Qed.

(** C3 as stated fails.  With the unstuffer as [can2040_setup] leaves it,
    the one-bit string 1 is stuffed to itself and then consumed as a stuff
    bit, so the pull returns 1 with an empty field.  And for the 31-bit
    string 11110 followed by 13 times 10 no state of the unstuffer gives the
    string back: only one bit of the old window stays in front of it, and
    the pull either takes the first bit or the fifth for a stuff bit. *)
Lemma bitstuff_unstuff_counterexample :
  (let sk := bitstuff 1 1 in
   let bu1 := unstuf_set_count
                (unstuf_add_bits (mk_unstuf 0 0 0 0) (fst sk) (snd sk)) 1 in
   ~ (fst (unstuf_pull_bits bu1) = 0 /\
      unstuffed_bits (snd (unstuf_pull_bits bu1)) = 1)) /\
  (forall bu,
   let sk := bitstuff 0x7aaaaaaa 31 in
   let bu1 := unstuf_set_count (unstuf_add_bits bu (fst sk) (snd sk)) 31 in
   ~ (fst (unstuf_pull_bits bu1) = 0 /\
      unstuffed_bits (snd (unstuf_pull_bits bu1)) = 0x7aaaaaaa)).
Proof.
  split.
  - vm_compute. intros [H _]. discriminate.
  - intros bu. cbv zeta.
    replace (bitstuff 2058005162 31) with (2058005162, 31)
      by (vm_compute; reflexivity).
    cbn [fst snd]. unfold unstuf_add_bits, unstuf_set_count.
    cbn [stuffed_bits count_stuff unstuffed_bits count_unstuff].
    destruct (shl_31_cases (stuffed_bits bu)) as [-> | ->];
      vm_compute; intros [H _]; discriminate.
Qed.

(** ** The encoder appends to the stream *)

Lemma nth_or_at a : forall k v i,
  nth i (or_at a k v) 0
  = if (i =? k)%nat && (k <? length a)%nat then Z.lor (nth k a 0) v
    else nth i a 0.
Proof.
  induction a as [|x r IH]; intros k v i.
  - cbn [or_at length]. destruct k, i; cbn [nth]; 
      rewrite ?andb_false_r; reflexivity.
  - destruct k as [|k]; cbn [or_at].
    + destruct i; reflexivity.
    + destruct i as [|i]; cbn [nth]; [reflexivity|]. rewrite IH.
      cbn [length]. reflexivity.
Qed.

Lemma length_or_at a : forall k v, length (or_at a k v) = length a.
Proof.
  induction a as [|x r IH]; intros k v; [destruct k; reflexivity|].
  destruct k; cbn [or_at length]; [reflexivity|]. now rewrite IH.
Qed.

Lemma sbit_or_at buf k v p :
  0 <= p -> (k < length buf)%nat ->
  sbit (or_at buf k v) p
  = sbit buf p || ((p / 32 =? Z.of_nat k) && Z.testbit v (31 - p mod 32)).
Proof.
  intros Hp Hk. unfold sbit. rewrite nth_or_at.
  assert (0 <= p / 32) by (apply Z.div_pos; lia).
  destruct (Nat.ltb_spec k (length buf)); [|lia]. rewrite andb_true_r.
  destruct (Nat.eqb_spec (Z.to_nat (p / 32)) k) as [E|E].
  - subst k. rewrite Z2Nat.id by lia. rewrite Z.eqb_refl.
    rewrite Z.lor_spec. reflexivity.
  - destruct (Z.eqb_spec (p / 32) (Z.of_nat k)) as [E2|E2]; [lia|].
    rewrite orb_false_r. reflexivity.
Qed.

Lemma nth_tx_hist s k :
  (k < length s)%nat ->
  nth k (tx_hist s) false = nth (length s - 1 - k) s false.
Proof.
  intros H. unfold tx_hist.
  rewrite app_nth1 by (rewrite length_rev; lia).
  rewrite rev_nth by lia. f_equal. lia.
Qed.

(** One position of the stream when a chunk is OR-ed in: [x] is what lands
    on position [p]. *)
Lemma push_bit s c data count p x :
  Z.of_nat (length c) = count -> 0 <= data < 2 ^ 32 -> 0 <= p ->
  (forall j, 0 <= j < count ->
     Z.testbit data j = nth (Z.to_nat (count - 1 - j)) c false) ->
  (forall j, count <= j < 32 -> Z.testbit data j = true ->
     nth (Z.to_nat (j - count)) (tx_hist s) false = true) ->
  x = false \/ x = Z.testbit data (count - 1 - (p - Z.of_nat (length s))) ->
  (Z.of_nat (length s) <= p < Z.of_nat (length s) + count ->
   x = Z.testbit data (count - 1 - (p - Z.of_nat (length s)))) ->
  nth (Z.to_nat p) s false || x = nth (Z.to_nat p) (s ++ c) false.
Proof.
  intros Hc Hd Hp Hlow Hctx Hx Hin.
  destruct (Z.lt_ge_cases p (Z.of_nat (length s))) as [Hs|Hs].
  - rewrite app_nth1 by lia.
    destruct Hx as [->| ->]; [apply orb_false_r|].
    set (idx := count - 1 - (p - Z.of_nat (length s))).
    destruct (Z.testbit data idx) eqn:E; [|apply orb_false_r].
    destruct (Z.lt_ge_cases idx 32) as [H32|H32].
    2:{ rewrite testbit_bound in E by lia. discriminate. }
    specialize (Hctx idx ltac:(unfold idx; lia) E).
    rewrite nth_tx_hist in Hctx by (unfold idx; lia).
    replace (length s - 1 - Z.to_nat (idx - count))%nat with (Z.to_nat p)
      in Hctx by (unfold idx; lia).
    rewrite Hctx. reflexivity.
  - rewrite (nth_overflow s) by lia. cbn [orb].
    rewrite app_nth2 by lia.
    destruct (Z.lt_ge_cases p (Z.of_nat (length s) + count)) as [Hc2|Hc2].
    + rewrite Hin by lia. rewrite Hlow by lia. f_equal. lia.
    + rewrite (nth_overflow c) by lia.
      destruct Hx as [->| ->]; [reflexivity|].
      apply Z.testbit_neg_r. lia.
Qed.

Lemma bs_pushraw_holds bs data count s c :
  buf_holds (buf bs) s -> bitpos bs = Z.of_nat (length s) ->
  Z.of_nat (length c) = count -> 1 <= count <= 32 ->
  Z.of_nat (length s) + count <= 32 * Z.of_nat STUFFED_DATA_WORDS ->
  0 <= data < 2 ^ 32 ->
  (forall j, 0 <= j < count ->
     Z.testbit data j = nth (Z.to_nat (count - 1 - j)) c false) ->
  (forall j, count <= j < 32 -> Z.testbit data j = true ->
     nth (Z.to_nat (j - count)) (tx_hist s) false = true) ->
  buf_holds (buf (bs_pushraw bs data count)) (s ++ c) /\
  bitpos (bs_pushraw bs data count) = Z.of_nat (length (s ++ c)) /\
  prev_stuffed (bs_pushraw bs data count) = prev_stuffed bs /\
  bs_crc (bs_pushraw bs data count) = bs_crc bs.
Proof.
  unfold buf_holds, STUFFED_DATA_WORDS.
  intros (Hlen & Hbuf) Hpos Hc Hcount Hfit Hd Hlow Hctx.
  unfold bs_pushraw. cbn [buf bitpos prev_stuffed bs_crc].
  rewrite Hpos. set (bp := Z.of_nat (length s)) in *.
  split; [|split; [|split; reflexivity]].
  2:{ rewrite length_app, Nat2Z.inj_add. fold bp. rewrite Hc.
      apply u32_small. lia. }
  assert (Hbp : 0 <= bp) by (unfold bp; lia).
  assert (Hdm : 0 <= bp mod 32 < 32 /\ bp = 32 * (bp / 32) + bp mod 32
                /\ 0 <= bp / 32)
    by (Z.div_mod_to_equations; lia).
  destruct Hdm as (Hm & Hdiv & Hq).
  set (wp := bp / 32) in *. set (bu := bp mod 32) in *.
  destruct (Z.leb_spec count (32 - bu)) as [Hfits|Hsplit].
  - (* the chunk fits in the current word *)
    split; [rewrite length_or_at; exact Hlen|].
    intros p Hp. rewrite sbit_or_at by lia.
    rewrite Z2Nat.id by lia. rewrite Hbuf by lia.
    assert (Hpm : 0 <= p mod 32 < 32 /\ p = 32 * (p / 32) + p mod 32)
      by (Z.div_mod_to_equations; lia).
    apply (push_bit s c data count); try assumption; try lia.
    + destruct (Z.eqb_spec (p / 32) wp) as [E|E]; [|left; reflexivity].
      right. cbn [andb]. rewrite testbit_shl. zbool. cbn [negb andb].
      f_equal. fold bp. lia.
    + intros Hin. fold bp in Hin.
      destruct (Z.eqb_spec (p / 32) wp) as [E|E]; [|lia].
      cbn [andb]. rewrite testbit_shl. zbool. cbn [negb andb].
      f_equal. fold bp. lia.
  - (* the chunk continues in the next word *)
    split; [rewrite !length_or_at; exact Hlen|].
    intros p Hp.
    replace (Z.to_nat wp + 1)%nat with (Z.to_nat (wp + 1)) by lia.
    rewrite sbit_or_at by (rewrite ?length_or_at; lia).
    rewrite sbit_or_at by lia.
    rewrite !Z2Nat.id by lia. rewrite Hbuf by lia.
    assert (Hpm : 0 <= p mod 32 < 32 /\ p = 32 * (p / 32) + p mod 32)
      by (Z.div_mod_to_equations; lia).
    rewrite <- orb_assoc.
    apply (push_bit s c data count); try assumption; try lia.
    + destruct (Z.eqb_spec (p / 32) wp) as [E|E].
      * right. destruct (Z.eqb_spec (p / 32) (wp + 1)); [lia|].
        cbn [andb]. rewrite orb_false_r, testbit_shr. zbool.
        cbn [negb andb]. f_equal. fold bp. lia.
      * cbn [andb orb].
        destruct (Z.eqb_spec (p / 32) (wp + 1)) as [E2|E2];
          [|left; reflexivity].
        right. cbn [andb]. rewrite testbit_shl. zbool. cbn [negb andb].
        f_equal. fold bp. lia.
    + intros Hin. fold bp in Hin.
      destruct (Z.eqb_spec (p / 32) wp) as [E|E].
      * destruct (Z.eqb_spec (p / 32) (wp + 1)); [lia|].
        cbn [andb]. rewrite orb_false_r, testbit_shr. zbool.
        cbn [negb andb]. f_equal. fold bp. lia.
      * cbn [andb orb].
        destruct (Z.eqb_spec (p / 32) (wp + 1)) as [E2|E2]; [|lia].
        cbn [andb]. rewrite testbit_shl. zbool. cbn [negb andb].
        f_equal. fold bp. lia.
Qed.

Lemma tx_hist_app s c : tx_hist (s ++ c) = rev c ++ tx_hist s.
Proof. unfold tx_hist. rewrite rev_app_distr, app_assoc. reflexivity. Qed.

Lemma bs_push_holds bs data count s :
  enc_inv bs s -> 1 <= count <= 25 ->
  let d := bits_of data (Z.to_nat count) in
  let c := stuff (tx_hist s) d in
  Z.of_nat (length s + length c) <= 32 * Z.of_nat STUFFED_DATA_WORDS ->
  enc_inv (bs_push bs data count) (s ++ c) /\
  bs_crc (bs_push bs data count)
  = crcbits (bs_crc bs) (Z.land data (lowmask count)) count.
Proof.
  intros (Hbuf & Hpos & (Hprev & Hh)) Hcount d c Hfit.
  unfold bs_push.
  set (stuf := Z.lor (shl (prev_stuffed bs) count)
                     (Z.land data (lowmask count))).
  assert (Hs : 0 <= stuf < 2 ^ 32).
  { apply lor_range32; [apply u32_range | apply land_lowmask_range; lia]. }
  assert (Ts : forall j, 0 <= j ->
            Z.testbit stuf j = if j <? count then Z.testbit data j
                               else (j <? 32)
                                    && Z.testbit (prev_stuffed bs) (j - count))
    by (intros; apply testbit_add_bits; lia).
  assert (Ed : bits_of stuf (Z.to_nat count) = d).
  { apply bits_of_ext. intros j Hj. rewrite Ts by lia. zbool. reflexivity. }
  assert (Ec : stuff (hist stuf count 4) d = c).
  { apply stuff_ext. intros j Hj. rewrite nth_hist by lia.
    rewrite Ts by lia. zbool. cbn [andb].
    replace (count + Z.of_nat j - count) with (Z.of_nat j) by lia.
    rewrite Hh by lia. rewrite Nat2Z.id. reflexivity. }
  pose proof (bitstuff_spec stuf count Hs ltac:(lia)) as BS.
  cbv zeta in BS. rewrite Ed, Ec in BS.
  pose proof (length_stuff_le (length d) d (tx_hist s) (le_n _)) as LS.
  fold c in LS.
  assert (Ld : length d = Z.to_nat count) by apply length_bits_of.
  destruct BS as ((Rs & Bs & Cs) & Ek); [lia|].
  destruct (bitstuff stuf count) as [stuf' newcount].
  cbn [fst snd] in *. subst newcount.
  assert (Tc : forall j, 0 <= j < Z.of_nat (length c) ->
            Z.testbit stuf' j
            = nth (Z.to_nat (Z.of_nat (length c) - 1 - j)) c false).
  { intros j Hj. rewrite <- Bs at 2. rewrite nth_bits_of by lia.
    f_equal. lia. }
  assert (Tx : forall j, Z.of_nat (length c) <= j < 32 ->
            Z.testbit stuf' j
            = nth (Z.to_nat (j - Z.of_nat (length c))) (tx_hist s) false).
  { intros j Hj.
    replace j with (Z.of_nat (length c) + (j - Z.of_nat (length c))) at 1
      by lia.
    pose proof (length_stuff_ge d (tx_hist s)) as Lge0. fold c in Lge0.
    rewrite Cs by lia. zbool. cbn [andb]. rewrite Ts by lia. zbool.
    cbn [andb]. rewrite <- Hh by lia. f_equal. lia. }
  pose proof (length_stuff_ge d (tx_hist s)) as Lge. fold c in Lge.
  pose proof (bs_pushraw_holds
    (mk_bs (prev_stuffed bs) (bitpos bs) (buf bs)
           (crcbits (bs_crc bs) (Z.land data (lowmask count)) count))
    stuf' (Z.of_nat (length c)) s c) as PR.
  cbn [buf bitpos] in PR.
  destruct PR as (P1 & P2 & P3 & P4);
    try assumption; try lia; try reflexivity.
  { intros j Hj E. rewrite <- Tx by lia. exact E. }
  cbn [buf bitpos bs_crc prev_stuffed] in *.
  split; [|exact P4].
  split; [exact P1|]. split; [exact P2|].
  cbn [prev_stuffed]. split; [exact Rs|].
  intros j Hj. rewrite tx_hist_app.
  destruct (Z.lt_ge_cases j (Z.of_nat (length c))).
  - rewrite app_nth1 by (rewrite length_rev; lia).
    rewrite rev_nth by lia. rewrite Tc by lia. f_equal. lia.
  - rewrite app_nth2 by (rewrite length_rev; lia).
    rewrite length_rev, Tx by lia. f_equal. lia.
Qed.

(** ** The stuffed stream of a frame *)

Lemma stuff_app a : forall h b,
  stuff h (a ++ b) = stuff h a ++ stuff (rev (stuff h a) ++ h) b.
Proof.
  induction a as [|d r IH]; intros h b; [reflexivity|].
  cbn [app stuff]. destruct (run5 (d :: h)).
  - cbn [app rev]. rewrite IH. f_equal. f_equal. f_equal. f_equal.
    rewrite <- !app_assoc. reflexivity.
  - cbn [app rev]. rewrite IH. f_equal. f_equal. f_equal.
    rewrite <- !app_assoc. reflexivity.
Qed.

Lemma run5_prefix h last len :
  run5 h = false ->
  (forall j, (j < len)%nat -> nth j h false = last) -> (len <= 4)%nat.
Proof.
  intros R H. destruct (Nat.le_gt_cases len 4) as [|G]; [assumption|].
  unfold run5 in R.
  rewrite (H 0%nat), (H 1%nat), (H 2%nat), (H 3%nat), (H 4%nat) in R by lia.
  destruct last; discriminate.
Qed.

Lemma no_run6_from_stuff data : forall h last len,
  run5 h = false -> (1 <= len)%nat ->
  (forall j, (j < len)%nat -> nth j h false = last) ->
  no_run6_from last len (stuff h data) = true.
Proof.
  induction data as [|d r IH]; intros h last len R L P; [reflexivity|].
  pose proof (run5_prefix h last len R P) as L4.
  cbn [stuff].
  set (len' := if eqb d last then S len else 1%nat).
  assert (L' : (1 <= len' <= 5)%nat)
    by (unfold len'; destruct (eqb d last); lia).
  assert (P' : forall j, (j < len')%nat -> nth j (d :: h) false = d).
  { intros [|j] Hj; cbn [nth]; [reflexivity|].
    unfold len' in Hj. destruct (eqb d last) eqn:E; [|lia].
    apply eqb_prop in E. subst d. apply P. lia. }
  destruct (run5 (d :: h)) eqn:E5.
  - cbn [no_run6_from]. fold len'.
    destruct (Nat.ltb_spec len' 6); [|lia]. cbn [andb].
    replace (eqb (negb d) d) with false by (destruct d; reflexivity).
    cbn [Nat.ltb Nat.leb andb].
    apply IH; [apply run5_after_stuff | lia |].
    intros [|j] Hj; [reflexivity | lia].
  - cbn [no_run6_from]. fold len'.
    destruct (Nat.ltb_spec len' 6); [|lia]. cbn [andb].
    apply IH; [exact E5 | lia | exact P'].
Qed.

Lemma no_run6_stuff data h :
  run5 h = false -> no_run6 (stuff h data) = true.
Proof.
  intros R. destruct data as [|d r]; [reflexivity|].
  cbn [stuff]. destruct (run5 (d :: h)) eqn:E5; cbn [no_run6].
  - cbn [no_run6_from].
    replace (eqb (negb d) d) with false by (destruct d; reflexivity).
    cbn [Nat.ltb Nat.leb andb].
    apply no_run6_from_stuff; [apply run5_after_stuff | lia |].
    intros [|j] Hj; [reflexivity | lia].
  - apply no_run6_from_stuff; [exact E5 | lia |].
    intros [|j] Hj; [reflexivity | lia].
Qed.

Lemma enc_inv_init :
  enc_inv (mk_bs 1 0 (repeat 0 STUFFED_DATA_WORDS) 0) [].
Proof.
  split; [|split; [reflexivity|]].
  - split; [reflexivity|]. intros p Hp. unfold sbit. cbn [buf].
    assert (E : nth (Z.to_nat (p / 32)) (repeat 0 STUFFED_DATA_WORDS) 0 = 0).
    { apply nth_repeat. }
    rewrite E, Z.testbit_0_l. destruct (Z.to_nat p); reflexivity.
  - unfold hist_word. cbn [prev_stuffed].
    split; [lia|]. intros j Hj. unfold tx_hist. cbn [rev app].
    destruct (Z.eq_dec j 0) as [->|Hn]; [reflexivity|].
    replace (Z.to_nat j) with (S (Z.to_nat (j - 1))) by lia. cbn [nth].
    destruct (Z.to_nat (j - 1)); destruct j; try lia; reflexivity.
Qed.

Lemma length_stuff_frame h D :
  (length D <= 98)%nat -> (length (stuff h D) <= 125)%nat.
Proof.
  intros H. pose proof (length_stuff_le (length D) D h (le_n _)). lia.
Qed.

(** One more field pushed after the data bits [D]. *)
Lemma bs_push_frame bs D data count :
  enc_inv bs (stuff [true] D) -> 1 <= count <= 25 ->
  (length D + Z.to_nat count <= 98)%nat ->
  enc_inv (bs_push bs data count)
          (stuff [true] (D ++ bits_of data (Z.to_nat count))) /\
  bs_crc (bs_push bs data count)
  = crcbits (bs_crc bs) (Z.land data (lowmask count)) count.
Proof.
  intros I Hc HD.
  pose proof (bs_push_holds bs data count (stuff [true] D) I Hc) as H.
  cbv zeta in H.
  assert (E : stuff [true] D
              ++ stuff (tx_hist (stuff [true] D))
                       (bits_of data (Z.to_nat count))
              = stuff [true] (D ++ bits_of data (Z.to_nat count))).
  { rewrite stuff_app. reflexivity. }
  rewrite E in H. apply H.
  rewrite <- length_app, E.
  pose proof (length_stuff_frame [true]
    (D ++ bits_of data (Z.to_nat count))) as L.
  rewrite length_app, length_bits_of in L. specialize (L HD).
  unfold STUFFED_DATA_WORDS. lia.
Qed.

Lemma fold_bs_push (bytes : list Z) l : forall bs D,
  enc_inv bs (stuff [true] D) ->
  (length D + 8 * length l <= 98)%nat ->
  let f := fun bs i => bs_push bs (nth i bytes 0) 8 in
  enc_inv (fold_left f l bs)
          (stuff [true] (D ++ flat_map (fun i => bits_of (nth i bytes 0) 8) l))
  /\ bs_crc (fold_left f l bs)
     = fold_left (fun c i => crcbits c (Z.land (nth i bytes 0) (lowmask 8)) 8)
                 l (bs_crc bs).
Proof.
  induction l as [|i l IH]; intros bs D I HD; cbv zeta.
  - cbn [fold_left flat_map]. rewrite app_nil_r. split; [exact I|reflexivity].
  - cbn [fold_left flat_map]. cbn [length] in HD.
    destruct (bs_push_frame bs D (nth i bytes 0) 8 I) as (I1 & C1);
      [lia | change (Z.to_nat 8) with 8%nat; lia |].
    specialize (IH (bs_push bs (nth i bytes 0) 8)
                   (D ++ bits_of (nth i bytes 0) 8) I1).
    cbv zeta in IH. rewrite length_app, length_bits_of in IH.
    destruct IH as (I2 & C2); [lia|].
    rewrite <- app_assoc in I2. split; [exact I2|].
    rewrite C2, C1. reflexivity.
Qed.

Lemma length_flat_map_bits (bytes : list Z) l :
  length (flat_map (fun i => bits_of (nth i bytes 0) 8) l)
  = (8 * length l)%nat.
Proof.
  induction l as [|i l IH]; [reflexivity|].
  cbn [flat_map length]. rewrite length_app, length_bits_of, IH. lia.
Qed.

Lemma length_tx_data_bits m :
  length (tx_data_bits m) = (8 * Z.to_nat (data_len m))%nat.
Proof.
  unfold tx_data_bits. rewrite length_flat_map_bits, length_seq.
  reflexivity.
Qed.

Lemma tx_encode_bs_holds m :
  0 <= data_len m <= 8 ->
  enc_inv (tx_encode_bs m)
          (stuff [true] (bits_of (tx_hdr m) 19 ++ tx_data_bits m)) /\
  bs_crc (tx_encode_bs m)
  = fold_left (fun c i => crcbits c (Z.land (nth i (d1 m) 0) (lowmask 8)) 8)
              (seq 0 (Z.to_nat (data_len m)))
              (crcbits 0 (Z.land (tx_hdr m) (lowmask 19)) 19).
Proof.
  intros Hl. unfold tx_encode_bs. fold (tx_hdr m).
  destruct (bs_push_frame (mk_bs 1 0 (repeat 0 STUFFED_DATA_WORDS) 0) []
              (tx_hdr m) 19 enc_inv_init) as (I1 & C1);
    [lia | cbn; lia |].
  cbn [app] in I1. change (Z.to_nat 19) with 19%nat in I1.
  pose proof (fold_bs_push (d1 m) (seq 0 (Z.to_nat (data_len m)))
                _ _ I1) as F.
  cbv zeta in F. rewrite length_bits_of, length_seq in F.
  destruct F as (I2 & C2); [lia|].
  split; [exact I2|]. rewrite C2, C1. reflexivity.
Qed.

Lemma tx_encode_crc_bs_holds m :
  0 <= data_len m <= 8 -> enc_inv (tx_encode_crc_bs m) (tx_stream m).
Proof.
  intros Hl. destruct (tx_encode_bs_holds m Hl) as (I & _).
  unfold tx_encode_crc_bs, tx_stream, tx_frame_bits. cbv zeta.
  rewrite crc_tx_encode, app_assoc.
  apply bs_push_frame; [exact I | lia |].
  rewrite length_app, length_bits_of, length_tx_data_bits.
  change (Z.to_nat 15) with 15%nat. lia.
Qed.

Lemma bs_finalize_holds bs s :
  buf_holds (buf bs) s -> bitpos bs = Z.of_nat (length s) ->
  0 < Z.of_nat (length s) <= 32 * Z.of_nat STUFFED_DATA_WORDS ->
  let words := snd (bs_finalize bs) in
  let data := fst (bs_finalize bs) in
  words = (Z.of_nat (length s) + 31) / 32 /\
  length data = STUFFED_DATA_WORDS /\
  forall p, 0 <= p < 32 * words ->
    sbit data p = nth (Z.to_nat p) s true.
Proof.
  unfold buf_holds, STUFFED_DATA_WORDS. intros (Hlen & Hbuf) Hpos Hs.
  cbv zeta. unfold bs_finalize. cbn [fst snd]. rewrite Hpos.
  set (n := Z.of_nat (length s)) in *.
  replace (n + 32 - 1) with (n + 31) by lia.
  set (words := (n + 31) / 32).
  assert (Hw : 32 * words - 31 <= n <= 32 * words /\ 1 <= words <= 5)
    by (unfold words; Z.div_mod_to_equations; lia).
  split; [reflexivity|].
  destruct (Z.eqb_spec (words * 32 - n) 0) as [E|E]; cbn [negb].
  - split; [exact Hlen|]. intros p Hp. rewrite Hbuf by lia.
    apply nth_indep. lia.
  - split; [rewrite length_or_at; exact Hlen|]. intros p Hp.
    rewrite sbit_or_at by lia. rewrite Hbuf by lia.
    rewrite Z2Nat.id by lia. rewrite lowmask_ones by lia.
    rewrite Z.testbit_ones_nonneg' by lia.
    assert (Hpm : 0 <= p mod 32 < 32 /\ p = 32 * (p / 32) + p mod 32)
      by (Z.div_mod_to_equations; lia).
    destruct (Z.lt_ge_cases p n) as [Hlt|Hge].
    + rewrite (nth_indep s false true) by lia.
      zbool; cbn [negb andb]; rewrite ?andb_false_r, ?orb_false_r;
        reflexivity.
    + rewrite !nth_overflow by lia. zbool; reflexivity.
Qed.

Lemma tx_encode_holds m :
  0 <= data_len m <= 8 ->
  let q := tx_encode m in
  let s := tx_stream m ++ [true] in
  msg q = m /\
  stuffed_words q = (Z.of_nat (length s) + 31) / 32 /\
  length (stuffed_data q) = STUFFED_DATA_WORDS /\
  (forall p, 0 <= p < 32 * stuffed_words q ->
     sbit (stuffed_data q) p = nth (Z.to_nat p) s true) /\
  bitpos (tx_encode_crc_bs m) = Z.of_nat (length (tx_stream m)).
Proof.
  intros Hl. cbv zeta.
  destruct (tx_encode_crc_bs_holds m Hl) as (I1 & I2 & I3).
  assert (LF : (length (tx_frame_bits m) <= 98)%nat).
  { unfold tx_frame_bits.
    rewrite !length_app, !length_bits_of, length_tx_data_bits. lia. }
  assert (L : (length (tx_stream m) <= 125)%nat)
    by (apply length_stuff_frame, LF).
  pose proof (bs_pushraw_holds (tx_encode_crc_bs m) 1 1 (tx_stream m) [true]
                I1 I2) as PR.
  destruct PR as (P1 & P2 & _ & _);
    [reflexivity | lia | unfold STUFFED_DATA_WORDS; lia | lia | | |].
  { intros j Hj. assert (j = 0) by lia. subst j. reflexivity. }
  { intros j Hj E. exfalso.
    change 1 with (2 ^ 0) in E. rewrite Z.pow2_bits_eqb in E by lia.
    destruct (Z.eqb_spec 0 j); [lia | discriminate]. }
  pose proof (bs_finalize_holds _ _ P1 P2) as F. cbv zeta in F.
  rewrite length_app in F. cbn [length] in F.
  destruct F as (F1 & F2 & F3); [unfold STUFFED_DATA_WORDS; lia|].
  unfold tx_encode. unfold tx_encode_crc_bs in *. cbv zeta in *.
  destruct (bs_finalize _) as [data words]. cbn [fst snd] in *.
  cbn [msg stuffed_words stuffed_data].
  rewrite length_app. cbn [length].
  split; [reflexivity|]. split; [exact F1|]. split; [exact F2|].
  split; [exact F3 | exact I2].
Qed.

Lemma stream_of_eq buf s d :
  (forall p, 0 <= p < Z.of_nat (length s) ->
     sbit buf p = nth (Z.to_nat p) s d) ->
  stream_of buf (length s) = s.
Proof.
  intros H. apply nth_ext with (d := false) (d' := d).
  - unfold stream_of. rewrite length_map, length_seq. reflexivity.
  - unfold stream_of. rewrite length_map, length_seq. intros k Hk.
    rewrite (nth_indep _ false (sbit buf (Z.of_nat 0)))
      by (rewrite length_map, length_seq; lia).
    rewrite (map_nth (fun p => sbit buf (Z.of_nat p))), seq_nth by lia.
    cbn [Nat.add]. rewrite H by lia. rewrite Nat2Z.id. reflexivity.
Qed.

Lemma data_len_tx_copy_msg m :
  0 <= data_len m -> 0 <= data_len (tx_copy_msg m) <= 8.
Proof.
  intros H. unfold tx_copy_msg. cbn [data_len]. rewrite clamp8. lia.
Qed.

Lemma tx_stream_in_buffer m :
  0 <= data_len m <= 8 ->
  stream_of (stuffed_data (tx_encode m)) (length (tx_stream m))
  = tx_stream m.
Proof.
  intros Hl. pose proof (tx_encode_holds m Hl) as H. cbv zeta in H.
  destruct H as (_ & W & _ & B & _).
  rewrite length_app in W. cbn [length] in W.
  apply stream_of_eq with (d := true). intros p Hp.
  rewrite B.
  - rewrite app_nth1 by lia. reflexivity.
  - rewrite W.
    assert (32 * ((Z.of_nat (length (tx_stream m) + 1) + 31) / 32)
            >= Z.of_nat (length (tx_stream m) + 1))
      by (Z.div_mod_to_equations; lia).
    lia.
Qed.

(** C2.  For the frame that [can2040_transmit] encodes from any message,
    the bits emitted through [bs_push] (header, data and CRC: the first
    [bitpos] bits of the buffer when the CRC has been pushed) are the
    stuffing of the frame bits after the initial history, and they contain no
    run of six equal bits, chunk boundaries included. *)
Theorem tx_stuffed_region_no_run6 (m : can2040_msg) :
  0 <= data_len m ->
  let m' := tx_copy_msg m in
  let q := tx_encode m' in
  let n := Z.to_nat (bitpos (tx_encode_crc_bs m')) in
  stream_of (stuffed_data q) n = stuff [true] (tx_frame_bits m') /\
  no_run6 (stream_of (stuffed_data q) n) = true.
Proof.
  intros Hl. cbv zeta.
  pose proof (data_len_tx_copy_msg m Hl) as Hl'.
  pose proof (tx_encode_holds _ Hl') as H. cbv zeta in H.
  destruct H as (_ & _ & _ & _ & P). rewrite P, Nat2Z.id.
  rewrite tx_stream_in_buffer by exact Hl'.
  split; [reflexivity|]. apply no_run6_stuff. reflexivity.
Qed.

Lemma tx_stuffed_region_no_run6_witness :
  0 <= data_len user_msg /\
  let m' := tx_copy_msg user_msg in
  let q := tx_encode m' in
  let n := Z.to_nat (bitpos (tx_encode_crc_bs m')) in
  stream_of (stuffed_data q) n = stuff [true] (tx_frame_bits m') /\
  no_run6 (stream_of (stuffed_data q) n) = true.
Proof.
  split; [cbn; lia|].
  apply (tx_stuffed_region_no_run6 user_msg). cbn. lia.
Defined.

(** ** The receive path, one raw bit at a time *)

Lemma set_unstuf_unstuf cd : set_unstuf (unstuf cd) cd = cd.
Proof. destruct cd. reflexivity. Qed.

Lemma set_unstuf_twice a b cd :
  set_unstuf a (set_unstuf b cd) = set_unstuf a cd.
Proof. reflexivity. Qed.

Lemma unstuf_pull_loop_full fuel sb e ub cs :
  unstuf_pull_loop fuel sb e ub cs 0 = (0, (ub, cs, 0)).
Proof. destruct fuel; reflexivity. Qed.

(** One iteration of the pull loop, in terms of the bits of the window. *)
Lemma unstuf_pull_bits_step bu :
  0 < count_stuff bu -> count_unstuff bu <> 0 ->
  let sb := stuffed_bits bu in
  let cs := count_stuff bu in
  let b := Z.testbit sb (cs - 1) in
  unstuf_pull_bits bu =
  if eq5 sb cs then
    let bu1 := mk_unstuf sb (cs - 1) (unstuffed_bits bu) (count_unstuff bu) in
    if eqb b (Z.testbit sb cs)
    then (if b then -1 else -2, bu1)
    else unstuf_pull_bits bu1
  else
    let cu := count_unstuff bu - 1 in
    let bu1 := mk_unstuf sb (cs - 1)
                 (Z.lor (unstuffed_bits bu) (shl (Z.b2z b) cu)) cu in
    if cu =? 0 then (0, bu1) else unstuf_pull_bits bu1.
Proof.
  intros Hcs Hcu. cbv zeta. destruct bu as [sb cs ub cu].
  cbn [stuffed_bits count_stuff unstuffed_bits count_unstuff] in *.
  unfold unstuf_pull_bits.
  cbn [stuffed_bits count_stuff unstuffed_bits count_unstuff].
  replace (Z.to_nat cs) with (S (Z.to_nat (cs - 1))) by lia.
  cbn [unstuf_pull_loop].
  destruct (Z.eqb_spec cu 0) as [|_]; [contradiction|].
  destruct (Z.eqb_spec cs 0) as [|_]; [lia|].
  cbv zeta. replace (cs - 1 + 1) with cs by lia.
  rewrite edges4_eq5, edges5_eq6, land_shr_1 by lia.
  replace (cs - 1 + 1) with cs by lia.
  destruct (eq5 sb cs) eqn:E5; cbn [negb].
  - rewrite andb_true_r.
    destruct (eqb (Z.testbit sb (cs - 1)) (Z.testbit sb cs)).
    + destruct (Z.testbit sb (cs - 1)); reflexivity.
    + reflexivity.
  - destruct (Z.eqb_spec (cu - 1) 0) as [E|E].
    + rewrite E, unstuf_pull_loop_full. reflexivity.
    + reflexivity.
Qed.

Lemma rx_step_counts cd :
  0 < count_stuff (unstuf cd) -> count_unstuff (unstuf cd) <> 0 ->
  count_stuff (unstuf (rx_step cd)) = count_stuff (unstuf cd) - 1 /\
  count_unstuff (unstuf (rx_step cd)) <> 0.
Proof.
  intros Hcs Hcu. unfold rx_step.
  assert (R : forall sb cs ub cu cd2,
            rearmed (set_unstuf (mk_unstuf sb cs ub cu) cd) cd2 ->
            count_stuff (unstuf cd2) = cs /\
            count_unstuff (unstuf cd2) <> 0).
  { intros sb cs ub cu cd2 H. apply (rearmed_set_unstuf _ _ _ H). }
  destruct (eq5 _ _).
  - destruct (eqb _ _).
    + destruct (Z.testbit _ _).
      * eapply R; apply rearmed_go_idle.
      * eapply R; apply rearmed_go_discard.
    + split; [reflexivity | exact Hcu].
  - destruct (Z.eqb_spec (count_unstuff (unstuf cd) - 1) 0) as [E|E].
    + eapply R; apply rearmed_data_state_update.
    + split; [reflexivity | exact E].
Qed.

Lemma process_rx_loop_steps n : forall fuel cd,
  count_stuff (unstuf cd) = Z.of_nat n -> (n < fuel)%nat ->
  count_unstuff (unstuf cd) <> 0 ->
  process_rx_loop fuel cd = Some (rx_steps n cd).
Proof.
  induction n as [|n IH]; intros fuel cd Hcs Hf Hcu;
    (destruct fuel as [|fuel]; [lia|]).
  - rewrite process_rx_loop_S, unstuf_pull_bits_empty by assumption.
    cbn [rx_steps]. rewrite set_unstuf_unstuf. reflexivity.
  - pose proof (rx_step_counts cd ltac:(lia) Hcu) as (C1 & C2).
    assert (Hk : count_stuff (unstuf (rx_step cd)) = Z.of_nat n) by lia.
    cbn [rx_steps].
    rewrite <- (IH fuel _ Hk ltac:(lia) C2).
    assert (Again : forall bu1, rx_step cd = set_unstuf bu1 cd ->
              unstuf_pull_bits (unstuf cd) = unstuf_pull_bits bu1 ->
              process_rx_loop (S fuel) cd
              = process_rx_loop fuel (rx_step cd)).
    { intros bu1 E1 E2. rewrite (IH fuel _ Hk ltac:(lia) C2).
      rewrite <- (IH (S fuel) _ Hk ltac:(lia) C2).
      rewrite !process_rx_loop_S, E2, E1. reflexivity. }
    pose proof (unstuf_pull_bits_step (unstuf cd) ltac:(lia) Hcu) as P.
    cbv zeta in P. unfold rx_step in *.
    destruct (eq5 _ _).
    + destruct (eqb _ _).
      * rewrite process_rx_loop_S, P.
        destruct (Z.testbit _ _); reflexivity.
      * eapply Again; [reflexivity | exact P].
    + destruct (Z.eqb_spec (count_unstuff (unstuf cd) - 1) 0) as [E|E].
      * rewrite process_rx_loop_S, P. reflexivity.
      * eapply Again; [reflexivity | exact P].
Qed.

Lemma process_rx_steps cd rx_byte :
  count_unstuff (unstuf cd) <> 0 ->
  process_rx cd rx_byte = Some (rx_steps 8 (rx_load cd rx_byte)).
Proof.
  intros Hcu. unfold process_rx. fold (rx_load cd rx_byte).
  unfold PROCESS_RX_FUEL. apply process_rx_loop_steps;
    [reflexivity | lia | exact Hcu].
Qed.

Lemma rx_steps_counts n : forall cd,
  count_stuff (unstuf cd) = Z.of_nat n -> count_unstuff (unstuf cd) <> 0 ->
  count_stuff (unstuf (rx_steps n cd)) = 0 /\
  count_unstuff (unstuf (rx_steps n cd)) <> 0.
Proof.
  induction n as [|n IH]; intros cd Hcs Hcu; [split; assumption|].
  pose proof (rx_step_counts cd ltac:(lia) Hcu) as (C1 & C2).
  cbn [rx_steps]. apply IH; [lia | exact C2].
Qed.

Lemma rx_run_steps k : forall cd bytes n,
  count_stuff (unstuf cd) = Z.of_nat k -> count_unstuff (unstuf cd) <> 0 ->
  rx_run (k + n) cd bytes = rx_run n (rx_steps k cd) bytes.
Proof.
  induction k as [|k IH]; intros cd bytes n Hcs Hcu; [reflexivity|].
  pose proof (rx_step_counts cd ltac:(lia) Hcu) as (C1 & C2).
  cbn [Nat.add rx_run rx_steps].
  destruct (Z.eqb_spec (count_stuff (unstuf cd)) 0); [lia|].
  apply IH; [lia | exact C2].
Qed.

(** [rx_bytes] is the bit-serial run over all the bits of its bytes. *)
Lemma count_stuff_rx_load cd b : count_stuff (unstuf (rx_load cd b)) = 8.
Proof. reflexivity. Qed.

Lemma count_unstuff_rx_load cd b :
  count_unstuff (unstuf (rx_load cd b)) = count_unstuff (unstuf cd).
Proof. reflexivity. Qed.

Lemma rx_run_S n cd bytes :
  rx_run (S n) cd bytes =
  if count_stuff (unstuf cd) =? 0 then
    match bytes with
    | [] => (cd, [])
    | b :: r => rx_run n (rx_step (rx_load cd b)) r
    end
  else rx_run n (rx_step cd) bytes.
Proof. reflexivity. Qed.

Lemma rx_steps_S n cd : rx_steps (S n) cd = rx_steps n (rx_step cd).
Proof. reflexivity. Qed.

(** [rx_bytes] is the bit-serial run over all the bits of its bytes. *)
Lemma rx_bytes_run bytes : forall cd,
  count_stuff (unstuf cd) = 0 -> count_unstuff (unstuf cd) <> 0 ->
  rx_bytes cd bytes = Some (fst (rx_run (8 * length bytes) cd bytes)).
Proof.
  induction bytes as [|b r IH]; intros cd Hcs Hcu; [reflexivity|].
  cbn [rx_bytes]. rewrite process_rx_steps by exact Hcu.
  assert (L : count_unstuff (unstuf (rx_load cd b)) <> 0)
    by (rewrite count_unstuff_rx_load; exact Hcu).
  pose proof (rx_steps_counts 8 (rx_load cd b)
                (count_stuff_rx_load cd b) L) as (C1 & C2).
  rewrite (IH _ C1 C2).
  replace (8 * length (b :: r))%nat with (S (7 + 8 * length r))
    by (cbn [length]; lia).
  rewrite rx_run_S, Hcs. cbn [Z.eqb].
  pose proof (rx_step_counts (rx_load cd b)
    ltac:(rewrite count_stuff_rx_load; lia) L) as (D1 & D2).
  rewrite count_stuff_rx_load in D1.
  rewrite (rx_run_steps 7 _ _ _ D1 D2), <- rx_steps_S. reflexivity.
Qed.

(** * Further properties of the encoder *)

(** X1.  [bitstuff] on a word whose [n] low bits are the data ([n] at most
    25, the most [bs_push] is given) and whose next four bits are the
    history: the word that comes back holds the data stuffed by the rule,
    the returned count is the length of that string, it is at least [n],
    and stuffing adds at most one bit for every four. *)
Theorem bitstuff_stuffs_word (b n : Z) :
  0 <= b < 2 ^ 32 -> 0 <= n <= 25 ->
  let s := stuff (hist b n 4) (bits_of b (Z.to_nat n)) in
  stuffed_as b (Z.to_nat n) (fst (bitstuff b n)) s /\
  snd (bitstuff b n) = Z.of_nat (length s) /\
  n <= snd (bitstuff b n) /\ 4 * snd (bitstuff b n) <= 5 * n + 3.
Proof.
  intros Hb Hn s.
  pose proof (length_stuff_le _ (bits_of b (Z.to_nat n)) (hist b n 4)
                (le_n _)) as Hle.
  pose proof (length_stuff_ge (bits_of b (Z.to_nat n)) (hist b n 4)) as Hge.
  rewrite length_bits_of in Hle, Hge. fold s in Hle, Hge.
  destruct (bitstuff_spec b n Hb) as (H1 & H2); [lia | fold s; lia |].
  fold s in H1, H2. rewrite H2. repeat split; try apply H1; lia.
Qed.

Lemma bitstuff_stuffs_word_witness :
  0 <= 0x3e0 < 2 ^ 32 /\ 0 <= 10 <= 25 /\
  let s := stuff (hist 0x3e0 10 4) (bits_of 0x3e0 (Z.to_nat 10)) in
  stuffed_as 0x3e0 (Z.to_nat 10) (fst (bitstuff 0x3e0 10)) s /\
  snd (bitstuff 0x3e0 10) = Z.of_nat (length s) /\
  10 <= snd (bitstuff 0x3e0 10) /\ 4 * snd (bitstuff 0x3e0 10) <= 5 * 10 + 3.
Proof.
  split; [lia|]. split; [lia|].
  apply (bitstuff_stuffs_word 0x3e0 10); lia.
Defined.

(** X2.  [bs_pushraw] with [count] bits of data that has no bit above them
    appends these bits, most significant first, to the stream in the
    buffer, also across a word boundary; the bits written before stay, the
    position advances by [count], and the history word and the CRC are not
    touched. *)
Theorem bs_pushraw_appends (bs : bitstuffer_s) (data count : Z)
  (s : list bool) :
  buf_holds (buf bs) s -> bitpos bs = Z.of_nat (length s) ->
  1 <= count <= 32 ->
  Z.of_nat (length s) + count <= 32 * Z.of_nat STUFFED_DATA_WORDS ->
  0 <= data < 2 ^ count ->
  let bs' := bs_pushraw bs data count in
  buf_holds (buf bs') (s ++ bits_of data (Z.to_nat count)) /\
  bitpos bs' = Z.of_nat (length s) + count /\
  prev_stuffed bs' = prev_stuffed bs /\ bs_crc bs' = bs_crc bs.
Proof.
  intros Hbuf Hpos Hc Hfit Hd. cbv zeta.
  assert (P : 2 ^ count <= 2 ^ 32) by (apply Z.pow_le_mono_r; lia).
  assert (Hi : forall j, count <= j -> Z.testbit data j = false).
  { intros j Hj. rewrite <- (Z.mod_small data (2 ^ count)) by lia.
    apply Z.mod_pow2_bits_high. lia. }
  destruct (bs_pushraw_holds bs data count s (bits_of data (Z.to_nat count))
              Hbuf Hpos) as (A & B & C & D).
  - rewrite length_bits_of. lia.
  - exact Hc.
  - exact Hfit.
  - lia.
  - intros j Hj. rewrite nth_bits_of by lia. f_equal. lia.
  - intros j Hj E. rewrite Hi in E by lia. discriminate.
  - rewrite length_app, length_bits_of in B.
    split; [exact A|]. split; [lia|]. split; assumption.
Qed.

Lemma bs_pushraw_appends_witness :
  let bs := mk_bs 1 0 (repeat 0 STUFFED_DATA_WORDS) 0 in
  buf_holds (buf bs) [] /\ bitpos bs = Z.of_nat (length (@nil bool)) /\
  1 <= 3 <= 32 /\
  Z.of_nat (length (@nil bool)) + 3 <= 32 * Z.of_nat STUFFED_DATA_WORDS /\
  0 <= 5 < 2 ^ 3 /\
  let bs' := bs_pushraw bs 5 3 in
  buf_holds (buf bs') ([] ++ bits_of 5 (Z.to_nat 3)) /\
  bitpos bs' = Z.of_nat (length (@nil bool)) + 3 /\
  prev_stuffed bs' = prev_stuffed bs /\ bs_crc bs' = bs_crc bs.
Proof.
  assert (H0 : buf_holds (repeat 0 STUFFED_DATA_WORDS) []).
  { split; [reflexivity|]. intros p Hp. unfold sbit.
    rewrite nth_repeat, Z.bits_0. destruct (Z.to_nat p); reflexivity. }
  cbv zeta. split; [exact H0|]. split; [reflexivity|].
  split; [lia|]. split; [cbn; lia|]. split; [lia|].
  apply (bs_pushraw_appends (mk_bs 1 0 (repeat 0 STUFFED_DATA_WORDS) 0) 5 3
           []); [exact H0 | reflexivity | lia | cbn; lia | lia].
Defined.

(** X3.  [bs_push] while a frame is encoded: the stuffed form of the
    [count] low bits of [data], stuffed against the stream so far, is
    appended to the buffer, the position and the history word follow, and
    the CRC is advanced over the same [count] bits. *)
Theorem bs_push_appends_stuffed (bs : bitstuffer_s) (data count : Z)
  (s : list bool) :
  enc_inv bs s -> 1 <= count <= 25 ->
  let c := stuff (tx_hist s) (bits_of data (Z.to_nat count)) in
  Z.of_nat (length s + length c) <= 32 * Z.of_nat STUFFED_DATA_WORDS ->
  enc_inv (bs_push bs data count) (s ++ c) /\
  bs_crc (bs_push bs data count)
  = crcbits (bs_crc bs) (Z.land data (lowmask count)) count.
Proof.
  intros I Hc c Hfit. apply (bs_push_holds bs data count s I Hc Hfit).
Qed.

Lemma bs_push_appends_stuffed_witness :
  let bs := mk_bs 1 0 (repeat 0 STUFFED_DATA_WORDS) 0 in
  enc_inv bs [] /\ 1 <= 8 <= 25 /\
  let c := stuff (tx_hist []) (bits_of 0x83 (Z.to_nat 8)) in
  Z.of_nat (length (@nil bool) + length c)
    <= 32 * Z.of_nat STUFFED_DATA_WORDS /\
  enc_inv (bs_push bs 0x83 8) ([] ++ c) /\
  bs_crc (bs_push bs 0x83 8)
  = crcbits (bs_crc bs) (Z.land 0x83 (lowmask 8)) 8.
Proof.
  cbv zeta. split; [exact enc_inv_init|]. split; [lia|].
  split; [vm_compute; discriminate|].
  apply (bs_push_appends_stuffed (mk_bs 1 0 (repeat 0 STUFFED_DATA_WORDS) 0)
           0x83 8 [] enc_inv_init); [lia | vm_compute; discriminate].
Defined.

(** X4.  [bs_finalize] returns the number of words the stream takes, the
    last one counted when it is only partly used, and fills what is left of
    that word with recessive bits; the stream itself is not changed. *)
Theorem bs_finalize_pads_recessive (bs : bitstuffer_s) (s : list bool) :
  buf_holds (buf bs) s -> bitpos bs = Z.of_nat (length s) ->
  0 < Z.of_nat (length s) <= 32 * Z.of_nat STUFFED_DATA_WORDS ->
  let words := snd (bs_finalize bs) in
  let data := fst (bs_finalize bs) in
  words = (Z.of_nat (length s) + 31) / 32 /\
  length data = STUFFED_DATA_WORDS /\
  forall p, 0 <= p < 32 * words ->
    sbit data p = nth (Z.to_nat p) s true.
Proof.
  intros Hbuf Hpos Hs. apply (bs_finalize_holds bs s Hbuf Hpos Hs).
Qed.

Lemma bs_finalize_pads_recessive_witness :
  let bs := bs_pushraw (mk_bs 1 0 (repeat 0 STUFFED_DATA_WORDS) 0) 5 3 in
  let s := [true; false; true] in
  buf_holds (buf bs) s /\ bitpos bs = Z.of_nat (length s) /\
  0 < Z.of_nat (length s) <= 32 * Z.of_nat STUFFED_DATA_WORDS /\
  let words := snd (bs_finalize bs) in
  let data := fst (bs_finalize bs) in
  words = (Z.of_nat (length s) + 31) / 32 /\
  length data = STUFFED_DATA_WORDS /\
  forall p, 0 <= p < 32 * words ->
    sbit data p = nth (Z.to_nat p) s true.
Proof.
  cbv zeta.
  assert (H0 : buf_holds (buf (bs_pushraw
                 (mk_bs 1 0 (repeat 0 STUFFED_DATA_WORDS) 0) 5 3))
                 [true; false; true]).
  { destruct enc_inv_init as (B & _).
    destruct (bs_pushraw_holds (mk_bs 1 0 (repeat 0 STUFFED_DATA_WORDS) 0)
                5 3 [] [true; false; true] B) as (A & _);
      [reflexivity | reflexivity | lia | cbn; lia | lia | | | exact A].
    - intros j Hj.
      assert (j = 0 \/ j = 1 \/ j = 2) as [ -> | [ -> | -> ] ] by lia;
        reflexivity.
    - intros j Hj E. exfalso.
      assert (Hb : Z.testbit 5 j = false).
      { rewrite <- (Z.mod_small 5 (2 ^ 3)) by lia.
        apply Z.mod_pow2_bits_high. lia. }
      congruence. }
  split; [exact H0|]. split; [reflexivity|]. split; [cbn; lia|].
  apply (bs_finalize_pads_recessive _ [true; false; true] H0);
    [reflexivity | cbn; lia].
Defined.

Lemma tx_hdr_eq m : tx_hdr m = Z.lor (shl (addr m) 7) (data_len m).
Proof. reflexivity. Qed.

Lemma tx_data_bits_eq m :
  tx_data_bits m
  = flat_map (fun i => bits_of (nth i (d1 m) 0) 8)
             (seq 0 (Z.to_nat (data_len m))).
Proof. reflexivity. Qed.

Lemma tx_stream_eq m :
  tx_stream m
  = stuff [true] (bits_of (tx_hdr m) 19 ++ tx_data_bits m
                  ++ bits_of (crc (tx_encode m)) 15).
Proof. reflexivity. Qed.

(** The slot that [can2040_transmit] fills, by its content: the CRC is
    [crcbits] over the masked header and payload bytes, and the words hold
    the stuffed frame, the CRC delimiter and recessive padding. *)
Lemma tx_encode_content m :
  0 <= data_len m <= 8 ->
  let q := tx_encode m in
  let hdr := Z.lor (shl (addr m) 7) (data_len m) in
  let frame :=
    bits_of hdr 19
    ++ flat_map (fun i => bits_of (nth i (d1 m) 0) 8)
                (seq 0 (Z.to_nat (data_len m)))
    ++ bits_of (crc q) 15 in
  let s := stuff [true] frame ++ [true] in
  crc q
  = Z.land
      (fold_left (fun c i => crcbits c (Z.land (nth i (d1 m) 0) (lowmask 8)) 8)
                 (seq 0 (Z.to_nat (data_len m)))
                 (crcbits 0 (Z.land hdr (lowmask 19)) 19))
      0x7fff /\
  stuffed_words q = (Z.of_nat (length s) + 31) / 32 /\
  forall p, 0 <= p < 32 * stuffed_words q ->
    sbit (stuffed_data q) p = nth (Z.to_nat p) s true.
Proof.
  intros Hl. cbv zeta.
  destruct (tx_encode_holds m Hl) as (_ & W & _ & B & _).
  destruct (tx_encode_bs_holds m Hl) as (_ & C).
  cbv zeta in W, B.
  rewrite <- tx_hdr_eq, <- tx_data_bits_eq, <- tx_stream_eq.
  split; [rewrite crc_tx_encode, C; reflexivity|].
  split; [exact W | exact B].
Qed.

(** C4.  [can2040_transmit] returns -1 exactly when [pending] has reached
    the capacity, and then the controller is unchanged.  Otherwise it returns
    0, the push counter is one more (as a [uint32_t]), and the slot at the
    old push position holds the sanitized copy of the message (identifier
    masked to 11 bits, DLC clamped to 8, payload zeroed and then overwritten
    by the first DLC bytes), its 15-bit CRC and its stuffed words.  The CRC
    is the low 15 bits of [crcbits] run from 0 over the 19 bits of the header
    and then over the DLC payload bytes of the copy.  The stuffed words,
    read most significant bit first, hold header, payload bytes and CRC
    after the stuffing rule [stuff], then the recessive CRC delimiter and
    recessive bits up to the end of the last word, and [stuffed_words] is
    the number of words that frame and delimiter take. *)
Theorem can2040_transmit_spec (cd : can2040) (m : can2040_msg) :
  length (tx_queue cd) = Z.to_nat TX_QUEUE_SIZE ->
  let r := can2040_transmit cd m in
  let len := Z.min (data_len m) 8 in
  if TX_QUEUE_SIZE <=? pending cd then r = (-1, cd)
  else
    fst r = 0 /\
    tx_push_pos (snd r) = u32 (tx_push_pos cd + 1) /\
    let qt := tx_slot (snd r) (tx_push_pos cd) in
    qt = tx_encode (tx_copy_msg m) /\
    addr (msg qt) = Z.land (addr m) 0x7ff /\
    data_len (msg qt) = len /\
    d1 (msg qt)
      = firstn (Z.to_nat len) (d1 m) ++ skipn (Z.to_nat len) (repeat 0 8) /\
    crc qt = Z.land (bs_crc (tx_encode_bs (tx_copy_msg m))) 0x7fff /\
    0 <= crc qt < 2 ^ 15 /\
    (0 <= data_len m ->
     let hdr := Z.lor (shl (addr (msg qt)) 7) (data_len (msg qt)) in
     let frame :=
       bits_of hdr 19
       ++ flat_map (fun i => bits_of (nth i (d1 (msg qt)) 0) 8)
                   (seq 0 (Z.to_nat (data_len (msg qt))))
       ++ bits_of (crc qt) 15 in
     let s := stuff [true] frame ++ [true] in
     crc qt
     = Z.land
         (fold_left
            (fun c i =>
               crcbits c (Z.land (nth i (d1 (msg qt)) 0) (lowmask 8)) 8)
            (seq 0 (Z.to_nat (data_len (msg qt))))
            (crcbits 0 (Z.land hdr (lowmask 19)) 19))
         0x7fff /\
     stuffed_words qt = (Z.of_nat (length s) + 31) / 32 /\
     forall p, 0 <= p < 32 * stuffed_words qt ->
       sbit (stuffed_data qt) p = nth (Z.to_nat p) s true).
Proof.
  intros Hlen. cbv zeta. unfold can2040_transmit, pending.
  destruct (TX_QUEUE_SIZE <=? u32 (tx_push_pos cd - tx_pull_pos cd));
    [reflexivity|].
  cbn [fst snd].
  set (qt := tx_encode (tx_copy_msg m)).
  set (cd1 := set_tx_push_pos _ (set_tx_queue _ cd)).
  assert (Hq : tx_queue cd1
               = set_nth (tx_queue cd) (Z.to_nat (tx_qpos (tx_push_pos cd))) qt)
    by reflexivity.
  assert (Hp : tx_push_pos cd1 = u32 (tx_push_pos cd + 1)) by reflexivity.
  set (cd2 := if parse_state_eqb (parse_state cd1) MS_START
              then tx_do_schedule cd1 else cd1).
  assert (H2 : tx_queue cd2 = tx_queue cd1 /\ tx_push_pos cd2 = tx_push_pos cd1).
  { unfold cd2. destruct (parse_state_eqb _ _);
      [apply tx_do_schedule_queue | tauto]. }
  clearbody cd2 cd1. destruct H2 as (H2 & H3).
  split; [reflexivity|]. split; [congruence|].
  assert (Hs : tx_slot cd2 (tx_push_pos cd) = qt).
  { unfold tx_slot. rewrite H2, Hq. apply nth_set_nth.
    rewrite Hlen. unfold tx_qpos, TX_QUEUE_SIZE.
    pose proof (Z.mod_pos_bound (tx_push_pos cd) 4). lia. }
  rewrite Hs. unfold qt. clear Hs Hq Hp H2 H3 cd1 cd2 qt.
  set (m' := tx_copy_msg m).
  rewrite (msg_tx_encode m').
  split; [reflexivity|]. split; [reflexivity|].
  split; [unfold m', tx_copy_msg; cbn [data_len]; apply clamp8|].
  split; [unfold m', tx_copy_msg; cbn [d1]; rewrite clamp8; reflexivity|].
  split; [apply crc_tx_encode|].
  split.
  { rewrite crc_tx_encode. change 32767 with (Z.ones 15).
    rewrite Z.land_ones by lia. apply Z.mod_pos_bound. lia. }
  intros Hl.
  pose proof (tx_encode_content m' (data_len_tx_copy_msg m Hl)) as K.
  clearbody m'. cbv zeta in K. exact K.
Qed.

Lemma can2040_transmit_spec_witness :
  length (tx_queue can2040_setup) = Z.to_nat TX_QUEUE_SIZE /\
  0 <= data_len user_msg /\
  let r := can2040_transmit can2040_setup user_msg in
  let qt := tx_slot (snd r) (tx_push_pos can2040_setup) in
  let s := stuff [true]
             (bits_of (Z.lor (shl 0x123 7) 1) 19 ++ bits_of 0xA5 8
              ++ bits_of (crc qt) 15) ++ [true] in
  (TX_QUEUE_SIZE <=? pending can2040_setup) = false /\
  fst r = 0 /\ tx_push_pos (snd r) = 1 /\
  msg qt = mk_msg 0x123 1 [0xA5; 0; 0; 0; 0; 0; 0; 0] /\
  crc qt = 0x40c /\
  crc qt = Z.land (crcbits (crcbits 0 (Z.lor (shl 0x123 7) 1) 19) 0xA5 8)
                  0x7fff /\
  stuffed_words qt = 2 /\
  stuffed_data qt = [0x12305a50; 0x82cfffff; 0; 0; 0] /\
  forall p, 0 <= p < 32 * stuffed_words qt ->
    sbit (stuffed_data qt) p = nth (Z.to_nat p) s true.
Proof.
  assert (L : length (tx_queue can2040_setup) = Z.to_nat TX_QUEUE_SIZE)
    by reflexivity.
  assert (D : 0 <= data_len user_msg) by (cbn; lia).
  split; [exact L|]. split; [exact D|].
  pose proof (can2040_transmit_spec can2040_setup user_msg L) as T.
  cbv zeta in T |- *.
  change (TX_QUEUE_SIZE <=? pending can2040_setup) with false in T |- *.
  cbv iota in T.
  destruct T as (T1 & T2 & T3 & _ & _ & _ & _ & _ & T9).
  destruct (T9 D) as (_ & _ & B).
  split; [reflexivity|]. split; [exact T1|].
  split; [vm_compute; reflexivity|]. split; [vm_compute; reflexivity|].
  split; [vm_compute; reflexivity|]. split; [vm_compute; reflexivity|].
  split; [vm_compute; reflexivity|]. split; [vm_compute; reflexivity|].
  intros p Hp. rewrite (B p Hp). reflexivity.
Defined.

(** X5.  The frame that [can2040_transmit] encodes for any message takes
    two to four words, so no write of the encoder leaves the buffer; the
    words sent hold the stuffed frame, the recessive CRC delimiter after it,
    and recessive bits up to the end of the last word. *)
Theorem tx_encode_fits_buffer (m : can2040_msg) :
  0 <= data_len m ->
  let m' := tx_copy_msg m in
  let q := tx_encode m' in
  2 <= stuffed_words q <= 4 /\
  stuffed_words q < Z.of_nat (length (stuffed_data q)) /\
  forall p, 0 <= p < 32 * stuffed_words q ->
    sbit (stuffed_data q) p
    = nth (Z.to_nat p) (tx_stream m' ++ [true]) true.
Proof.
  intros Hl. cbv zeta.
  pose proof (data_len_tx_copy_msg m Hl) as Hl'.
  destruct (tx_encode_holds _ Hl') as (_ & W & L & B & _).
  assert (LF : (34 <= length (tx_frame_bits (tx_copy_msg m)) <= 98)%nat).
  { unfold tx_frame_bits.
    rewrite !length_app, !length_bits_of, length_tx_data_bits. lia. }
  assert (Hle : (length (tx_stream (tx_copy_msg m)) <= 125)%nat)
    by (apply length_stuff_frame, LF).
  assert (Hge : (length (tx_frame_bits (tx_copy_msg m))
                 <= length (tx_stream (tx_copy_msg m)))%nat)
    by (apply length_stuff_ge).
  rewrite length_app in W. cbn [length] in W.
  assert (R : 2 <= stuffed_words (tx_encode (tx_copy_msg m)) <= 4).
  { rewrite W. split.
    - apply Z.div_le_lower_bound; lia.
    - assert (H : Z.of_nat (length (tx_stream (tx_copy_msg m)) + 1) + 31
                  < 32 * 5) by lia.
      pose proof (Z.div_lt_upper_bound _ 32 5 ltac:(lia) H). lia. }
  split; [exact R|]. split; [rewrite L; unfold STUFFED_DATA_WORDS; lia|].
  exact B.
Qed.

Lemma tx_encode_fits_buffer_witness :
  0 <= data_len user_msg /\
  let m' := tx_copy_msg user_msg in
  let q := tx_encode m' in
  2 <= stuffed_words q <= 4 /\
  stuffed_words q < Z.of_nat (length (stuffed_data q)) /\
  forall p, 0 <= p < 32 * stuffed_words q ->
    sbit (stuffed_data q) p
    = nth (Z.to_nat p) (tx_stream m' ++ [true]) true.
Proof.
  split; [cbn; lia|].
  apply (tx_encode_fits_buffer user_msg). cbn. lia.
Defined.

(** * Further properties of the CRC *)

Lemma crcbits_loop_S i crc data :
  crcbits_loop (S i) crc data
  = crcbits_loop i (crc_step crc data (Z.of_nat i)) data.
Proof. reflexivity. Qed.

(** One step of the CRC, by the bits it reads. *)
Lemma crc_step_bits crc data i :
  0 <= i ->
  crc_step crc data i
  = if eqb (Z.testbit crc 14) (Z.testbit data i)
    then shl crc 1 else Z.lxor (shl crc 1) 0x4599.
Proof.
  intros Hi. unfold crc_step. cbv zeta. rewrite !land_shr_1 by lia.
  destruct (Z.testbit crc 14), (Z.testbit data i); reflexivity.
Qed.

Lemma crcbits_loop_ext n : forall crc d d',
  (forall j, 0 <= j < Z.of_nat n -> Z.testbit d j = Z.testbit d' j) ->
  crcbits_loop n crc d = crcbits_loop n crc d'.
Proof.
  induction n as [|i IH]; intros crc d d' H; [reflexivity|].
  rewrite !crcbits_loop_S, !crc_step_bits by lia.
  rewrite (H (Z.of_nat i)) by lia. apply IH. intros j Hj. apply H. lia.
Qed.

Lemma crcbits_loop_add n : forall m crc d,
  crcbits_loop (n + m) crc d
  = crcbits_loop m (crcbits_loop n crc (shr d (Z.of_nat m))) d.
Proof.
  induction n as [|i IH]; intros m crc d; [reflexivity|].
  change (S i + m)%nat with (S (i + m)).
  rewrite !crcbits_loop_S, !crc_step_bits by lia.
  rewrite testbit_shr, IH.
  destruct (Z.ltb_spec (Z.of_nat i) 0); [lia|]. cbn [negb andb].
  replace (Z.of_nat i + Z.of_nat m) with (Z.of_nat (i + m)) by lia.
  reflexivity.
Qed.

(** X6.  The CRC of two fields one after the other is the CRC of their
    concatenation: running [crcbits] over [n] bits and then over [m] more is
    running it once over the [n + m] bits of the joined word.  This is what
    lets the encoder and the parser advance the CRC field by field. *)
Theorem crcbits_fields_compose (c a b n m : Z) :
  0 <= n -> 0 <= m -> 0 <= b < 2 ^ m ->
  crcbits (crcbits c a n) b m = crcbits c (a * 2 ^ m + b) (n + m).
Proof.
  intros Hn Hm Hb. unfold crcbits.
  rewrite Z2Nat.inj_add, crcbits_loop_add by lia.
  rewrite Z2Nat.id by lia.
  assert (E : shr (a * 2 ^ m + b) m = a).
  { unfold shr. rewrite Z.shiftr_div_pow2 by lia.
    replace (a * 2 ^ m + b) with (b + a * 2 ^ m) by lia.
    rewrite Z.div_add by lia. rewrite Z.div_small by lia. lia. }
  rewrite E. apply crcbits_loop_ext. intros j Hj.
  rewrite Z2Nat.id in Hj by lia.
  rewrite <- (Z.mod_pow2_bits_low (a * 2 ^ m + b) m j) by lia.
  replace (a * 2 ^ m + b) with (b + a * 2 ^ m) by lia.
  rewrite Z.mod_add by lia.
  rewrite Z.mod_small by lia. reflexivity.
Qed.

Lemma crcbits_fields_compose_witness :
  0 <= 11 /\ 0 <= 8 /\ 0 <= 0xA5 < 2 ^ 8 /\
  crcbits (crcbits 0 0x123 11) 0xA5 8
  = crcbits 0 (0x123 * 2 ^ 8 + 0xA5) (11 + 8).
Proof.
  split; [lia|]. split; [lia|]. split; [lia|].
  apply (crcbits_fields_compose 0 0x123 0xA5 11 8); lia.
Defined.

(** Two CRC registers with the same 15 low bits. *)
Lemma low15_bits x y :
  Z.land x 0x7fff = Z.land y 0x7fff <->
  (forall j, 0 <= j < 15 -> Z.testbit x j = Z.testbit y j).
Proof.
  change 0x7fff with (Z.ones 15). rewrite !Z.land_ones by lia. split.
  - intros E j Hj.
    rewrite <- (Z.mod_pow2_bits_low x 15 j), <- (Z.mod_pow2_bits_low y 15 j)
      by lia.
    rewrite E. reflexivity.
  - intros H. apply Z.bits_inj'. intros j Hj.
    rewrite !Z.testbit_mod_pow2 by lia.
    destruct (Z.ltb_spec j 15); [|reflexivity].
    cbn [andb]. apply H. lia.
Qed.

Lemma testbit_crc_step crc data i j :
  0 <= i -> 0 <= j < 15 ->
  Z.testbit (crc_step crc data i) j
  = xorb (Z.testbit crc (j - 1))
         (negb (eqb (Z.testbit crc 14) (Z.testbit data i))
          && Z.testbit 0x4599 j).
Proof.
  intros Hi Hj. rewrite crc_step_bits by lia.
  destruct (eqb _ _); cbn [negb andb];
    rewrite ?Z.lxor_spec, testbit_shl;
    destruct (Z.ltb_spec j 32); try lia;
    destruct (Z.ltb_spec j 0); try lia; cbn [negb andb];
    rewrite ?xorb_false_r; reflexivity.
Qed.

Lemma crcbits_loop_low15 n : forall c c' d,
  (forall j, 0 <= j < 15 -> Z.testbit c j = Z.testbit c' j) ->
  forall j, 0 <= j < 15 ->
    Z.testbit (crcbits_loop n c d) j = Z.testbit (crcbits_loop n c' d) j.
Proof.
  induction n as [|i IH]; intros c c' d H; [exact H|].
  rewrite !crcbits_loop_S. apply IH. intros j Hj.
  rewrite !testbit_crc_step by lia. rewrite (H 14) by lia.
  destruct (Z.eq_dec j 0) as [->|Hn].
  - rewrite !Z.testbit_neg_r by lia. reflexivity.
  - rewrite (H (j - 1)) by lia. reflexivity.
Qed.

(** X7.  The 15 low bits of the result of [crcbits] depend only on the 15
    low bits of the register it starts from and on the [count] low bits of
    the data: what is above in either word never reaches the CRC. *)
Theorem crcbits_reads_low_bits (c c' d d' n : Z) :
  0 <= n ->
  Z.land c 0x7fff = Z.land c' 0x7fff -> d mod 2 ^ n = d' mod 2 ^ n ->
  Z.land (crcbits c d n) 0x7fff = Z.land (crcbits c' d' n) 0x7fff.
Proof.
  intros Hn Hc Hd. unfold crcbits.
  rewrite (crcbits_loop_ext (Z.to_nat n) c d d').
  - apply low15_bits. apply crcbits_loop_low15. apply low15_bits, Hc.
  - intros j Hj.
    rewrite <- (Z.mod_pow2_bits_low d n j), <- (Z.mod_pow2_bits_low d' n j)
      by lia.
    rewrite Hd. reflexivity.
Qed.

Lemma crcbits_reads_low_bits_witness :
  0 <= 8 /\
  Z.land 0x18001 0x7fff = Z.land 1 0x7fff /\
  0x1A5 mod 2 ^ 8 = 0xA5 mod 2 ^ 8 /\
  Z.land (crcbits 0x18001 0x1A5 8) 0x7fff = Z.land (crcbits 1 0xA5 8) 0x7fff.
Proof.
  split; [lia|]. split; [reflexivity|]. split; [reflexivity|].
  apply (crcbits_reads_low_bits 0x18001 1 0x1A5 0xA5 8);
    [lia | reflexivity | reflexivity].
Defined.

Lemma crcbits_loop_own n : forall c crc,
  (n <= 15)%nat ->
  (forall j, 0 <= j < 15 ->
     Z.testbit crc j
     = (15 - Z.of_nat n <=? j) && Z.testbit c (j - (15 - Z.of_nat n))) ->
  forall j, 0 <= j < 15 ->
    Z.testbit (crcbits_loop n crc (Z.land c 0x7fff)) j = false.
Proof.
  induction n as [|i IH]; intros c crc Hn H j Hj.
  - cbn [crcbits_loop]. rewrite H by lia.
    destruct (Z.leb_spec (15 - Z.of_nat 0) j); [lia | reflexivity].
  - rewrite crcbits_loop_S. apply (IH c); [lia | | exact Hj].
    intros k Hk. rewrite testbit_crc_step by lia.
    assert (E : Z.testbit (Z.land c 0x7fff) (Z.of_nat i)
                = Z.testbit c (Z.of_nat i)).
    { change 0x7fff with (Z.ones 15).
      rewrite Z.land_spec, Z.testbit_ones_nonneg by lia.
      destruct (Z.ltb_spec (Z.of_nat i) 15); [apply andb_true_r | lia]. }
    rewrite E, (H 14) by lia.
    destruct (Z.leb_spec (15 - Z.of_nat (S i)) 14); [|lia].
    replace (14 - (15 - Z.of_nat (S i))) with (Z.of_nat i) by lia.
    cbn [andb]. rewrite eqb_reflx. cbn [negb andb]. rewrite xorb_false_r.
    destruct (Z.eq_dec k 0) as [->|Hk0].
    + rewrite Z.testbit_neg_r by lia.
      destruct (Z.leb_spec (15 - Z.of_nat i) 0); [lia | reflexivity].
    + rewrite H by lia.
      destruct (Z.leb_spec (15 - Z.of_nat (S i)) (k - 1)),
               (Z.leb_spec (15 - Z.of_nat i) k); try lia; cbn [andb];
        first [reflexivity | f_equal; lia].
Qed.

(** X8.  A message followed by its own CRC has remainder zero: running
    [crcbits] over the 15 low bits of the register leaves the 15 low bits of
    the register zero, whatever the register holds. *)
Theorem crcbits_own_crc_is_zero (c : Z) :
  Z.land (crcbits c (Z.land c 0x7fff) 15) 0x7fff = 0.
Proof.
  change 0x7fff with (Z.ones 15) at 2. apply land_ones_eq0; [lia|].
  unfold crcbits. change (Z.to_nat 15) with 15%nat.
  apply (crcbits_loop_own 15 c c); [lia|].
  intros j Hj. change (15 - Z.of_nat 15) with 0.
  destruct (Z.leb_spec 0 j); [|lia]. rewrite Z.sub_0_r. reflexivity.
Qed.

(** * The handlers of the parser, field by field *)

Lemma update_start_bad cd data :
  (Z.land data (Z.lor (Z.shiftl 1 18) (Z.shiftl 7 4)) =? 0) = false ->
  data_state_update_start cd data = data_state_go_discard cd.
Proof. intros E. unfold data_state_update_start. rewrite E. reflexivity. Qed.

Lemma update_start_ok cd data :
  (Z.land data (Z.lor (Z.shiftl 1 18) (Z.shiftl 7 4)) =? 0) = true ->
  let cd' := data_state_update_start cd data in
  let rdlc := Z.land data 0xf in
  let dlc := if 8 <? rdlc then 8 else rdlc in
  parse_msg cd' = mk_msg (Z.land (shr data 7) 0x7ff) dlc (repeat 0 8) /\
  parse_datapos cd' = 0 /\
  if dlc <=? 0
  then parse_state cd' = MS_CRC /\
       parse_crc cd' = Z.land (crcbits 0 data 18) 0x7fff /\
       unstuf cd' = unstuf_set_count (unstuf cd) 15
  else parse_state cd' = MS_DATA /\
       parse_crc cd' = crcbits 0 data 18 /\
       unstuf cd' = unstuf_set_count (unstuf cd) 8.
Proof.
  intros E. cbv zeta. unfold data_state_update_start. rewrite E.
  cbn [negb]. generalize (crcbits 0 data 18) as c; intro c.
  cbn [parse_datapos set_parse_datapos].
  set (dlc := if 8 <? Z.land data 15 then 8 else Z.land data 15).
  destruct (dlc <=? 0).
  - match goal with |- context [data_state_go_crc ?c] =>
      pose proof (data_state_go_crc_parse c) as H end.
    cbv zeta in H. destruct H as (H1 & H2 & H3 & H4 & H5 & H6).
    unfold pio_sync_enable_idle_irq.
    match goal with |- context [emit ?e ?c] =>
      destruct (emit_parse e c) as (E1 & E2 & E3 & E4 & E5 & E6) end.
    rewrite E1, E3, E4, E5, E6, H1, H3, H4, H5, H6.
    repeat split; reflexivity.
  - repeat split; reflexivity.
Qed.

Lemma update_data_fields cd data :
  let cd' := data_state_update_data cd data in
  let pm := parse_msg cd in
  let pos' := u32 (parse_datapos cd + 1) in
  let c' := crcbits (parse_crc cd) data 8 in
  parse_msg cd'
  = mk_msg (addr pm) (data_len pm)
           (set_nth (d1 pm) (Z.to_nat (parse_datapos cd)) (data mod 2 ^ 8)) /\
  parse_datapos cd' = pos' /\
  if data_len pm <=? pos'
  then parse_state cd' = MS_CRC /\ parse_crc cd' = Z.land c' 0x7fff /\
       unstuf cd' = unstuf_set_count (unstuf cd) 15
  else parse_state cd' = parse_state cd /\ parse_crc cd' = c' /\
       unstuf cd' = unstuf_set_count (unstuf cd) 8.
Proof.
  cbv zeta. unfold data_state_update_data.
  generalize (crcbits (parse_crc cd) data 8) as c; intro c.
  cbn [parse_msg set_parse_msg set_parse_datapos set_parse_crc data_len
       parse_datapos].
  destruct (data_len (parse_msg cd) <=? u32 (parse_datapos cd + 1)).
  - match goal with |- context [data_state_go_crc ?c] =>
      pose proof (data_state_go_crc_parse c) as H end.
    cbv zeta in H. destruct H as (H1 & H2 & H3 & H4 & H5 & H6).
    rewrite H1, H3, H4, H5, H6. repeat split; reflexivity.
  - repeat split; reflexivity.
Qed.

Lemma update_crc_fields cd data :
  let cd' := data_state_update_crc cd data in
  parse_crc cd' = parse_crc cd /\ parse_msg cd' = parse_msg cd /\
  parse_datapos cd' = parse_datapos cd /\
  if parse_crc cd =? data
  then parse_state cd' = MS_ACK /\
       unstuf cd' = unstuf_set_count (unstuf_clear_state (unstuf cd)) 2
  else parse_state cd' = MS_DISCARD /\
       unstuf cd' = unstuf_set_count (unstuf cd) 8.
Proof.
  cbv zeta. unfold data_state_update_crc.
  destruct (parse_crc cd =? data); cbn [negb]; repeat split; reflexivity.
Qed.

Lemma update_ack_fields cd data :
  let cd' := data_state_update_ack cd data in
  parse_crc cd' = parse_crc cd /\ parse_msg cd' = parse_msg cd /\
  parse_datapos cd' = parse_datapos cd /\
  if data =? 0x02
  then parse_state cd' = MS_EOF /\
       unstuf cd' = unstuf_set_count (unstuf cd) 6
  else parse_state cd' = MS_DISCARD /\
       unstuf cd' = unstuf_set_count (unstuf cd) 8.
Proof.
  cbv zeta. unfold data_state_update_ack.
  destruct (data =? 2); cbn [negb]; [repeat split; reflexivity|].
  destruct (pio_rx_check_stall _); repeat split; reflexivity.
Qed.

(** * Stuff bits where the receiver meets them *)

Lemma run5_after_due h x : run5 (x :: negb (nth 0 h false) :: h) = false.
Proof.
  unfold run5. cbn [nth].
  destruct x, (nth 0 h false); reflexivity.
Qed.

Lemma stuff_due_after h x : stuff_due (x :: negb (nth 0 h false) :: h) = [].
Proof. unfold stuff_due. rewrite run5_after_due. reflexivity. Qed.

Lemma lstuff_due data : forall h,
  lstuff h data ++ stuff_due (rev (lstuff h data) ++ h)
  = stuff_due h ++ stuff (rev (stuff_due h) ++ h) data.
Proof.
  induction data as [|d r IH]; intros h.
  - cbn [lstuff stuff rev app]. rewrite app_nil_r. reflexivity.
  - cbn [lstuff]. unfold stuff_due at 2 3. destruct (run5 h) eqn:E.
    + cbv zeta. set (s := negb (nth 0 h false)).
      assert (R : run5 (d :: s :: h) = false) by apply run5_after_due.
      assert (R' : stuff_due (d :: s :: h) = []) by apply stuff_due_after.
      cbn [rev app stuff]. rewrite R.
      rewrite <- !app_assoc. cbn [app].
      rewrite (IH (d :: s :: h)), R'. reflexivity.
    + cbn [rev app stuff]. rewrite <- !app_assoc. cbn [app].
      rewrite (IH (d :: h)). unfold stuff_due.
      destruct (run5 (d :: h)) eqn:E'; cbn [rev app nth]; reflexivity.
Qed.

Lemma lstuff_app a : forall h b,
  lstuff h (a ++ b) = lstuff h a ++ lstuff (rev (lstuff h a) ++ h) b.
Proof.
  induction a as [|d r IH]; intros h b; [reflexivity|].
  cbn [app lstuff]. destruct (run5 h).
  - cbn [rev app]. rewrite IH, <- !app_assoc. reflexivity.
  - cbn [rev app]. rewrite IH, <- !app_assoc. reflexivity.
Qed.

Lemma lstuff_ext data : forall h h',
  (forall j, (j < 5)%nat -> nth j h false = nth j h' false) ->
  lstuff h data = lstuff h' data.
Proof.
  induction data as [|d r IH]; intros h h' H; [reflexivity|].
  cbn [lstuff]. rewrite (run5_ext5 h h' H), (H 0%nat) by lia.
  destruct (run5 h').
  - cbv zeta. f_equal. f_equal. apply IH.
    intros [|[|j]] Hj; cbn [nth]; try reflexivity. apply H. lia.
  - f_equal. apply IH.
    intros [|j] Hj; cbn [nth]; try reflexivity. apply H. lia.
Qed.

(** A dominant bit after a recessive one hides what came before. *)
Lemma run5_edge l t t' :
  run5 (l ++ false :: true :: t) = run5 (l ++ false :: true :: t').
Proof.
  destruct l as [|a [|b [|c [|e [|g l]]]]]; unfold run5; cbn [app nth];
    rewrite ?andb_false_r, ?andb_false_l; reflexivity.
Qed.

Lemma stuff_edge data : forall l t t',
  stuff (l ++ false :: true :: t) data = stuff (l ++ false :: true :: t') data.
Proof.
  induction data as [|d r IH]; intros l t t'; [reflexivity|].
  cbn [stuff].
  change (d :: l ++ false :: true :: t) with ((d :: l) ++ false :: true :: t).
  change (d :: l ++ false :: true :: t') with ((d :: l) ++ false :: true :: t').
  rewrite (run5_edge (d :: l) t t').
  destruct (run5 _).
  - f_equal. f_equal. apply (IH (negb d :: d :: l)).
  - f_equal. apply (IH (d :: l)).
Qed.

(** * The window of the unstuffer, one raw bit further *)

Lemma rx_only_refl cd : rx_only cd cd.
Proof.
  exists (unstuf cd), (raw_bit_count cd). destruct cd. reflexivity.
Qed.

Lemma rx_only_load cd cd1 b : rx_only cd cd1 -> rx_only cd (rx_load cd1 b).
Proof. intros (bu & rc & ->). eexists _, _. reflexivity. Qed.

Lemma rx_only_set_unstuf cd cd1 bu :
  rx_only cd cd1 -> rx_only cd (set_unstuf bu cd1).
Proof. intros (bu1 & rc & ->). eexists _, _. reflexivity. Qed.

Lemma rx_only_fields cd cd' :
  rx_only cd cd' -> parse_fields cd' = parse_fields cd.
Proof. intros (bu & rc & ->). reflexivity. Qed.

Lemma rx_window_load cd b r hs p ub cu :
  count_stuff (unstuf cd) = 0 ->
  rx_window cd (b :: r) hs p ub cu -> rx_window (rx_load cd b) r hs p ub cu.
Proof.
  intros Hcs (W0 & W1 & W2 & W3 & W4). unfold rx_window, rx_future in *.
  rewrite Hcs in W1, W2. change (Z.to_nat 0) with 0%nat in W1.
  change (bits_of (stuffed_bits (unstuf cd)) 0) with (@nil bool) in W1.
  cbn [app flat_map] in W1.
  change (unstuf (rx_load cd b))
    with (unstuf_add_bits (unstuf cd) b 8).
  unfold unstuf_add_bits.
  cbn [stuffed_bits count_stuff unstuffed_bits count_unstuff].
  split; [lia|]. split; [|split; [|split; assumption]].
  - rewrite <- W1. f_equal. change (Z.to_nat 8) with 8%nat.
    apply bits_of_ext. intros j Hj.
    rewrite testbit_add_bits by lia.
    destruct (Z.ltb_spec j 8); [reflexivity | lia].
  - intros j Hj. rewrite <- (W2 j Hj), testbit_add_bits by lia.
    destruct (Z.ltb_spec (8 + Z.of_nat j) 8); [lia|].
    destruct (Z.ltb_spec (8 + Z.of_nat j) 32); [|lia].
    cbn [andb]. f_equal. lia.
Qed.

(** The next raw bit leaves the window. *)
Lemma rx_window_consume cd bytes hs b rest ub cu ub' cu' :
  rx_window cd bytes hs (b :: rest) ub cu ->
  0 < count_stuff (unstuf cd) ->
  let sb := stuffed_bits (unstuf cd) in
  let cs := count_stuff (unstuf cd) in
  Z.testbit sb (cs - 1) = b /\
  eq5 sb cs = run5 hs /\ Z.testbit sb cs = nth 0 hs false /\
  rx_window (set_unstuf (mk_unstuf sb (cs - 1) ub' cu') cd) bytes
            (b :: hs) rest ub' cu'.
Proof.
  intros (W0 & W1 & W2 & W3 & W4) Hcs. cbv zeta.
  unfold rx_window, rx_future in *.
  cbn [unstuf set_unstuf stuffed_bits count_stuff unstuffed_bits
       count_unstuff].
  set (sb := stuffed_bits (unstuf cd)) in *.
  set (cs := count_stuff (unstuf cd)) in *.
  replace (Z.to_nat cs) with (S (Z.to_nat (cs - 1))) in W1 by lia.
  rewrite bits_of_S in W1. cbn [app] in W1. inversion W1 as [[E1 E2]].
  rewrite Z2Nat.id in * by lia.
  split; [reflexivity|]. split; [|split].
  - rewrite <- run5_hist. apply run5_ext5. intros j Hj.
    rewrite nth_hist by lia. apply W2, Hj.
  - rewrite <- (W2 0%nat) by lia. f_equal. lia.
  - split; [lia|]. split; [reflexivity|]. split; [|split; reflexivity].
    intros [|j] Hj; cbn [nth].
    + f_equal. lia.
    + rewrite <- (W2 j) by lia. f_equal. lia.
Qed.

(** Before a raw bit is consumed a byte is loaded if the window is used
    up. *)
Lemma rx_run_one cd bytes hs b rest ub cu :
  rx_window cd bytes hs (b :: rest) ub cu ->
  exists cd1 bytes1,
    (forall n, rx_run (S n) cd bytes = rx_run n (rx_step cd1) bytes1) /\
    rx_only cd cd1 /\ rx_window cd1 bytes1 hs (b :: rest) ub cu /\
    0 < count_stuff (unstuf cd1).
Proof.
  intros W. pose proof W as (W0 & W1 & _).
  destruct (Z.eqb_spec (count_stuff (unstuf cd)) 0) as [E|E].
  - destruct bytes as [|byte r].
    + unfold rx_future in W1. rewrite E in W1. discriminate.
    + exists (rx_load cd byte), r. split; [|split; [|split]].
      * intros n. rewrite rx_run_S, E. reflexivity.
      * apply rx_only_load, rx_only_refl.
      * apply rx_window_load; assumption.
      * reflexivity.
  - exists cd, bytes. split; [|split; [|split]].
    + intros n. rewrite rx_run_S.
      destruct (Z.eqb_spec (count_stuff (unstuf cd)) 0); [lia|reflexivity].
    + apply rx_only_refl.
    + exact W.
    + lia.
Qed.

(** A data bit that does not complete the field. *)
Lemma rx_data_bit cd bytes hs b rest ub cu :
  rx_window cd bytes hs (b :: rest) ub cu ->
  run5 hs = false -> cu <> 1 ->
  exists cd' bytes',
    (forall n, rx_run (S n) cd bytes = rx_run n cd' bytes') /\
    rx_only cd cd' /\
    rx_window cd' bytes' (b :: hs) rest
              (Z.lor ub (shl (Z.b2z b) (cu - 1))) (cu - 1).
Proof.
  intros W R Hcu.
  destruct (rx_run_one _ _ _ _ _ _ _ W) as (cd1 & bytes1 & S1 & O1 & W1 & C1).
  pose proof W1 as (_ & _ & _ & U1 & U2).
  destruct (rx_window_consume _ _ _ _ _ _ _
              (Z.lor ub (shl (Z.b2z b) (cu - 1))) (cu - 1) W1 C1)
    as (B & E5 & _ & W').
  eexists _, bytes1. split; [|split; [|exact W']].
  - intros n. rewrite S1. unfold rx_step. rewrite E5, R, B, U1, U2.
    destruct (Z.eqb_spec (cu - 1) 0); [lia | reflexivity].
  - apply rx_only_set_unstuf, O1.
Qed.

(** A stuff bit. *)
Lemma rx_drop_bit cd bytes hs b rest ub cu :
  rx_window cd bytes hs (b :: rest) ub cu ->
  run5 hs = true -> b = negb (nth 0 hs false) ->
  exists cd' bytes',
    (forall n, rx_run (S n) cd bytes = rx_run n cd' bytes') /\
    rx_only cd cd' /\ rx_window cd' bytes' (b :: hs) rest ub cu.
Proof.
  intros W R Hb.
  destruct (rx_run_one _ _ _ _ _ _ _ W) as (cd1 & bytes1 & S1 & O1 & W1 & C1).
  pose proof W1 as (_ & _ & _ & U1 & U2).
  destruct (rx_window_consume _ _ _ _ _ _ _ ub cu W1 C1)
    as (B & E5 & E0 & W').
  eexists _, bytes1. split; [|split; [|exact W']].
  - intros n. rewrite S1. unfold rx_step. rewrite E5, R, B, E0, U1, U2, Hb.
    rewrite eqb_negb1. reflexivity.
  - apply rx_only_set_unstuf, O1.
Qed.

(** The data bit that completes the field: the handler runs. *)
Lemma rx_last_bit cd bytes hs b rest ub :
  rx_window cd bytes hs (b :: rest) ub 1 ->
  run5 hs = false ->
  let v := Z.lor ub (shl (Z.b2z b) 0) in
  exists cdm bytes',
    (forall n, rx_run (S n) cd bytes
               = rx_run n (data_state_update cdm v) bytes') /\
    rx_only cd cdm /\ rx_window cdm bytes' (b :: hs) rest v 0.
Proof.
  intros W R v.
  destruct (rx_run_one _ _ _ _ _ _ _ W) as (cd1 & bytes1 & S1 & O1 & W1 & C1).
  pose proof W1 as (_ & _ & _ & U1 & U2).
  destruct (rx_window_consume _ _ _ _ _ _ _ v 0 W1 C1)
    as (B & E5 & _ & W').
  eexists _, bytes1. split; [|split; [|exact W']].
  - intros n. rewrite S1. unfold rx_step. rewrite E5, R, B, U1, U2.
    reflexivity.
  - apply rx_only_set_unstuf, O1.
Qed.

(** The sixth equal bit. *)
Lemma rx_sixth_bit cd bytes hs b rest ub cu :
  rx_window cd bytes hs (b :: rest) ub cu ->
  run5 hs = true -> b = nth 0 hs false ->
  exists cdm bytes',
    (forall n, rx_run (S n) cd bytes
               = rx_run n (if b then data_state_go_idle cdm
                           else data_state_go_error cdm) bytes') /\
    rx_only cd cdm /\ rx_window cdm bytes' (b :: hs) rest ub cu.
Proof.
  intros W R Hb.
  destruct (rx_run_one _ _ _ _ _ _ _ W) as (cd1 & bytes1 & S1 & O1 & W1 & C1).
  pose proof W1 as (_ & _ & _ & U1 & U2).
  destruct (rx_window_consume _ _ _ _ _ _ _ ub cu W1 C1)
    as (B & E5 & E0 & W').
  eexists _, bytes1. split; [|split; [|exact W']].
  - intros n. rewrite S1. unfold rx_step. rewrite E5, R, B, E0, U1, U2, <- Hb.
    rewrite eqb_reflx. reflexivity.
  - apply rx_only_set_unstuf, O1.
Qed.

Lemma run5_after_stuff_bit h : run5 (negb (nth 0 h false) :: h) = false.
Proof.
  unfold run5. cbn [nth]. destruct (nth 0 h false); reflexivity.
Qed.

Lemma rx_window_set_count cd cd' bytes hs p ub cu n :
  unstuf cd' = unstuf_set_count (unstuf cd) n ->
  rx_window cd bytes hs p ub cu -> rx_window cd' bytes hs p 0 n.
Proof.
  intros E (W0 & W1 & W2 & _). unfold rx_window, rx_future in *.
  rewrite E. cbn [unstuf_set_count stuffed_bits count_stuff unstuffed_bits
                  count_unstuff].
  split; [exact W0|]. split; [exact W1|]. split; [exact W2|].
  split; reflexivity.
Qed.

Lemma rx_window_ext cd bytes hs hs' p ub cu :
  (forall j, (j < 5)%nat -> nth j hs false = nth j hs' false) ->
  rx_window cd bytes hs p ub cu -> rx_window cd bytes hs' p ub cu.
Proof.
  intros H (W0 & W1 & W2 & W3 & W4).
  split; [exact W0|]. split; [exact W1|]. split; [|split; assumption].
  intros j Hj. rewrite <- H by exact Hj. apply W2, Hj.
Qed.

Lemma rx_only_trans a b c : rx_only a b -> rx_only b c -> rx_only a c.
Proof. intros (bu & rc & ->) (bu' & rc' & ->). eexists _, _. reflexivity. Qed.

(** A whole field: the raw bits that carry the data bits [f] are consumed,
    the stuff bits among them dropped, and the handler of the parser runs on
    the value collected. *)
Lemma rx_field f : forall cd bytes hs rest ub,
  f <> [] ->
  rx_window cd bytes hs (lstuff hs f ++ rest) ub (Z.of_nat (length f)) ->
  let v := or_bits ub f (Z.of_nat (length f)) in
  exists cdm bytes',
    (forall n, rx_run (length (lstuff hs f) + n) cd bytes
               = rx_run n (data_state_update cdm v) bytes') /\
    rx_only cd cdm /\
    rx_window cdm bytes' (rev (lstuff hs f) ++ hs) rest v 0.
Proof.
  induction f as [|d r IH]; intros cd bytes hs rest ub Hne W;
    [congruence|]. clear Hne. cbv zeta.
  assert (Aux : forall cd1 bytes1 hs1,
    run5 hs1 = false ->
    rx_window cd1 bytes1 hs1 (d :: lstuff (d :: hs1) r ++ rest) ub
              (Z.of_nat (length (d :: r))) ->
    exists cdm bytes',
      (forall n, rx_run (S (length (lstuff (d :: hs1) r) + n)) cd1 bytes1
                 = rx_run n (data_state_update cdm
                     (or_bits ub (d :: r) (Z.of_nat (length (d :: r)))))
                     bytes') /\
      rx_only cd1 cdm /\
      rx_window cdm bytes' (rev (lstuff (d :: hs1) r) ++ d :: hs1) rest
                (or_bits ub (d :: r) (Z.of_nat (length (d :: r)))) 0).
  { intros cd1 bytes1 hs1 R1 W1. cbn [or_bits].
    replace (Z.of_nat (length (d :: r)) - 1) with (Z.of_nat (length r))
      by (cbn [length]; lia).
    destruct r as [|d' r'].
    - cbn [lstuff length app rev or_bits] in *.
      change (Z.of_nat 1) with 1 in W1. change (Z.of_nat 0) with 0.
      destruct (rx_last_bit _ _ _ _ _ _ W1 R1) as (cdm & b' & S1 & O1 & Wm).
      exists cdm, b'. split; [|split; assumption].
      intros n. apply S1.
    - destruct (rx_data_bit _ _ _ _ _ _ _ W1 R1) as (cd2 & b2 & S2 & O2 & W2);
        [cbn [length]; lia|].
      replace (Z.of_nat (length (d :: d' :: r')) - 1)
        with (Z.of_nat (length (d' :: r'))) in W2 by (cbn [length]; lia).
      destruct (IH cd2 b2 (d :: hs1) rest _ ltac:(discriminate) W2)
        as (cdm & b' & S3 & O3 & W3).
      exists cdm, b'. split; [|split].
      + intros n. rewrite S2. apply S3.
      + eapply rx_only_trans; eassumption.
      + exact W3. }
  cbn [lstuff] in W |- *. destruct (run5 hs) eqn:R.
  - cbv zeta in W |- *. set (s := negb (nth 0 hs false)) in *.
    cbn [app] in W.
    destruct (rx_drop_bit _ _ _ _ _ _ _ W R eq_refl)
      as (cd1 & b1 & S1 & O1 & W1).
    destruct (Aux cd1 b1 (s :: hs) (run5_after_stuff_bit hs) W1)
      as (cdm & b' & S2 & O2 & W2).
    exists cdm, b'. split; [|split].
    + intros n. cbn [length Nat.add]. rewrite S1. apply S2.
    + eapply rx_only_trans; eassumption.
    + cbn [rev]. rewrite <- !app_assoc. exact W2.
  - cbn [app] in W.
    destruct (Aux cd bytes hs R W) as (cdm & b' & S2 & O2 & W2).
    exists cdm, b'. split; [|split].
    + intros n. cbn [length Nat.add]. apply S2.
    + exact O2.
    + cbn [rev]. rewrite <- !app_assoc. exact W2.
Qed.

(** * The frame of a message, as sent and as parsed *)

Lemma testbit_high w n j :
  0 <= w < 2 ^ n -> 0 <= n <= j -> Z.testbit w j = false.
Proof.
  intros Hw Hj. rewrite <- (Z.mod_small w (2 ^ n)) by lia.
  apply Z.mod_pow2_bits_high. lia.
Qed.

Lemma or_bits_value v n :
  (n <= 32)%nat -> 0 <= v < 2 ^ Z.of_nat n ->
  or_bits 0 (bits_of v n) (Z.of_nat n) = v.
Proof.
  intros Hn Hv. pose proof (or_bits_field (bits_of v n)) as H.
  cbv zeta in H. rewrite length_bits_of in H.
  destruct (H Hn) as (R & B). apply (bits_of_inj n); assumption.
Qed.

Lemma testbit_tx_hdr m j :
  msg_wf m -> 0 <= j ->
  Z.testbit (tx_hdr m) j
  = if j <? 4 then Z.testbit (data_len m) j
    else if j <? 7 then false
    else if j <? 18 then Z.testbit (addr m) (j - 7) else false.
Proof.
  intros (Ha & Hl & _) Hj. unfold tx_hdr.
  rewrite Z.lor_spec, testbit_shl.
  assert (Tl : 4 <= j -> Z.testbit (data_len m) j = false).
  { intros H. apply (testbit_high _ 4); lia. }
  assert (Ta : 18 <= j -> Z.testbit (addr m) (j - 7) = false).
  { intros H. apply (testbit_high _ 11); lia. }
  assert (Tn : j < 7 -> Z.testbit (addr m) (j - 7) = false).
  { intros H. apply Z.testbit_neg_r. lia. }
  destruct (Z.ltb_spec j 4), (Z.ltb_spec j 7), (Z.ltb_spec j 18),
           (Z.ltb_spec j 32), (Z.ltb_spec j 0); try lia;
    cbn [negb andb orb]; rewrite ?Tl, ?Ta, ?Tn by lia;
    rewrite ?orb_false_r, ?andb_false_r; reflexivity.
Qed.

Lemma tx_hdr_range m : msg_wf m -> 0 <= tx_hdr m < 2 ^ 18.
Proof.
  intros Hm. pose proof Hm as (Ha & Hl & _).
  assert (N : 0 <= tx_hdr m).
  { unfold tx_hdr. apply Z.lor_nonneg. split; [apply u32_range | lia]. }
  assert (E : tx_hdr m = tx_hdr m mod 2 ^ 18).
  { apply Z.bits_inj'. intros j Hj.
    rewrite Z.testbit_mod_pow2 by lia.
    rewrite (testbit_tx_hdr m j Hm Hj).
    destruct (Z.ltb_spec j 4), (Z.ltb_spec j 7), (Z.ltb_spec j 18);
      try lia; reflexivity. }
  rewrite E. apply Z.mod_pos_bound. lia.
Qed.

Lemma testbit_7_shl_4 j :
  0 <= j -> Z.testbit (Z.shiftl 7 4) j = (4 <=? j) && (j <? 7).
Proof.
  intros Hj. rewrite Z.shiftl_spec by lia.
  destruct (Z.leb_spec 4 j).
  - change 7 with (Z.ones 3) at 1. rewrite Z.testbit_ones_nonneg' by lia.
    destruct (Z.ltb_spec (j - 4) 3), (Z.ltb_spec j 7); try lia; reflexivity.
  - apply Z.testbit_neg_r. lia.
Qed.

Lemma tx_hdr_reserved m :
  msg_wf m ->
  (Z.land (tx_hdr m) (Z.lor (Z.shiftl 1 18) (Z.shiftl 7 4)) =? 0) = true.
Proof.
  intros Hm. apply Z.eqb_eq. apply Z.bits_inj'. intros j Hj.
  rewrite Z.land_spec, Z.lor_spec, Z.bits_0, (testbit_tx_hdr m j Hm Hj).
  rewrite testbit_7_shl_4, Z.shiftl_1_l, Z.pow2_bits_eqb by lia.
  pose proof Hm as (_ & Hl & _).
  assert (Tl : 4 <= j -> Z.testbit (data_len m) j = false).
  { intros H. apply (testbit_high _ 4); lia. }
  destruct (Z.ltb_spec j 4), (Z.ltb_spec j 7), (Z.ltb_spec j 18),
           (Z.eqb_spec 18 j), (Z.leb_spec 4 j); try lia;
    cbn [andb orb]; rewrite ?andb_false_r; reflexivity.
Qed.

Lemma tx_hdr_dlc m : msg_wf m -> Z.land (tx_hdr m) 0xf = data_len m.
Proof.
  intros Hm. pose proof Hm as (_ & Hl & _).
  change 15 with (Z.ones 4). rewrite Z.land_ones by lia.
  apply Z.bits_inj'. intros j Hj.
  rewrite Z.testbit_mod_pow2 by lia.
  rewrite (testbit_tx_hdr m j Hm Hj).
  destruct (Z.ltb_spec j 4); [reflexivity|]. cbn [andb].
  symmetry. apply (testbit_high _ 4); lia.
Qed.

Lemma tx_hdr_addr m : msg_wf m -> Z.land (shr (tx_hdr m) 7) 0x7ff = addr m.
Proof.
  intros Hm. pose proof Hm as (Ha & _).
  change 2047 with (Z.ones 11). rewrite Z.land_ones by lia.
  apply Z.bits_inj'. intros j Hj.
  rewrite Z.testbit_mod_pow2, testbit_shr by lia.
  rewrite (testbit_tx_hdr m (j + 7) Hm) by lia.
  replace (j + 7 - 7) with j by lia.
  destruct (Z.ltb_spec j 11), (Z.ltb_spec j 0), (Z.ltb_spec (j + 7) 4),
           (Z.ltb_spec (j + 7) 7), (Z.ltb_spec (j + 7) 18); try lia;
    cbn [negb andb]; try reflexivity.
  symmetry. apply (testbit_high _ 11); lia.
Qed.

Lemma crcbits_hdr m :
  msg_wf m ->
  crcbits 0 (Z.land (tx_hdr m) (lowmask 19)) 19 = crcbits 0 (tx_hdr m) 18.
Proof.
  intros Hm. pose proof (tx_hdr_range m Hm) as R.
  rewrite lowmask_ones, Z.land_ones, Z.mod_small by lia.
  unfold crcbits. change (Z.to_nat 19) with 19%nat.
  change (Z.to_nat 18) with 18%nat.
  rewrite crcbits_loop_S, crc_step_bits by lia.
  rewrite (testbit_high (tx_hdr m) 18) by lia.
  reflexivity.
Qed.

Lemma rx_crc_S m k :
  rx_crc m (S k) = crcbits (rx_crc m k) (nth k (d1 m) 0) 8.
Proof.
  unfold rx_crc. rewrite seq_S, fold_left_app. reflexivity.
Qed.

Lemma nth_byte m i : msg_wf m -> 0 <= nth i (d1 m) 0 < 256.
Proof.
  intros (_ & _ & _ & F).
  destruct (Nat.lt_ge_cases i (length (d1 m))) as [H|H].
  - rewrite Forall_forall in F. apply F, nth_In, H.
  - rewrite nth_overflow by exact H. lia.
Qed.

(** The CRC of the transmit slot is the CRC the parser has computed when
    it has read header and data. *)
Lemma crc_tx_encode_rx m :
  msg_wf m ->
  crc (tx_encode m)
  = Z.land (rx_crc m (Z.to_nat (data_len m))) 0x7fff.
Proof.
  intros Hm. pose proof Hm as (_ & Hl & _).
  rewrite crc_tx_encode. f_equal.
  destruct (tx_encode_bs_holds m Hl) as (_ & E). rewrite E. clear E.
  rewrite (crcbits_hdr m Hm). unfold rx_crc.
  generalize (crcbits 0 (tx_hdr m) 18) as c.
  induction (seq 0 (Z.to_nat (data_len m))) as [|i l IH]; intros c;
    [reflexivity|].
  cbn [fold_left]. rewrite IH. f_equal. f_equal.
  pose proof (nth_byte m i Hm).
  rewrite lowmask_ones, Z.land_ones, Z.mod_small by lia. reflexivity.
Qed.

Lemma set_nth_fill k : forall (l : list Z) c,
  (k < length l)%nat ->
  set_nth (firstn k l ++ repeat 0 (S c)) k (nth k l 0)
  = firstn (S k) l ++ repeat 0 c.
Proof.
  induction k as [|k IH]; intros l c H; destruct l as [|x l];
    cbn [length] in H; try lia.
  - reflexivity.
  - cbn [firstn app set_nth nth]. f_equal. apply IH. lia.
Qed.

Lemma tx_frame_bits_sof m :
  msg_wf m ->
  tx_frame_bits m
  = false :: bits_of (tx_hdr m) 18 ++ tx_data_bits m
             ++ bits_of (crc (tx_encode m)) 15.
Proof.
  intros Hm. unfold tx_frame_bits.
  change 19%nat with (S 18). rewrite bits_of_S.
  rewrite (testbit_high (tx_hdr m) 18) by
    (pose proof (tx_hdr_range m Hm); lia).
  reflexivity.
Qed.

(** The stream of a frame as the receiver meets it: the start-of-frame
    bit, the fields with the stuff bits before the data bits they precede,
    and the stuff bit that may be due after the CRC. *)
Lemma tx_stream_lstuff m :
  msg_wf m ->
  let h1 := [false; true; true; true; true] in
  let F := bits_of (tx_hdr m) 18 ++ tx_data_bits m
           ++ bits_of (crc (tx_encode m)) 15 in
  tx_stream m
  = false :: lstuff h1 F ++ stuff_due (rev (lstuff h1 F) ++ h1).
Proof.
  intros Hm. cbv zeta. unfold tx_stream. rewrite (tx_frame_bits_sof m Hm).
  generalize (bits_of (tx_hdr m) 18 ++ tx_data_bits m
              ++ bits_of (crc (tx_encode m)) 15) as F.
  intros F. cbn [stuff].
  change (run5 [false; true]) with false. cbv iota. f_equal.
  rewrite (lstuff_due F [false; true; true; true; true]).
  change (stuff_due [false; true; true; true; true]) with (@nil bool).
  cbn [rev app].
  apply (stuff_edge F [] [] [true; true; true]).
Qed.

(** * The parser along the frame of a message *)

Lemma rx_reaches_refl cd bytes : rx_reaches 0 cd bytes cd bytes.
Proof. intros n. reflexivity. Qed.

Lemma rx_reaches_trans N M cd bytes cd1 bytes1 cd2 bytes2 :
  rx_reaches N cd bytes cd1 bytes1 -> rx_reaches M cd1 bytes1 cd2 bytes2 ->
  rx_reaches (N + M) cd bytes cd2 bytes2.
Proof.
  intros H1 H2 n. rewrite <- Nat.add_assoc, H1. apply H2.
Qed.

Lemma data_state_update_at_start cd data :
  parse_state cd = MS_START ->
  data_state_update cd data = data_state_update_start cd data.
Proof. intros E. unfold data_state_update. rewrite E. reflexivity. Qed.

Lemma data_state_update_at_data cd data :
  parse_state cd = MS_DATA ->
  data_state_update cd data = data_state_update_data cd data.
Proof. intros E. unfold data_state_update. rewrite E. reflexivity. Qed.

Lemma data_state_update_at_crc cd data :
  parse_state cd = MS_CRC ->
  data_state_update cd data = data_state_update_crc cd data.
Proof. intros E. unfold data_state_update. rewrite E. reflexivity. Qed.

Lemma rx_only_state cd cd' : rx_only cd cd' -> parse_state cd' = parse_state cd.
Proof. intros (bu & rc & ->). reflexivity. Qed.

Lemma rx_only_crc cd cd' : rx_only cd cd' -> parse_crc cd' = parse_crc cd.
Proof. intros (bu & rc & ->). reflexivity. Qed.

Lemma rx_only_msg cd cd' : rx_only cd cd' -> parse_msg cd' = parse_msg cd.
Proof. intros (bu & rc & ->). reflexivity. Qed.

Lemma rx_only_datapos cd cd' :
  rx_only cd cd' -> parse_datapos cd' = parse_datapos cd.
Proof. intros (bu & rc & ->). reflexivity. Qed.

Lemma bits_of_nonempty w n : bits_of w (S n) <> [].
Proof. discriminate. Qed.

Lemma testbit_one_shl cs j :
  0 <= cs < 32 -> 0 <= j -> Z.testbit (shl 1 cs) j = (j =? cs).
Proof.
  intros Hcs Hj. rewrite testbit_shl.
  change 1 with (2 ^ 0). rewrite Z.pow2_bits_eqb by lia.
  destruct (Z.ltb_spec j 32), (Z.ltb_spec j 0), (Z.eqb_spec 0 (j - cs)),
           (Z.eqb_spec j cs); try lia; reflexivity.
Qed.

Lemma clear_state_test bu :
  0 <= count_stuff bu ->
  let sb := stuffed_bits bu in
  let cs := count_stuff bu in
  let re := shr (Z.lxor sb (shr sb 1)) cs in
  (Z.land re 1 =? 0) && negb (Z.land re 0xf =? 0)
  = eqb (Z.testbit sb cs) (Z.testbit sb (cs + 1)) && negb (eq5 sb cs).
Proof.
  intros Hcs. cbv zeta. rewrite edges4_eq5, land_shr_1, testbit_edges by lia.
  destruct (Z.testbit _ _), (Z.testbit _ _); reflexivity.
Qed.

Lemma clear_state_eq bu :
  0 <= count_stuff bu ->
  unstuf_clear_state bu
  = if eqb (Z.testbit (stuffed_bits bu) (count_stuff bu))
           (Z.testbit (stuffed_bits bu) (count_stuff bu + 1))
       && negb (eq5 (stuffed_bits bu) (count_stuff bu))
    then mk_unstuf (Z.lxor (stuffed_bits bu) (shl 1 (count_stuff bu)))
                   (count_stuff bu) (unstuffed_bits bu) (count_unstuff bu)
    else bu.
Proof.
  intros Hcs. pose proof (clear_state_test bu Hcs) as C. cbv zeta in C.
  unfold unstuf_clear_state. cbv zeta. rewrite C. reflexivity.
Qed.

Lemma low15_range x : 0 <= Z.land x 0x7fff < 2 ^ 15.
Proof.
  change 0x7fff with (Z.ones 15). rewrite Z.land_ones by lia.
  apply Z.mod_pos_bound. lia.
Qed.

Lemma clear_state_pending bu j :
  0 <= j < count_stuff bu ->
  Z.testbit (stuffed_bits (unstuf_clear_state bu)) j
  = Z.testbit (stuffed_bits bu) j.
Proof.
  intros Hj. unfold unstuf_clear_state. cbv zeta.
  destruct (_ && _); [|reflexivity].
  cbn [stuffed_bits]. rewrite Z.lxor_spec, testbit_shl.
  rewrite (Z.testbit_neg_r 1) by lia.
  rewrite !andb_false_r. apply xorb_false_r.
Qed.

Lemma rx_future_clear_state cd cd' bytes n :
  unstuf cd' = unstuf_set_count (unstuf_clear_state (unstuf cd)) n ->
  0 <= count_stuff (unstuf cd) ->
  rx_future cd' bytes = rx_future cd bytes /\
  count_stuff (unstuf cd') = count_stuff (unstuf cd).
Proof.
  intros E Hcs. unfold rx_future. rewrite E.
  cbn [unstuf_set_count stuffed_bits count_stuff].
  rewrite count_stuff_clear_state. split; [|reflexivity].
  f_equal. apply bits_of_ext. intros j Hj.
  apply clear_state_pending. lia.
Qed.

Lemma rx_after_only m k cd cd' :
  rx_only cd cd' -> rx_after m k cd -> rx_after m k cd'.
Proof. intros (bu & rc & ->) A. exact A. Qed.

Lemma nth_clear_hist_flip h j :
  nth (S j) (negb (nth 0 h false) :: tl h) false = nth (S j) h false.
Proof. destruct h as [|x h]; [destruct j|]; reflexivity. Qed.

(** The window after [unstuf_clear_state] and a new field count. *)
Lemma rx_window_clear_state cd cd' bytes hs p ub cu n :
  unstuf cd' = unstuf_set_count (unstuf_clear_state (unstuf cd)) n ->
  rx_window cd bytes hs p ub cu ->
  rx_window cd' bytes (clear_hist hs) p 0 n.
Proof.
  intros E (W0 & W1 & W2 & _).
  assert (T0 : Z.testbit (stuffed_bits (unstuf cd)) (count_stuff (unstuf cd))
               = nth 0 hs false).
  { rewrite <- (W2 0%nat) by lia. f_equal. lia. }
  assert (T1 : Z.testbit (stuffed_bits (unstuf cd))
                 (count_stuff (unstuf cd) + 1) = nth 1 hs false).
  { rewrite <- (W2 1%nat) by lia. reflexivity. }
  assert (T5 : eq5 (stuffed_bits (unstuf cd)) (count_stuff (unstuf cd))
               = run5 hs).
  { rewrite <- run5_hist. apply run5_ext5. intros j Hj.
    rewrite nth_hist by lia. apply W2, Hj. }
  unfold rx_window, rx_future in *. rewrite E.
  rewrite (clear_state_eq (unstuf cd)) by lia.
  rewrite T0, T1, T5. unfold clear_hist.
  destruct (eqb (nth 0 hs false) (nth 1 hs false) && negb (run5 hs)).
  - cbn [unstuf_set_count stuffed_bits count_stuff unstuffed_bits
         count_unstuff].
    set (sb := stuffed_bits (unstuf cd)) in *.
    set (cs := count_stuff (unstuf cd)) in *.
    assert (F : forall j, 0 <= j ->
              Z.testbit (Z.lxor sb (shl 1 cs)) j
              = xorb (Z.testbit sb j) (j =? cs)).
    { intros j Hj. rewrite Z.lxor_spec, testbit_one_shl by lia.
      reflexivity. }
    split; [exact W0|]. split; [|split; [|split; reflexivity]].
    + rewrite <- W1. f_equal. apply bits_of_ext. intros j Hj.
      rewrite F by lia. destruct (Z.eqb_spec j cs); [lia|].
      apply xorb_false_r.
    + intros [|j] Hj.
      * cbn [nth]. rewrite F by lia.
        replace (cs + Z.of_nat 0) with cs by lia.
        rewrite Z.eqb_refl, T0. apply xorb_true_r.
      * rewrite nth_clear_hist_flip, F by lia.
        destruct (Z.eqb_spec (cs + Z.of_nat (S j)) cs); [lia|].
        rewrite xorb_false_r. apply W2, Hj.
  - cbn [unstuf_set_count stuffed_bits count_stuff unstuffed_bits
         count_unstuff].
    split; [exact W0|]. split; [exact W1|]. split; [exact W2|].
    split; reflexivity.
Qed.

Lemma length_stuff_due h : (length (stuff_due h) <= 1)%nat.
Proof. unfold stuff_due. destruct (run5 h); cbn [length]; lia. Qed.

Lemma length_frame_parts (x y d : list bool) (N c : nat) :
  (N + c = length y)%nat ->
  (1 + (length x + (N + c)) + length d
   = length (false :: (x ++ y) ++ d))%nat.
Proof. intros H. cbn [length]. rewrite !length_app. lia. Qed.

Lemma hist_after_fields (h a b : list bool) :
  rev (lstuff (rev (lstuff h a) ++ h) b) ++ rev (lstuff h a) ++ h
  = rev (lstuff h (a ++ b)) ++ h.
Proof. rewrite lstuff_app, rev_app_distr, <- app_assoc. reflexivity. Qed.

(** The parser along the frame of [m], with a property [J] of the
    controller that the three handlers of the frame keep when they are given
    the fields of [m]. *)
Section FrameInvariant.

Variable m : can2040_msg.
Variable J : can2040 -> Prop.
Hypothesis J_only : forall cd cd', rx_only cd cd' -> J cd -> J cd'.
Hypothesis J_start : forall cd,
  J cd -> parse_state cd = MS_START ->
  J (data_state_update_start cd (tx_hdr m)).
Hypothesis J_data : forall cd k,
  J cd -> rx_after m k cd -> Z.of_nat k < data_len m ->
  J (data_state_update_data cd (nth k (d1 m) 0)).
Hypothesis J_crc : forall cd,
  J cd -> rx_after m (Z.to_nat (data_len m)) cd ->
  J (data_state_update_crc cd (crc (tx_encode m))).

(** The header. *)
Lemma rx_header cd bytes hs rest :
  msg_wf m -> parse_state cd = MS_START -> J cd ->
  let H := bits_of (tx_hdr m) 18 in
  rx_window cd bytes hs (lstuff hs H ++ rest) 0 18 ->
  exists cd' bytes',
    rx_reaches (length (lstuff hs H)) cd bytes cd' bytes' /\
    rx_after m 0 cd' /\ J cd' /\
    rx_window cd' bytes' (rev (lstuff hs H) ++ hs) rest 0
              (if 0 <? data_len m then 8 else 15).
Proof.
  intros Hm Hs HJ H W. pose proof Hm as (Ha & Hl & _).
  change 18 with (Z.of_nat (length H)) in W.
  destruct (rx_field H cd bytes hs rest 0 (bits_of_nonempty _ 17) W)
    as (cdm & bytes' & S1 & O1 & W1).
  change (length H) with 18%nat in S1, W1 at 1.
  assert (V : or_bits 0 H (Z.of_nat 18) = tx_hdr m).
  { apply or_bits_value; [lia | apply (tx_hdr_range m Hm)]. }
  change (Z.of_nat (length H)) with (Z.of_nat 18) in S1, W1.
  rewrite V in S1, W1.
  assert (Hsm : parse_state cdm = MS_START)
    by (rewrite (rx_only_state _ _ O1); exact Hs).
  rewrite (data_state_update_at_start _ _ Hsm) in S1.
  pose proof (J_start cdm (J_only _ _ O1 HJ) Hsm) as HJ'.
  pose proof (update_start_ok cdm (tx_hdr m) (tx_hdr_reserved m Hm)) as U.
  cbv zeta in U. rewrite (tx_hdr_dlc m Hm), (tx_hdr_addr m Hm) in U.
  assert (C8 : (if 8 <? data_len m then 8 else data_len m) = data_len m).
  { destruct (Z.ltb_spec 8 (data_len m)); lia. }
  rewrite C8 in U. destruct U as (U1 & U2 & U3).
  exists (data_state_update_start cdm (tx_hdr m)), bytes'.
  split; [exact S1|].
  destruct (Z.leb_spec (data_len m) 0), (Z.ltb_spec 0 (data_len m));
    try lia; destruct U3 as (U3 & U4 & U5).
  - split; [|split; [exact HJ'|]].
    + split; [exact U1|]. split; [exact U2|].
      destruct (Z.ltb_spec (Z.of_nat 0) (data_len m)); [lia|].
      split; assumption.
    + eapply rx_window_set_count; [exact U5 | exact W1].
  - split; [|split; [exact HJ'|]].
    + split; [exact U1|]. split; [exact U2|].
      destruct (Z.ltb_spec (Z.of_nat 0) (data_len m)); [|lia].
      split; assumption.
    + eapply rx_window_set_count; [exact U5 | exact W1].
Qed.

(** The data bytes from the [k]th on, then what follows them. *)
Lemma rx_data_loop Cb rest j : forall k cd bytes hs,
  msg_wf m -> (k + j = Z.to_nat (data_len m))%nat ->
  rx_after m k cd -> J cd ->
  let D := flat_map (fun i => bits_of (nth i (d1 m) 0) 8) (seq k j) in
  rx_window cd bytes hs (lstuff hs (D ++ Cb) ++ rest) 0
            (if Z.of_nat k <? data_len m then 8 else 15) ->
  let hs' := rev (lstuff hs D) ++ hs in
  exists N cd' bytes',
    rx_reaches N cd bytes cd' bytes' /\
    rx_after m (Z.to_nat (data_len m)) cd' /\ J cd' /\
    rx_window cd' bytes' hs' (lstuff hs' Cb ++ rest) 0 15 /\
    (N + length (lstuff hs' Cb) = length (lstuff hs (D ++ Cb)))%nat.
Proof.
  induction j as [|j IH]; intros k cd bytes hs Hm Hk A HJ D W hs';
    pose proof Hm as (Ha & Hl & Hlen & _).
  - assert (k = Z.to_nat (data_len m)) by lia. subst k.
    destruct (Z.ltb_spec (Z.of_nat (Z.to_nat (data_len m))) (data_len m));
      [lia|].
    exists 0%nat, cd, bytes.
    split; [apply rx_reaches_refl|]. split; [exact A|].
    split; [exact HJ|]. split; [exact W | reflexivity].
  - destruct (Z.ltb_spec (Z.of_nat k) (data_len m)); [|lia].
    subst D hs'. cbn [seq flat_map] in W |- *.
    set (B := bits_of (nth k (d1 m) 0) 8) in *.
    set (D' := flat_map (fun i => bits_of (nth i (d1 m) 0) 8) (seq (S k) j))
      in *.
    rewrite <- app_assoc, lstuff_app, <- app_assoc in W.
    rewrite <- (hist_after_fields hs B D').
    rewrite <- (app_assoc B D' Cb), (lstuff_app B hs (D' ++ Cb)).
    change 8 with (Z.of_nat (length B)) in W.
    destruct (rx_field B cd bytes hs _ 0 (bits_of_nonempty _ 7) W)
      as (cdm & bytes1 & S1 & O1 & W1).
    change (Z.of_nat (length B)) with (Z.of_nat 8) in S1, W1.
    pose proof (nth_byte m k Hm) as Hb.
    assert (V : or_bits 0 B (Z.of_nat 8) = nth k (d1 m) 0).
    { apply or_bits_value; [lia | exact Hb]. }
    rewrite V in S1, W1.
    pose proof (J_data cdm k (J_only _ _ O1 HJ)
                  (rx_after_only _ _ _ _ O1 A) ltac:(lia)) as HJ'.
    destruct A as (A1 & A2 & A3).
    destruct (Z.ltb_spec (Z.of_nat k) (data_len m)); [|lia].
    destruct A3 as (A3 & A4).
    assert (Hsm : parse_state cdm = MS_DATA)
      by (rewrite (rx_only_state _ _ O1); exact A3).
    rewrite (data_state_update_at_data _ _ Hsm) in S1.
    pose proof (update_data_fields cdm (nth k (d1 m) 0)) as U.
    cbv zeta in U.
    rewrite (rx_only_msg _ _ O1), (rx_only_datapos _ _ O1),
            (rx_only_crc _ _ O1), A1, A2, A4 in U.
    cbn [addr data_len d1 rx_msg] in U.
    rewrite Nat2Z.id, (Z.mod_small _ (2 ^ 8)) in U by lia.
    replace (8 - k)%nat with (S (8 - S k)) in U by lia.
    rewrite set_nth_fill in U by lia.
    rewrite u32_small, <- rx_crc_S in U by lia.
    replace (Z.of_nat k + 1) with (Z.of_nat (S k)) in U by lia.
    destruct U as (U1 & U2 & U3).
    set (cd2 := data_state_update_data cdm (nth k (d1 m) 0)) in *.
    assert (A' : rx_after m (S k) cd2 /\
                 unstuf cd2 = unstuf_set_count (unstuf cdm)
                   (if Z.of_nat (S k) <? data_len m then 8 else 15)).
    { unfold rx_after.
      destruct (Z.leb_spec (data_len m) (Z.of_nat (S k))),
               (Z.ltb_spec (Z.of_nat (S k)) (data_len m)); try lia;
        destruct U3 as (U3 & U4 & U5).
      - repeat split; assumption.
      - repeat split; try assumption. rewrite U3. exact Hsm. }
    destruct A' as (A' & U5).
    pose proof (rx_window_set_count _ _ _ _ _ _ _ _ U5 W1) as W2.
    destruct (IH (S k) cd2 bytes1 _ Hm ltac:(lia) A' HJ' W2)
      as (N & cd' & bytes' & R & A'' & HJ'' & W' & L).
    exists (length (lstuff hs B) + N)%nat, cd', bytes'.
    split; [|split; [exact A''|split; [exact HJ''|split; [exact W'|]]]].
    + eapply rx_reaches_trans; [exact S1 | exact R].
    + rewrite length_app. fold D' in L. lia.
Qed.

(** The CRC field: the check passes and the parser waits for the ACK. *)
Lemma rx_crc_field cd bytes hs rest :
  msg_wf m -> rx_after m (Z.to_nat (data_len m)) cd -> J cd ->
  let Cb := bits_of (crc (tx_encode m)) 15 in
  rx_window cd bytes hs (lstuff hs Cb ++ rest) 0 15 ->
  exists cd' bytes',
    rx_reaches (length (lstuff hs Cb)) cd bytes cd' bytes' /\
    parse_state cd' = MS_ACK /\
    parse_msg cd' = rx_msg m (Z.to_nat (data_len m)) /\
    parse_crc cd' = crc (tx_encode m) /\ J cd' /\
    rx_window cd' bytes' (clear_hist (rev (lstuff hs Cb) ++ hs)) rest 0 2.
Proof.
  intros Hm A HJ Cb W. pose proof Hm as (_ & Hl & _).
  change 15 with (Z.of_nat (length Cb)) in W.
  destruct (rx_field Cb cd bytes hs rest 0 (bits_of_nonempty _ 14) W)
    as (cdm & bytes' & S1 & O1 & W1).
  change (Z.of_nat (length Cb)) with (Z.of_nat 15) in S1, W1.
  assert (V : or_bits 0 Cb (Z.of_nat 15) = crc (tx_encode m)).
  { apply or_bits_value; [lia|]. rewrite crc_tx_encode.
    apply low15_range. }
  rewrite V in S1, W1.
  pose proof (J_crc cdm (J_only _ _ O1 HJ) (rx_after_only _ _ _ _ O1 A))
    as HJ'.
  destruct A as (A1 & A2 & A3).
  destruct (Z.ltb_spec (Z.of_nat (Z.to_nat (data_len m))) (data_len m));
    [lia|]. destruct A3 as (A3 & A4).
  rewrite <- (crc_tx_encode_rx m Hm) in A4.
  assert (Hsm : parse_state cdm = MS_CRC)
    by (rewrite (rx_only_state _ _ O1); exact A3).
  rewrite (data_state_update_at_crc _ _ Hsm) in S1.
  pose proof (update_crc_fields cdm (crc (tx_encode m))) as U.
  cbv zeta in U.
  rewrite (rx_only_msg _ _ O1), (rx_only_crc _ _ O1), A1, A4 in U.
  rewrite Z.eqb_refl in U. destruct U as (U1 & U2 & _ & U3 & U4).
  eexists _, bytes'. split; [exact S1|].
  split; [exact U3|]. split; [exact U2|]. split; [exact U1|].
  split; [exact HJ'|].
  apply (rx_window_clear_state cdm _ _ _ _ _ _ 2 U4 W1).
Qed.

(** From the idle bus to the end of the CRC field. *)
Lemma rx_frame_head cd0 bytes rest :
  msg_wf m -> rx_idle cd0 -> J cd0 ->
  rx_future cd0 bytes = tx_stream m ++ rest ->
  let h1 := [false; true; true; true; true] in
  let F := bits_of (tx_hdr m) 18 ++ tx_data_bits m
           ++ bits_of (crc (tx_encode m)) 15 in
  let hF := rev (lstuff h1 F) ++ h1 in
  exists N cdA bytesA,
    rx_reaches N cd0 bytes cdA bytesA /\
    (N + length (stuff_due hF) = length (tx_stream m))%nat /\
    parse_state cdA = MS_ACK /\
    parse_msg cdA = rx_msg m (Z.to_nat (data_len m)) /\
    parse_crc cdA = crc (tx_encode m) /\ J cdA /\
    rx_window cdA bytesA (clear_hist hF) (stuff_due hF ++ rest) 0 2.
Proof.
  intros Hm (I1 & I2 & I3 & I4 & I5 & I6) HJ Hf.
  pose proof (tx_stream_lstuff m Hm) as ES. cbv zeta in ES |- *.
  set (h1 := [false; true; true; true; true]) in *.
  set (H := bits_of (tx_hdr m) 18) in *.
  set (Cb := bits_of (crc (tx_encode m)) 15) in *.
  set (hF := rev (lstuff h1 (H ++ tx_data_bits m ++ Cb)) ++ h1) in *.
  rewrite ES in Hf. cbn [app] in Hf.
  rewrite lstuff_app, <- !app_assoc in Hf.
  set (h2 := rev (lstuff h1 H) ++ h1) in *.
  assert (W0 : rx_window cd0 bytes [true; true; true; true; true]
                 (false :: lstuff h1 H
                    ++ lstuff h2 (tx_data_bits m ++ Cb)
                    ++ stuff_due hF ++ rest) 0 18).
  { split; [lia|]. split; [exact Hf|]. split; [|split; assumption].
    intros j Hj. rewrite I2.
    rewrite (eq5_all _ 0 I5 (Z.of_nat j)) by lia. rewrite I6.
    destruct j as [|[|[|[|[|j]]]]]; try reflexivity. lia. }
  destruct (rx_drop_bit _ _ _ _ _ _ _ W0 eq_refl eq_refl)
    as (cd1 & b1 & S1 & O1 & W1).
  apply (rx_window_ext _ _ _ h1) in W1.
  2:{ intros [|[|[|[|[|j]]]]] Hj; try reflexivity. lia. }
  assert (Hs1 : parse_state cd1 = MS_START)
    by (rewrite (rx_only_state _ _ O1); exact I1).
  destruct (rx_header cd1 b1 h1 _ Hm Hs1 (J_only _ _ O1 HJ) W1)
    as (cd2 & b2 & S2 & A2 & J2 & W2).
  fold H h2 in S2, W2.
  pose proof (rx_data_loop Cb (stuff_due hF ++ rest)
                (Z.to_nat (data_len m)) 0
                cd2 b2 h2 Hm (Nat.add_0_l _) A2 J2) as DL.
  cbv zeta in DL. change (Z.of_nat 0) with 0 in DL.
  fold (tx_data_bits m) in DL.
  destruct (DL W2) as (N & cd3 & b3 & R3 & A3 & J3 & W3 & L3). clear DL.
  set (h3 := rev (lstuff h2 (tx_data_bits m)) ++ h2) in *.
  destruct (rx_crc_field cd3 b3 h3 _ Hm A3 J3 W3)
    as (cd4 & b4 & R4 & P1 & P2 & P3 & J4 & W4).
  fold Cb in R4, W4.
  assert (EH : rev (lstuff h3 Cb) ++ h3 = hF).
  { unfold h3, h2, hF.
    rewrite (hist_after_fields (rev (lstuff h1 H) ++ h1) (tx_data_bits m) Cb).
    apply (hist_after_fields h1 H (tx_data_bits m ++ Cb)). }
  rewrite EH in W4.
  exists (1 + (length (lstuff h1 H) + (N + length (lstuff h3 Cb))))%nat,
         cd4, b4.
  split; [|split].
  - apply (rx_reaches_trans 1 _ _ _ cd1 b1); [exact S1|].
    apply (rx_reaches_trans _ _ _ _ cd2 b2); [exact S2|].
    apply (rx_reaches_trans _ _ _ _ cd3 b3); [exact R3 | exact R4].
  - rewrite ES, lstuff_app. apply length_frame_parts. exact L3.
  - split; [exact P1|]. split; [exact P2|]. split; [exact P3|].
    split; [exact J4 | exact W4].
Qed.

End FrameInvariant.

(** * After the frame: the bus stays recessive *)

Lemma eq5_below w c :
  eq5 w c = true -> Z.testbit w (c - 1) = Z.testbit w c ->
  eq5 w (c - 1) = true.
Proof.
  intros E H. pose proof (eq5_all w c E) as A.
  pose proof (A 1 ltac:(lia)) as A1. pose proof (A 2 ltac:(lia)) as A2.
  pose proof (A 3 ltac:(lia)) as A3.
  unfold eq5.
  replace (c - 1 + 1) with c by lia. replace (c - 1 + 2) with (c + 1) by lia.
  replace (c - 1 + 3) with (c + 2) by lia.
  replace (c - 1 + 4) with (c + 3) by lia.
  rewrite H, A1, A2, A3, eqb_reflx. reflexivity.
Qed.

(** What a handler leaves when it only rearms the field counter. *)
Lemma rx_tail_rearmed M C cd' bu n :
  parse_msg cd' = M -> parse_crc cd' = C ->
  unstuf cd' = unstuf_set_count bu n -> n <> 0 -> 0 <= count_stuff bu ->
  match parse_state cd' with
  | MS_START =>
    eq5 (stuffed_bits bu) (count_stuff bu) = true /\
    Z.testbit (stuffed_bits bu) (count_stuff bu) = true
  | MS_DATA | MS_CRC => False
  | _ => True
  end ->
  rx_tail M C cd' /\ count_stuff (unstuf cd') = count_stuff bu /\
  stuffed_bits (unstuf cd') = stuffed_bits bu.
Proof.
  intros H1 H2 H3 H4 H5 H6. unfold rx_tail. rewrite H3.
  cbn [unstuf_set_count stuffed_bits count_stuff count_unstuff].
  repeat split; assumption.
Qed.

Lemma rx_tail_step M C cd :
  rx_tail M C cd -> 0 < count_stuff (unstuf cd) ->
  (parse_state cd = MS_START ->
   Z.testbit (stuffed_bits (unstuf cd)) (count_stuff (unstuf cd) - 1) = true) ->
  rx_tail M C (rx_step cd) /\
  count_stuff (unstuf (rx_step cd)) = count_stuff (unstuf cd) - 1 /\
  forall j, 0 <= j < count_stuff (unstuf cd) - 1 ->
    Z.testbit (stuffed_bits (unstuf (rx_step cd))) j
    = Z.testbit (stuffed_bits (unstuf cd)) j.
Proof.
  intros (T1 & T2 & T3 & T4 & T5) Hcs Hb. unfold rx_step. cbv zeta.
  set (sb := stuffed_bits (unstuf cd)) in *.
  set (cs := count_stuff (unstuf cd)) in *.
  set (b := Z.testbit sb (cs - 1)) in *.
  assert (Plain : forall ub' cu', cu' <> 0 ->
    match parse_state cd with
    | MS_START => eq5 sb (cs - 1) = true /\ Z.testbit sb (cs - 1) = true
    | MS_DATA | MS_CRC => False
    | _ => True
    end ->
    let cd1 := set_unstuf (mk_unstuf sb (cs - 1) ub' cu') cd in
    rx_tail M C cd1 /\ count_stuff (unstuf cd1) = cs - 1 /\
    forall j, 0 <= j < cs - 1 ->
      Z.testbit (stuffed_bits (unstuf cd1)) j = Z.testbit sb j).
  { intros ub' cu' Hcu Hst. cbv zeta. unfold rx_tail.
    cbn [parse_msg parse_crc parse_state unstuf set_unstuf stuffed_bits
         count_stuff count_unstuff].
    split; [|split; [reflexivity | intros; reflexivity]].
    split; [exact T1|]. split; [exact T2|]. split; [lia|].
    split; [exact Hcu | exact Hst]. }
  assert (Rearm : forall cd' ub' cu' n,
    parse_msg cd' = M -> parse_crc cd' = C ->
    unstuf cd' = unstuf_set_count (mk_unstuf sb (cs - 1) ub' cu') n ->
    n <> 0 ->
    match parse_state cd' with
    | MS_START => eq5 sb (cs - 1) = true /\ Z.testbit sb (cs - 1) = true
    | MS_DATA | MS_CRC => False
    | _ => True
    end ->
    rx_tail M C cd' /\ count_stuff (unstuf cd') = cs - 1 /\
    forall j, 0 <= j < cs - 1 ->
      Z.testbit (stuffed_bits (unstuf cd')) j = Z.testbit sb j).
  { intros cd' ub' cu' n H1 H2 H3 H4 H5.
    destruct (rx_tail_rearmed M C cd' _ n H1 H2 H3 H4) as (R1 & R2 & R3).
    - cbn [count_stuff]. lia.
    - exact H5.
    - split; [exact R1|]. split; [exact R2|].
      intros j Hj. rewrite R3. reflexivity. }
  destruct (eq5 sb cs) eqn:E5.
  - destruct (eqb b (Z.testbit sb cs)) eqn:Eb.
    + apply eqb_prop in Eb.
      set (cd1 := set_unstuf (mk_unstuf sb (cs - 1)
                    (unstuffed_bits (unstuf cd)) (count_unstuff (unstuf cd)))
                    cd).
      destruct b eqn:Bv.
      * assert (Six : eq5 sb (cs - 1) = true /\ Z.testbit sb (cs - 1) = true).
        { split; [|exact Bv]. apply eq5_below; [exact E5|].
          fold b. rewrite Bv. exact Eb. }
        destruct (parse_state_eqb (parse_state cd1) MS_START) eqn:Hs.
        -- pose proof (go_idle_start cd1 Hs) as G. cbv zeta in G.
           destruct G as (_ & G2 & G3 & _ & G5).
           destruct (_ && _) eqn:Ov.
           ++ destruct G5 as (G5 & G6).
              apply andb_true_iff in Ov. destruct Ov as (Ov & _).
              apply Z.eqb_eq in Ov. cbn [cd1 unstuf set_unstuf count_stuff] in Ov.
              unfold rx_tail. rewrite G2, G3, G5, G6.
              cbn [cd1 parse_msg parse_crc set_unstuf unstuf stuffed_bits
                   count_stuff count_unstuff].
              split; [|split; [reflexivity | intros j Hj; lia]].
              repeat split; try assumption; lia.
           ++ destruct G5 as (G5 & G6).
              eapply (Rearm _ _ _ 18); [rewrite G3; exact T1
                | rewrite G2; exact T2 | exact G6 | lia |].
              rewrite G5.
              destruct (parse_state cd1); try discriminate. exact Six.
        -- pose proof (go_idle_not_start cd1 Hs) as G. cbv zeta in G.
           destruct G as (G1 & _ & G3 & G4 & _ & G6).
           eapply (Rearm _ _ _ 18); [rewrite G4; exact T1
             | rewrite G3; exact T2 | exact G6 | lia |].
           rewrite G1. exact Six.
      * pose proof (data_state_go_discard_parse cd1) as G. cbv zeta in G.
        destruct G as (G1 & _ & G3 & G4 & _ & G6).
        unfold data_state_go_error.
        eapply (Rearm _ _ _ 8); [rewrite G4; exact T1
          | rewrite G3; exact T2 | exact G6 | lia |].
        rewrite G1. exact I.
    + apply Plain; [exact T4|].
      destruct (parse_state cd); try exact T5; try exact I.
      destruct T5 as (_ & T5). specialize (Hb eq_refl).
      fold b in Hb. rewrite Hb, T5 in Eb. discriminate.
  - destruct (parse_state cd) eqn:Hst;
      try contradiction; try (destruct T5 as (T5 & _); congruence).
    + set (cu' := count_unstuff (unstuf cd) - 1).
      set (ub' := Z.lor (unstuffed_bits (unstuf cd)) (shl (Z.b2z b) cu')).
      set (cd1 := set_unstuf (mk_unstuf sb (cs - 1) ub' cu') cd).
      destruct (Z.eqb_spec cu' 0) as [Ez|Ez].
      * assert (Hs1 : parse_state cd1 = MS_ACK) by exact Hst.
        unfold data_state_update. rewrite Hs1.
        pose proof (update_ack_fields cd1 ub') as U. cbv zeta in U.
        destruct U as (U1 & U2 & _ & U3).
        destruct (ub' =? 2); destruct U3 as (U3 & U4).
        -- eapply (Rearm _ _ _ 6); [rewrite U2; exact T1
             | rewrite U1; exact T2 | exact U4 | lia |].
           rewrite U3. exact I.
        -- eapply (Rearm _ _ _ 8); [rewrite U2; exact T1
             | rewrite U1; exact T2 | exact U4 | lia |].
           rewrite U3. exact I.
      * apply (Plain ub' cu' Ez). exact I.
    + set (cu' := count_unstuff (unstuf cd) - 1).
      set (ub' := Z.lor (unstuffed_bits (unstuf cd)) (shl (Z.b2z b) cu')).
      set (cd1 := set_unstuf (mk_unstuf sb (cs - 1) ub' cu') cd).
      destruct (Z.eqb_spec cu' 0) as [Ez|Ez].
      * assert (Hs1 : parse_state cd1 = MS_EOF) by exact Hst.
        unfold data_state_update. rewrite Hs1.
        pose proof (data_state_go_discard_parse cd1) as G. cbv zeta in G.
        destruct G as (G1 & _ & G3 & G4 & _ & G6).
        unfold data_state_update_eof.
        eapply (Rearm _ _ _ 8); [rewrite G4; exact T1
          | rewrite G3; exact T2 | exact G6 | lia |].
        rewrite G1. exact I.
      * apply (Plain ub' cu' Ez). exact I.
    + set (cu' := count_unstuff (unstuf cd) - 1).
      set (ub' := Z.lor (unstuffed_bits (unstuf cd)) (shl (Z.b2z b) cu')).
      set (cd1 := set_unstuf (mk_unstuf sb (cs - 1) ub' cu') cd).
      destruct (Z.eqb_spec cu' 0) as [Ez|Ez].
      * assert (Hs1 : parse_state cd1 = MS_DISCARD) by exact Hst.
        unfold data_state_update. rewrite Hs1.
        pose proof (data_state_go_discard_parse cd1) as G. cbv zeta in G.
        destruct G as (G1 & _ & G3 & G4 & _ & G6).
        unfold data_state_update_discard.
        eapply (Rearm _ _ _ 8); [rewrite G4; exact T1
          | rewrite G3; exact T2 | exact G6 | lia |].
        rewrite G1. exact I.
      * apply (Plain ub' cu' Ez). exact I.
Qed.

Lemma tail_ok_all st l : Forall (fun x => x = true) l -> tail_ok st l.
Proof.
  intros F. destruct l as [|b r]; [exact I|].
  inversion F; subst. split; [intros _; reflexivity | assumption].
Qed.

Lemma rx_future_load cd b r :
  count_stuff (unstuf cd) = 0 ->
  rx_future (rx_load cd b) r = rx_future cd (b :: r).
Proof.
  intros Hcs.
  assert (W : rx_window cd (b :: r)
                (hist (stuffed_bits (unstuf cd)) (count_stuff (unstuf cd)) 5)
                (rx_future cd (b :: r)) (unstuffed_bits (unstuf cd))
                (count_unstuff (unstuf cd))).
  { split; [lia|]. split; [reflexivity|]. split; [|split; reflexivity].
    intros j Hj. rewrite nth_hist by exact Hj. reflexivity. }
  apply (rx_window_load _ _ _ _ _ _ _ Hcs) in W.
  destruct W as (_ & W & _). exact W.
Qed.

Lemma rx_tail_load M C cd b :
  rx_tail M C cd -> count_stuff (unstuf cd) = 0 ->
  rx_tail M C (rx_load cd b).
Proof.
  intros (T1 & T2 & T3 & T4 & T5) Hcs. unfold rx_tail.
  change (parse_msg (rx_load cd b)) with (parse_msg cd).
  change (parse_crc (rx_load cd b)) with (parse_crc cd).
  change (parse_state (rx_load cd b)) with (parse_state cd).
  change (unstuf (rx_load cd b)) with (unstuf_add_bits (unstuf cd) b 8).
  unfold unstuf_add_bits.
  cbn [stuffed_bits count_stuff unstuffed_bits count_unstuff].
  split; [exact T1|]. split; [exact T2|]. split; [lia|].
  split; [exact T4|].
  destruct (parse_state cd); try exact T5.
  rewrite Hcs in T5. destruct T5 as (T5 & T6).
  set (sb := stuffed_bits (unstuf cd)) in *.
  assert (H : forall j, 0 <= j < 24 ->
            Z.testbit (Z.lor (shl sb 8) (Z.land b (lowmask 8))) (8 + j)
            = Z.testbit sb (0 + j)).
  { intros j Hj. rewrite testbit_add_bits by lia.
    destruct (Z.ltb_spec (8 + j) 8); [lia|].
    destruct (Z.ltb_spec (8 + j) 32); [|lia].
    cbn [andb]. f_equal. lia. }
  split.
  - unfold eq5 in *. rewrite <- (Z.add_0_r 8) at 1 3.
    rewrite <- (Z.add_0_r 0) in T5 at 1.
    rewrite !H by lia. exact T5.
  - rewrite <- (Z.add_0_r 8). rewrite H by lia. exact T6.
Qed.

(** While the bus stays recessive the parser keeps the message and the
    CRC it has parsed. *)
Lemma rx_tail_run M C n : forall cd bytes,
  rx_tail M C cd -> tail_ok (parse_state cd) (rx_future cd bytes) ->
  rx_tail M C (fst (rx_run n cd bytes)).
Proof.
  induction n as [|n IH]; intros cd bytes T K; [exact T|].
  assert (Core : forall cd1 bytes1,
    rx_tail M C cd1 -> 0 < count_stuff (unstuf cd1) ->
    tail_ok (parse_state cd1) (rx_future cd1 bytes1) ->
    rx_tail M C (fst (rx_run n (rx_step cd1) bytes1))).
  { intros cd1 bytes1 T1 Hcs K1. unfold rx_future in K1.
    replace (Z.to_nat (count_stuff (unstuf cd1)))
      with (S (Z.to_nat (count_stuff (unstuf cd1) - 1))) in K1 by lia.
    rewrite bits_of_S in K1. cbn [app tail_ok] in K1.
    rewrite Z2Nat.id in K1 by lia. destruct K1 as (K1 & K2).
    destruct (rx_tail_step M C cd1 T1 Hcs K1) as (T' & C' & B').
    apply IH; [exact T'|]. apply tail_ok_all.
    unfold rx_future. rewrite C'.
    rewrite (bits_of_ext _ (stuffed_bits (unstuf cd1))); [exact K2|].
    intros j Hj. apply B'. lia. }
  rewrite rx_run_S.
  pose proof T as (_ & _ & T3 & _).
  destruct (Z.eqb_spec (count_stuff (unstuf cd)) 0) as [E|E].
  - destruct bytes as [|b r]; [exact T|].
    apply Core.
    + apply rx_tail_load; assumption.
    + reflexivity.
    + rewrite rx_future_load by exact E. exact K.
  - apply Core; [exact T | lia | exact K].
Qed.

(** * The words of the transmitter as the bytes of the receiver *)

Lemma bits_of_split w n k :
  bits_of w (n + k) = bits_of (shr w (Z.of_nat k)) n ++ bits_of w k.
Proof.
  induction n as [|n IH]; [reflexivity|].
  cbn [Nat.add bits_of app]. rewrite IH, testbit_shr.
  destruct (Z.ltb_spec (Z.of_nat n) 0); [lia|]. cbn [negb andb].
  f_equal. f_equal. lia.
Qed.

Lemma bits_of_low8 x : bits_of (Z.land x 0xff) 8 = bits_of x 8.
Proof.
  apply bits_of_ext. intros j Hj. change 255 with (Z.ones 8).
  rewrite Z.land_spec, Z.testbit_ones_nonneg by lia.
  destruct (Z.ltb_spec j 8); [apply andb_true_r | lia].
Qed.

Lemma bits_word_bytes w :
  flat_map (fun b => bits_of b 8) (word_bytes w) = bits_of w 32.
Proof.
  unfold word_bytes. cbn [flat_map]. rewrite !bits_of_low8, app_nil_r.
  change (bits_of w 32) with (bits_of w (8 + 24)).
  rewrite (bits_of_split w 8 24).
  change (bits_of w 24) with (bits_of w (8 + 16)).
  rewrite (bits_of_split w 8 16).
  change (bits_of w 16) with (bits_of w (8 + 8)).
  rewrite (bits_of_split w 8 8).
  reflexivity.
Qed.

Lemma bits_wire_bytes l :
  flat_map (fun b => bits_of b 8) (flat_map word_bytes l)
  = flat_map (fun w => bits_of w 32) l.
Proof.
  induction l as [|w l IH]; [reflexivity|].
  cbn [flat_map]. rewrite flat_map_app, bits_word_bytes, IH. reflexivity.
Qed.

Lemma length_flat_bits n (l : list Z) :
  length (flat_map (fun w => bits_of w n) l) = (n * length l)%nat.
Proof.
  induction l as [|w l IH]; cbn [flat_map length]; [lia|].
  rewrite length_app, length_bits_of, IH. lia.
Qed.

Lemma nth_flat_words l : forall p,
  (p < 32 * length l)%nat ->
  nth p (flat_map (fun w => bits_of w 32) l) false = sbit l (Z.of_nat p).
Proof.
  induction l as [|w l IH]; intros p Hp; cbn [length] in Hp; [lia|].
  cbn [flat_map]. unfold sbit.
  destruct (Nat.lt_ge_cases p 32) as [H|H].
  - rewrite app_nth1 by (rewrite length_bits_of; exact H).
    rewrite nth_bits_of by exact H.
    rewrite Z.div_small, Z.mod_small by lia. cbn [Z.to_nat nth].
    f_equal. lia.
  - rewrite app_nth2 by (rewrite length_bits_of; exact H).
    rewrite length_bits_of, IH by lia. unfold sbit.
    replace (Z.of_nat p) with (Z.of_nat (p - 32) + 1 * 32) by lia.
    rewrite Z.div_add, Z.mod_add by lia.
    replace (Z.to_nat (Z.of_nat (p - 32) / 32 + 1))
      with (S (Z.to_nat (Z.of_nat (p - 32) / 32)))
      by (assert (0 <= Z.of_nat (p - 32) / 32)
            by (apply Z.div_pos; lia); lia).
    replace (Z.of_nat (p - 32) + 1 * 32 - 32) with (Z.of_nat (p - 32)) by lia.
    reflexivity.
Qed.

Lemma list_with_padding (R s : list bool) :
  (length s <= length R)%nat ->
  (forall p, (p < length R)%nat -> nth p R false = nth p s true) ->
  R = s ++ repeat true (length R - length s).
Proof.
  intros L H. apply nth_ext with (d := false) (d' := true).
  - rewrite length_app, repeat_length. lia.
  - intros p Hp. rewrite (H p Hp).
    destruct (Nat.lt_ge_cases p (length s)) as [Hs|Hs].
    + rewrite app_nth1 by exact Hs. reflexivity.
    + rewrite app_nth2 by exact Hs.
      rewrite nth_overflow by exact Hs. symmetry. apply nth_repeat.
Qed.

(** The raw bits a receiver gets when the words of a slot are sent: the
    stuffed frame, the recessive CRC delimiter, recessive padding. *)
Lemma tx_wire_bits m :
  0 <= data_len m <= 8 ->
  exists k,
    flat_map (fun b => bits_of b 8) (tx_wire_bytes (tx_encode m))
    = tx_stream m ++ true :: repeat true k.
Proof.
  intros Hl. destruct (tx_encode_holds m Hl) as (_ & W & L & B & _).
  cbv zeta in *. set (q := tx_encode m) in *.
  assert (LF : (length (tx_frame_bits m) <= 98)%nat).
  { unfold tx_frame_bits.
    rewrite !length_app, !length_bits_of, length_tx_data_bits. lia. }
  assert (Hle : (length (tx_stream m) <= 125)%nat)
    by (apply length_stuff_frame, LF).
  rewrite length_app in W. cbn [length] in W.
  assert (Wr : 0 <= stuffed_words q <= 5).
  { rewrite W. split; [apply Z.div_pos; lia|].
    assert (H : Z.of_nat (length (tx_stream m) + 1) + 31 < 32 * 6) by lia.
    pose proof (Z.div_lt_upper_bound _ 32 6 ltac:(lia) H). lia. }
  assert (Wb : 32 * stuffed_words q
               >= Z.of_nat (length (tx_stream m) + 1)).
  { rewrite W. pose proof (Z.div_mod
      (Z.of_nat (length (tx_stream m) + 1) + 31) 32 ltac:(lia)).
    pose proof (Z.mod_pos_bound
      (Z.of_nat (length (tx_stream m) + 1) + 31) 32 ltac:(lia)). lia. }
  unfold tx_wire_bytes. rewrite bits_wire_bytes.
  set (ws := firstn (Z.to_nat (stuffed_words q)) (stuffed_data q)).
  assert (Lw : length ws = Z.to_nat (stuffed_words q)).
  { unfold ws. apply firstn_length_le. rewrite L.
    unfold STUFFED_DATA_WORDS. lia. }
  set (R := flat_map (fun w => bits_of w 32) ws).
  assert (LR : length R = (32 * Z.to_nat (stuffed_words q))%nat).
  { unfold R. rewrite length_flat_bits, Lw. reflexivity. }
  exists (length R - length (tx_stream m ++ [true]))%nat.
  transitivity ((tx_stream m ++ [true])
                ++ repeat true (length R - length (tx_stream m ++ [true])));
    [apply list_with_padding | rewrite <- app_assoc; reflexivity].
  - rewrite length_app. cbn [length]. lia.
  - intros p Hp. unfold R. rewrite nth_flat_words by (rewrite Lw; lia).
    rewrite <- (Nat2Z.id p) at 2. rewrite <- B by lia.
    unfold sbit, ws. rewrite nth_firstn.
    assert (Hd : 0 <= Z.of_nat p / 32 < stuffed_words q).
    { split; [apply Z.div_pos; lia|].
      apply Z.div_lt_upper_bound; lia. }
    destruct (Nat.ltb_spec (Z.to_nat (Z.of_nat p / 32))
                (Z.to_nat (stuffed_words q))); [reflexivity | lia].
Qed.

Lemma skipn_repeat (x : Z) n : forall k,
  skipn n (repeat x k) = repeat x (k - n).
Proof.
  induction n as [|n IH]; intros k.
  - rewrite Nat.sub_0_r. reflexivity.
  - destruct k as [|k]; [reflexivity|]. cbn [repeat skipn Nat.sub].
    apply IH.
Qed.

(** The copy that [can2040_transmit] makes of a message that keeps to the
    frame format: it keeps to the format, has the identifier, the length
    and the first bytes of the message, and zeros after them. *)
Lemma msg_wf_copy m :
  msg_wf m ->
  let m' := tx_copy_msg m in
  let n := Z.to_nat (data_len m) in
  msg_wf m' /\ addr m' = addr m /\ data_len m' = data_len m /\
  firstn n (d1 m') = firstn n (d1 m) /\
  rx_msg m' (Z.to_nat (data_len m')) = m'.
Proof.
  intros (Ha & Hl & Hlen & Hb). cbv zeta. unfold tx_copy_msg, memcpy.
  assert (C8 : (if 8 <? data_len m then 8 else data_len m) = data_len m).
  { destruct (Z.ltb_spec 8 (data_len m)); lia. }
  rewrite C8. cbn [addr data_len d1].
  assert (A : Z.land (addr m) 0x7ff = addr m).
  { change 2047 with (Z.ones 11). rewrite Z.land_ones by lia.
    apply Z.mod_small. lia. }
  rewrite A, skipn_repeat.
  set (n := Z.to_nat (data_len m)).
  assert (Ln : length (firstn n (d1 m)) = n)
    by (apply firstn_length_le; lia).
  assert (F : firstn n (firstn n (d1 m) ++ repeat 0 (8 - n))
              = firstn n (d1 m)).
  { rewrite firstn_app, Ln, Nat.sub_diag, firstn_firstn, Nat.min_id.
    cbn [firstn]. apply app_nil_r. }
  split; [|split; [reflexivity|split; [reflexivity|split; [exact F|]]]].
  - unfold msg_wf. cbn [addr data_len d1].
    split; [exact Ha|]. split; [exact Hl|]. split.
    + rewrite length_app, Ln, repeat_length. lia.
    + apply Forall_app. split.
      * rewrite <- (firstn_skipn n (d1 m)) in Hb.
        apply Forall_app in Hb. apply Hb.
      * apply Forall_forall. intros x Hx. apply repeat_spec in Hx. lia.
  - unfold rx_msg. cbn [addr data_len d1]. fold n. rewrite F. reflexivity.
Qed.

Lemma all_recessive k : Forall (fun x => x = true) (repeat true k).
Proof.
  apply Forall_forall. intros x Hx. apply repeat_spec in Hx. exact Hx.
Qed.

(** X9.  Round trip.  For a message that keeps to the frame format (an
    11-bit identifier, at most 8 data bytes, an array of 8 bytes) and a
    receiver that waits on an idle bus, feeding the bytes of the words that
    [can2040_transmit] has encoded through [process_rx] terminates and
    leaves the parser with the message of the slot: the identifier, the
    length and the first [data_len] bytes are those of the message given,
    and the CRC the parser has computed is the CRC of the slot.  On the way
    the CRC field passes the check: after some number of raw bits the
    parser is in MS_ACK with this message and this CRC. *)
Theorem transmit_receive_round_trip (m : can2040_msg) (cd0 : can2040) :
  msg_wf m -> rx_idle cd0 ->
  let q := tx_encode (tx_copy_msg m) in
  let n := Z.to_nat (data_len m) in
  exists cd',
    rx_bytes cd0 (tx_wire_bytes q) = Some cd' /\
    parse_msg cd' = msg q /\ parse_crc cd' = crc q /\
    addr (parse_msg cd') = addr m /\
    data_len (parse_msg cd') = data_len m /\
    firstn n (d1 (parse_msg cd')) = firstn n (d1 m) /\
    exists N cdA bytesA,
      rx_run N cd0 (tx_wire_bytes q) = (cdA, bytesA) /\
      parse_state cdA = MS_ACK /\
      parse_msg cdA = msg q /\ parse_crc cdA = crc q.
Proof.
  intros Hm Hidle. cbv zeta.
  destruct (msg_wf_copy m Hm) as (Hm' & E1 & E2 & E3 & E4). cbv zeta in *.
  remember (tx_copy_msg m) as m' eqn:Em. clear Em.
  pose proof Hm' as (_ & Hl' & _).
  destruct (tx_wire_bits m' Hl') as (k & EB).
  remember (tx_wire_bytes (tx_encode m')) as bytes eqn:Eb. clear Eb.
  pose proof Hidle as (I1 & I2 & I3 & I4 & _).
  assert (Hf : rx_future cd0 bytes = tx_stream m' ++ true :: repeat true k).
  { unfold rx_future. rewrite I2. exact EB. }
  destruct (rx_frame_head m' (fun _ => True) (fun _ _ _ _ => I)
              (fun _ _ _ => I) (fun _ _ _ _ _ => I) (fun _ _ _ => I)
              cd0 bytes _ Hm' Hidle I Hf)
    as (N & cdA & bytesA & RA & LN & P1 & P2 & P3 & _ & W4).
  cbv zeta in LN, W4.
  set (due := stuff_due
     (rev (lstuff [false; true; true; true; true]
        (bits_of (tx_hdr m') 18 ++ tx_data_bits m'
         ++ bits_of (crc (tx_encode m')) 15))
      ++ [false; true; true; true; true])) in *.
  pose proof (length_stuff_due
     (rev (lstuff [false; true; true; true; true]
        (bits_of (tx_hdr m') 18 ++ tx_data_bits m'
         ++ bits_of (crc (tx_encode m')) 15))
      ++ [false; true; true; true; true])) as Ld.
  fold due in Ld. clearbody due.
  destruct W4 as (P5 & P4 & _ & _ & P6).
  rewrite E4 in P2. rewrite msg_tx_encode.
  assert (T : rx_tail m' (crc (tx_encode m')) cdA).
  { split; [exact P2|]. split; [exact P3|]. split; [lia|].
    split; [lia|]. rewrite P1. exact I. }
  assert (K : tail_ok (parse_state cdA) (rx_future cdA bytesA)).
  { rewrite P4, P1. destruct due as [|x [|y due]].
    - split; [reflexivity | apply all_recessive].
    - split; [discriminate|]. constructor; [reflexivity|].
      apply all_recessive.
    - cbn [length] in Ld. lia. }
  assert (LB : (8 * length bytes
                = length (tx_stream m') + S k)%nat).
  { rewrite <- (length_flat_bits 8 bytes), EB, length_app.
    cbn [length]. rewrite repeat_length. reflexivity. }
  assert (Sp : (8 * length bytes
                = N + (8 * length bytes - N))%nat) by lia.
  pose proof (rx_tail_run m' (crc (tx_encode m'))
                (8 * length bytes - N) cdA bytesA T K) as TF.
  rewrite <- (RA (8 * length bytes - N)%nat), <- Sp in TF.
  destruct TF as (F1 & F2 & _).
  exists (fst (rx_run (8 * length bytes) cd0 bytes)).
  split; [apply rx_bytes_run; [exact I2 | lia]|].
  rewrite F1, F2, E1, E2, E3.
  repeat (split; [reflexivity|]).
  exists N, cdA, bytesA.
  split; [|split; [exact P1 | split; [exact P2 | exact P3]]].
  rewrite <- (Nat.add_0_r N). apply (RA 0%nat).
Qed.

Lemma transmit_receive_round_trip_witness :
  msg_wf user_msg /\ rx_idle idle_after_noise /\
  let q := tx_encode (tx_copy_msg user_msg) in
  let n := Z.to_nat (data_len user_msg) in
  exists cd',
    rx_bytes idle_after_noise (tx_wire_bytes q) = Some cd' /\
    parse_msg cd' = msg q /\ parse_crc cd' = crc q /\
    addr (parse_msg cd') = addr user_msg /\
    data_len (parse_msg cd') = data_len user_msg /\
    firstn n (d1 (parse_msg cd')) = firstn n (d1 user_msg) /\
    exists N cdA bytesA,
      rx_run N idle_after_noise (tx_wire_bytes q) = (cdA, bytesA) /\
      parse_state cdA = MS_ACK /\
      parse_msg cdA = msg q /\ parse_crc cdA = crc q.
Proof.
  assert (W : msg_wf user_msg).
  { split; [cbn; lia|]. split; [cbn; lia|]. split; [reflexivity|].
    repeat constructor; lia. }
  assert (I : rx_idle idle_after_noise).
  { repeat split; vm_compute; reflexivity. }
  split; [exact W|]. split; [exact I|].
  apply (transmit_receive_round_trip user_msg idle_after_noise W I).
Defined.

(** * Further properties of the unstuffer *)

(** X10.  [unstuf_clear_state] restarts the run count at the cursor: it
    changes at most the bit at [count_stuff], never the raw bits still to be
    consumed nor the counters nor the field; when the five bits at the
    cursor are equal (a stuff bit is due) it changes nothing, and otherwise
    the bit at the cursor differs afterwards from the one before it, so the
    bits that follow are read as data.  Doing it twice is doing it once. *)
Theorem unstuf_clear_state_breaks_run (bu : can2040_bitunstuffer) :
  0 <= count_stuff bu < 32 ->
  let bu' := unstuf_clear_state bu in
  let sb := stuffed_bits bu in
  let sb' := stuffed_bits bu' in
  let cs := count_stuff bu in
  count_stuff bu' = cs /\ unstuffed_bits bu' = unstuffed_bits bu /\
  count_unstuff bu' = count_unstuff bu /\
  (forall j, 0 <= j -> j <> cs -> Z.testbit sb' j = Z.testbit sb j) /\
  (eq5 sb cs = true -> bu' = bu) /\
  (eq5 sb cs = false ->
   Z.testbit sb' cs = negb (Z.testbit sb' (cs + 1)) /\ eq5 sb' cs = false) /\
  unstuf_clear_state bu' = bu'.
Proof.
  intros Hcs. cbv zeta. rewrite (clear_state_eq bu) by lia.
  destruct bu as [sb cs ub cu].
  cbn [stuffed_bits count_stuff unstuffed_bits count_unstuff] in *.
  assert (Same : unstuf_clear_state (mk_unstuf sb cs ub cu)
                 = mk_unstuf sb cs ub cu ->
    count_stuff (mk_unstuf sb cs ub cu) = cs /\
    unstuffed_bits (mk_unstuf sb cs ub cu) = ub /\
    count_unstuff (mk_unstuf sb cs ub cu) = cu /\
    (forall j, 0 <= j -> j <> cs ->
       Z.testbit (stuffed_bits (mk_unstuf sb cs ub cu)) j = Z.testbit sb j) /\
    (eq5 sb cs = true -> mk_unstuf sb cs ub cu = mk_unstuf sb cs ub cu)).
  { intros _. split; [reflexivity|]. split; [reflexivity|].
    split; [reflexivity|]. split; intros; reflexivity. }
  destruct (eq5 sb cs) eqn:E5; cbn [negb].
  - rewrite andb_false_r.
    assert (Id : unstuf_clear_state (mk_unstuf sb cs ub cu)
                 = mk_unstuf sb cs ub cu).
    { rewrite clear_state_eq by (cbn; lia).
      cbn [stuffed_bits count_stuff]. rewrite E5, andb_false_r.
      reflexivity. }
    destruct (Same Id) as (S1 & S2 & S3 & S4 & S5).
    split; [exact S1|]. split; [exact S2|]. split; [exact S3|].
    split; [exact S4|]. split; [exact S5|]. split; [discriminate|exact Id].
  - rewrite andb_true_r.
    destruct (eqb (Z.testbit sb cs) (Z.testbit sb (cs + 1))) eqn:Ee.
    + apply eqb_prop in Ee.
      cbn [stuffed_bits count_stuff unstuffed_bits count_unstuff].
      assert (F : forall j, 0 <= j ->
                Z.testbit (Z.lxor sb (shl 1 cs)) j
                = xorb (Z.testbit sb j) (j =? cs)).
      { intros j Hj. rewrite Z.lxor_spec, testbit_one_shl by lia.
        reflexivity. }
      assert (F0 : Z.testbit (Z.lxor sb (shl 1 cs)) cs
                   = negb (Z.testbit sb cs)).
      { rewrite F, Z.eqb_refl by lia. apply xorb_true_r. }
      assert (F1 : Z.testbit (Z.lxor sb (shl 1 cs)) (cs + 1)
                   = Z.testbit sb (cs + 1)).
      { rewrite F by lia. destruct (Z.eqb_spec (cs + 1) cs); [lia|].
        apply xorb_false_r. }
      assert (E5' : eq5 (Z.lxor sb (shl 1 cs)) cs = false).
      { unfold eq5. rewrite F0, F1, Ee.
        destruct (Z.testbit sb (cs + 1)); reflexivity. }
      split; [reflexivity|]. split; [reflexivity|]. split; [reflexivity|].
      split; [|split; [discriminate|split]].
      * intros j Hj Hne. rewrite F by lia.
        destruct (Z.eqb_spec j cs); [lia|]. apply xorb_false_r.
      * intros _. split; [|exact E5']. rewrite F0, F1, Ee. reflexivity.
      * rewrite clear_state_eq by (cbn; lia).
        cbn [stuffed_bits count_stuff]. rewrite F0, F1, Ee.
        destruct (Z.testbit sb (cs + 1)); reflexivity.
    + assert (Id : unstuf_clear_state (mk_unstuf sb cs ub cu)
                   = mk_unstuf sb cs ub cu).
      { rewrite clear_state_eq by (cbn; lia).
        cbn [stuffed_bits count_stuff]. rewrite Ee. reflexivity. }
      destruct (Same Id) as (S1 & S2 & S3 & S4 & S5).
      split; [exact S1|]. split; [exact S2|]. split; [exact S3|].
      split; [exact S4|]. split; [discriminate|]. split; [|exact Id].
      intros _. cbn [stuffed_bits]. split; [|exact E5].
      destruct (Z.testbit sb cs), (Z.testbit sb (cs + 1));
        try discriminate; reflexivity.
Qed.

Lemma unstuf_clear_state_breaks_run_witness :
  let bu := mk_unstuf 0x1e 0 0 15 in
  0 <= count_stuff bu < 32 /\
  let bu' := unstuf_clear_state bu in
  let sb := stuffed_bits bu in
  let sb' := stuffed_bits bu' in
  let cs := count_stuff bu in
  count_stuff bu' = cs /\ unstuffed_bits bu' = unstuffed_bits bu /\
  count_unstuff bu' = count_unstuff bu /\
  (forall j, 0 <= j -> j <> cs -> Z.testbit sb' j = Z.testbit sb j) /\
  (eq5 sb cs = true -> bu' = bu) /\
  (eq5 sb cs = false ->
   Z.testbit sb' cs = negb (Z.testbit sb' (cs + 1)) /\ eq5 sb' cs = false) /\
  unstuf_clear_state bu' = bu'.
Proof.
  cbv zeta. split; [cbn; lia|].
  apply (unstuf_clear_state_breaks_run (mk_unstuf 0x1e 0 0 15)). cbn. lia.
Defined.

(** * The parser keeps its data cursor inside the payload *)

Lemma length_set_nth {A} (l : list A) : forall i v,
  length (set_nth l i v) = length l.
Proof.
  induction l as [|x l IH]; intros i v; [reflexivity|].
  destruct i; cbn [set_nth length]; [reflexivity|]. rewrite IH. reflexivity.
Qed.

(** A handler that leaves the message alone and does not enter MS_DATA. *)
Lemma in_bounds_leaves cd cd' :
  parser_in_bounds cd -> parse_msg cd' = parse_msg cd ->
  parse_state cd' <> MS_DATA -> parser_in_bounds cd'.
Proof.
  intros (B1 & B2 & _) Em Es. unfold parser_in_bounds. rewrite Em.
  split; [exact B1|]. split; [exact B2|]. intros E. contradiction.
Qed.

Lemma in_bounds_go_discard cd :
  parser_in_bounds cd -> parser_in_bounds (data_state_go_discard cd).
Proof.
  intros B. pose proof (data_state_go_discard_parse cd) as G. cbv zeta in G.
  destruct G as (G1 & _ & _ & G4 & _).
  apply (in_bounds_leaves cd); [exact B | exact G4 |].
  rewrite G1. discriminate.
Qed.

Lemma in_bounds_go_idle cd :
  parser_in_bounds cd -> parser_in_bounds (data_state_go_idle cd).
Proof.
  intros B.
  destruct (parse_state_eqb (parse_state cd) MS_START) eqn:Hs.
  - pose proof (go_idle_start cd Hs) as G. cbv zeta in G.
    destruct G as (_ & _ & G3 & _ & G5).
    apply (in_bounds_leaves cd); [exact B | exact G3 |].
    destruct (_ && _); destruct G5 as (G5 & _); rewrite G5;
      [discriminate|].
    destruct (parse_state cd); discriminate.
  - pose proof (go_idle_not_start cd Hs) as G. cbv zeta in G.
    destruct G as (G1 & _ & _ & G4 & _).
    apply (in_bounds_leaves cd); [exact B | exact G4 |].
    rewrite G1. discriminate.
Qed.

Lemma in_bounds_update cd data :
  parser_in_bounds cd -> parser_in_bounds (data_state_update cd data).
Proof.
  intros B. pose proof B as (B1 & B2 & B3).
  unfold data_state_update. destruct (parse_state cd) eqn:Hs.
  - destruct (Z.land data (Z.lor (Z.shiftl 1 18) (Z.shiftl 7 4)) =? 0) eqn:E.
    + pose proof (update_start_ok cd data E) as U. cbv zeta in U.
      destruct U as (U1 & U2 & U3).
      assert (N : 0 <= Z.land data 0xf) by (apply Z.land_nonneg; lia).
      set (dlc := if 8 <? Z.land data 0xf then 8 else Z.land data 0xf) in *.
      assert (D : 0 <= dlc <= 8).
      { unfold dlc. destruct (Z.ltb_spec 8 (Z.land data 0xf)); lia. }
      unfold parser_in_bounds. rewrite U1, U2. cbn [data_len d1].
      split; [exact D|]. split; [apply repeat_length|].
      destruct (Z.leb_spec dlc 0); destruct U3 as (U3 & _); rewrite U3;
        [discriminate | intros _; lia].
    + rewrite (update_start_bad cd data E). apply in_bounds_go_discard, B.
  - pose proof (update_data_fields cd data) as U. cbv zeta in U.
    destruct U as (U1 & U2 & U3).
    specialize (B3 eq_refl).
    unfold parser_in_bounds. rewrite U1, U2. cbn [data_len d1].
    split; [exact B1|]. split; [rewrite length_set_nth; exact B2|].
    pose proof (u32_range (parse_datapos cd + 1)) as R.
    destruct (Z.leb_spec (data_len (parse_msg cd))
                (u32 (parse_datapos cd + 1)));
      destruct U3 as (U3 & _); rewrite U3; [discriminate | intros _; lia].
  - pose proof (update_crc_fields cd data) as U. cbv zeta in U.
    destruct U as (_ & U2 & _ & U4).
    apply (in_bounds_leaves cd); [exact B | exact U2 |].
    destruct (_ =? _); destruct U4 as (U4 & _); rewrite U4; discriminate.
  - pose proof (update_ack_fields cd data) as U. cbv zeta in U.
    destruct U as (_ & U2 & _ & U4).
    apply (in_bounds_leaves cd); [exact B | exact U2 |].
    destruct (_ =? _); destruct U4 as (U4 & _); rewrite U4; discriminate.
  - apply in_bounds_go_discard, B.
  - apply in_bounds_go_discard, B.
Qed.

Lemma in_bounds_rx_only cd cd' :
  rx_only cd cd' -> parser_in_bounds cd -> parser_in_bounds cd'.
Proof. intros (bu & rc & ->) B. exact B. Qed.

Lemma process_rx_load cd b :
  process_rx cd b = process_rx_loop PROCESS_RX_FUEL (rx_load cd b).
Proof. reflexivity. Qed.

Lemma in_bounds_set_unstuf cd bu :
  parser_in_bounds cd -> parser_in_bounds (set_unstuf bu cd).
Proof. intros B. exact B. Qed.

Lemma in_bounds_process_rx_loop fuel : forall cd cd',
  parser_in_bounds cd -> process_rx_loop fuel cd = Some cd' ->
  parser_in_bounds cd'.
Proof.
  induction fuel as [|fuel IH]; intros cd cd' B P; [discriminate|].
  rewrite process_rx_loop_S in P.
  destruct (unstuf_pull_bits (unstuf cd)) as [ret bu].
  pose proof (in_bounds_set_unstuf cd bu B) as B1.
  destruct (ret =? 0).
  - apply (IH _ _ (in_bounds_update _ _ B1) P).
  - destruct (0 <? ret).
    + inversion P; subst. exact B1.
    + destruct (ret =? -1).
      * apply (IH _ _ (in_bounds_go_idle _ B1) P).
      * apply (IH _ _ (in_bounds_go_discard _ B1) P).
Qed.

Lemma parse_can2040_transmit cd m :
  parse_state (snd (can2040_transmit cd m)) = parse_state cd /\
  parse_msg (snd (can2040_transmit cd m)) = parse_msg cd /\
  parse_datapos (snd (can2040_transmit cd m)) = parse_datapos cd.
Proof.
  unfold can2040_transmit.
  destruct (TX_QUEUE_SIZE <=? _); [repeat split; reflexivity|]. cbn [snd].
  destruct (parse_state_eqb _ _); [|repeat split; reflexivity].
  match goal with |- context [tx_do_schedule ?c] =>
    destruct (same_parse_tx_do_schedule c) as (S1 & _ & _ & S4 & S5 & _) end.
  rewrite S1, S4, S5. repeat split; reflexivity.
Qed.

(** X11.  In every state the controller can reach, the message being
    parsed has its 8 bytes and a length of at most 8, and in MS_DATA the
    data cursor is below that length: the store [d1[parse_datapos++]] of
    [data_state_update_data] is always inside the array. *)
Theorem parser_store_in_bounds (cd : can2040) :
  reachable cd -> parser_in_bounds cd.
Proof.
  induction 1 as [|cd R IH|cd b cd' R IH P|cd idle R IH|cd m R IH|cd b R IH].
  - split; [cbn; lia|]. split; [reflexivity | discriminate].
  - unfold can2040_start. apply in_bounds_go_discard. exact IH.
  - rewrite process_rx_load in P.
    apply (in_bounds_process_rx_loop _ _ _
             (in_bounds_rx_only _ _ (rx_only_load _ _ b (rx_only_refl cd)) IH)
             P).
  - unfold dma_irq_forced. destruct (_ && _); [|exact IH].
    apply in_bounds_go_idle, IH.
  - destruct (parse_can2040_transmit cd m) as (T1 & T2 & T3).
    unfold parser_in_bounds. rewrite T1, T2, T3. exact IH.
  - exact IH.
Qed.

Lemma parser_store_in_bounds_witness :
  reachable after_header /\
  parse_state after_header = MS_DATA /\
  parser_in_bounds after_header.
Proof.
  assert (R0 : reachable idle_after_start).
  { apply (reachable_rx_bytes [0xff; 0xff] (can2040_start can2040_setup));
      [apply reach_start, reach_setup | vm_compute; reflexivity]. }
  assert (R : reachable after_header).
  { apply (reachable_rx_bytes [0x12; 0x30; 0x5a] idle_after_start);
      [exact R0 | vm_compute; reflexivity]. }
  split; [exact R|]. split; [vm_compute; reflexivity|].
  apply (parser_store_in_bounds after_header R).
Defined.

(** * Further properties of the transmit queue *)

(** X12.  [can2040_check_transmit] tells what [can2040_transmit] will do:
    when it returns true the message is queued and 0 returned, and when it
    returns false [can2040_transmit] returns -1 and changes nothing. *)
Theorem check_transmit_predicts_transmit (cd : can2040) (m : can2040_msg) :
  if can2040_check_transmit cd
  then fst (can2040_transmit cd m) = 0 /\
       tx_push_pos (snd (can2040_transmit cd m)) = u32 (tx_push_pos cd + 1)
  else can2040_transmit cd m = (-1, cd).
Proof.
  unfold can2040_check_transmit, can2040_transmit. cbv zeta.
  set (p := u32 (tx_push_pos cd - tx_pull_pos cd)).
  destruct (Z.ltb_spec p TX_QUEUE_SIZE), (Z.leb_spec TX_QUEUE_SIZE p);
    try lia; [|reflexivity].
  cbn [fst snd]. split; [reflexivity|].
  destruct (parse_state_eqb _ _); [|reflexivity].
  match goal with |- context [tx_do_schedule ?c] =>
    destruct (tx_do_schedule_queue c) as (_ & E) end.
  rewrite E. reflexivity.
Qed.

Lemma le_word_bytes a b c d a' b' c' d' :
  0 <= a < 256 -> 0 <= b < 256 -> 0 <= c < 256 -> 0 <= d < 256 ->
  0 <= a' < 256 -> 0 <= b' < 256 -> 0 <= c' < 256 -> 0 <= d' < 256 ->
  le_word [a; b; c; d] = le_word [a'; b'; c'; d'] ->
  a = a' /\ b = b' /\ c = c' /\ d = d'.
Proof. unfold le_word. cbn [nth]. intros. lia. Qed.

Lemma d4_bytes m m' :
  length (d1 m) = 8%nat -> length (d1 m') = 8%nat ->
  Forall (fun x => 0 <= x < 256) (d1 m) ->
  Forall (fun x => 0 <= x < 256) (d1 m') ->
  d4 m 0 = d4 m' 0 -> d4 m 1 = d4 m' 1 -> d1 m = d1 m'.
Proof.
  unfold d4. destruct m as [a l d], m' as [a' l' d']. cbn [d1].
  intros L L' F F' E0 E1.
  destruct d as [|x0 [|x1 [|x2 [|x3 [|x4 [|x5 [|x6 [|x7 [|x8 d]]]]]]]]];
    try discriminate.
  destruct d' as [|y0 [|y1 [|y2 [|y3 [|y4 [|y5 [|y6 [|y7 [|y8 d']]]]]]]]];
    try discriminate.
  cbn [Nat.mul Nat.add skipn firstn] in E0, E1.
  repeat match goal with
         | H : Forall _ (_ :: _) |- _ => inversion H; clear H; subst
         end.
  apply le_word_bytes in E0; try assumption.
  apply le_word_bytes in E1; try assumption.
  destruct E0 as (? & ? & ? & ?), E1 as (? & ? & ? & ?). subst.
  reflexivity.
Qed.

(** X13.  [tx_check_self_transmit] claims a frame as the controller's own
    only when a transmission is in progress and the frame parsed is the
    frame of the slot being sent: same CRC, identifier, length and all
    eight payload bytes.  It then changes nothing.  When it does not claim
    the frame while a transmission is in progress it cancels it. *)
Theorem self_transmit_only_own_frame (cd : can2040) :
  let qt := tx_slot cd (tx_pull_pos cd) in
  length (d1 (parse_msg cd)) = 8%nat -> length (d1 (msg qt)) = 8%nat ->
  Forall (fun x => 0 <= x < 256) (d1 (parse_msg cd)) ->
  Forall (fun x => 0 <= x < 256) (d1 (msg qt)) ->
  let r := tx_check_self_transmit cd in
  (fst r = true ->
   in_transmit cd <> 0 /\ snd r = cd /\
   parse_msg cd = msg qt /\ parse_crc cd = crc qt) /\
  (fst r = false -> in_transmit cd <> 0 ->
   snd r = tx_cancel cd /\ in_transmit (snd r) = 0 /\
   log (snd r) = PioTxCancel :: log cd).
Proof.
  intros qt L L' F F' r. subst r. unfold tx_check_self_transmit.
  fold qt. cbv zeta.
  destruct (Z.eqb_spec (in_transmit cd) 0) as [E|E].
  - cbn [fst snd]. split; [discriminate | intros _ H; contradiction].
  - destruct (Z.eqb_spec (crc qt) (parse_crc cd)) as [Ec|Ec];
      cbn [andb]; [|cbn [fst snd]; split;
        [discriminate | intros _ _; repeat split; reflexivity]].
    destruct (Z.eqb_spec (addr (msg qt)) (addr (parse_msg cd))) as [Ea|Ea];
      cbn [andb]; [|cbn [fst snd]; split;
        [discriminate | intros _ _; repeat split; reflexivity]].
    destruct (Z.eqb_spec (data_len (msg qt)) (data_len (parse_msg cd)))
      as [El|El];
      cbn [andb]; [|cbn [fst snd]; split;
        [discriminate | intros _ _; repeat split; reflexivity]].
    destruct (Z.eqb_spec (d4 (msg qt) 0) (d4 (parse_msg cd) 0)) as [E0|E0];
      cbn [andb]; [|cbn [fst snd]; split;
        [discriminate | intros _ _; repeat split; reflexivity]].
    destruct (Z.eqb_spec (d4 (msg qt) 1) (d4 (parse_msg cd) 1)) as [E1|E1];
      cbn [fst snd]; [|split;
        [discriminate | intros _ _; repeat split; reflexivity]].
    split; [|discriminate]. intros _.
    split; [exact E|]. split; [reflexivity|]. split; [|congruence].
    pose proof (d4_bytes _ _ L' L F' F E0 E1) as Ed.
    destruct (parse_msg cd) as [a l d], (msg qt) as [a' l' d'].
    cbn [addr data_len d1] in *. congruence.
Qed.

Lemma self_transmit_only_own_frame_witness :
  (let cd := own_frame_heard in
   let qt := tx_slot cd (tx_pull_pos cd) in
   let r := tx_check_self_transmit cd in
   length (d1 (parse_msg cd)) = 8%nat /\ length (d1 (msg qt)) = 8%nat /\
   Forall (fun x => 0 <= x < 256) (d1 (parse_msg cd)) /\
   Forall (fun x => 0 <= x < 256) (d1 (msg qt)) /\
   fst r = true /\
   in_transmit cd <> 0 /\ snd r = cd /\
   parse_msg cd = msg qt /\ parse_crc cd = crc qt) /\
  (let cd := sending_user_msg in
   let qt := tx_slot cd (tx_pull_pos cd) in
   let r := tx_check_self_transmit cd in
   length (d1 (parse_msg cd)) = 8%nat /\ length (d1 (msg qt)) = 8%nat /\
   Forall (fun x => 0 <= x < 256) (d1 (parse_msg cd)) /\
   Forall (fun x => 0 <= x < 256) (d1 (msg qt)) /\
   fst r = false /\ in_transmit cd <> 0 /\
   snd r = tx_cancel cd /\ in_transmit (snd r) = 0 /\
   log (snd r) = PioTxCancel :: log cd).
Proof.
  assert (F0 : Forall (fun x => 0 <= x < 256) [0; 0; 0; 0; 0; 0; 0; 0])
    by (repeat constructor; lia).
  assert (F1 : Forall (fun x => 0 <= x < 256) [165; 0; 0; 0; 0; 0; 0; 0])
    by (repeat constructor; lia).
  split; cbv zeta.
  - assert (L : length (d1 (parse_msg own_frame_heard)) = 8%nat)
      by (vm_compute; reflexivity).
    assert (L' : length (d1 (msg (tx_slot own_frame_heard
                                    (tx_pull_pos own_frame_heard)))) = 8%nat)
      by (vm_compute; reflexivity).
    assert (F : Forall (fun x => 0 <= x < 256)
                       (d1 (parse_msg own_frame_heard))).
    { replace (d1 (parse_msg own_frame_heard))
        with [165; 0; 0; 0; 0; 0; 0; 0] by (vm_compute; reflexivity).
      exact F1. }
    assert (F' : Forall (fun x => 0 <= x < 256)
                   (d1 (msg (tx_slot own_frame_heard
                               (tx_pull_pos own_frame_heard))))).
    { replace (d1 (msg (tx_slot own_frame_heard
                          (tx_pull_pos own_frame_heard))))
        with [165; 0; 0; 0; 0; 0; 0; 0] by (vm_compute; reflexivity).
      exact F1. }
    assert (T : fst (tx_check_self_transmit own_frame_heard) = true)
      by (vm_compute; reflexivity).
    split; [exact L|]. split; [exact L'|]. split; [exact F|].
    split; [exact F'|]. split; [exact T|].
    exact (proj1 (self_transmit_only_own_frame own_frame_heard L L' F F') T).
  - assert (L : length (d1 (parse_msg sending_user_msg)) = 8%nat)
      by (vm_compute; reflexivity).
    assert (L' : length (d1 (msg (tx_slot sending_user_msg
                                    (tx_pull_pos sending_user_msg)))) = 8%nat)
      by (vm_compute; reflexivity).
    assert (F : Forall (fun x => 0 <= x < 256)
                       (d1 (parse_msg sending_user_msg))).
    { replace (d1 (parse_msg sending_user_msg))
        with [0; 0; 0; 0; 0; 0; 0; 0] by (vm_compute; reflexivity).
      exact F0. }
    assert (F' : Forall (fun x => 0 <= x < 256)
                   (d1 (msg (tx_slot sending_user_msg
                               (tx_pull_pos sending_user_msg))))).
    { replace (d1 (msg (tx_slot sending_user_msg
                          (tx_pull_pos sending_user_msg))))
        with [165; 0; 0; 0; 0; 0; 0; 0] by (vm_compute; reflexivity).
      exact F1. }
    assert (T : fst (tx_check_self_transmit sending_user_msg) = false)
      by (vm_compute; reflexivity).
    assert (N : in_transmit sending_user_msg <> 0)
      by (vm_compute; discriminate).
    split; [exact L|]. split; [exact L'|]. split; [exact F|].
    split; [exact F'|]. split; [exact T|]. split; [exact N|].
    exact (proj2 (self_transmit_only_own_frame sending_user_msg L L' F F')
                 T N).
Defined.

Lemma u32_succ_neq p : 0 <= p < 2 ^ 32 -> u32 (p + 1) <> p.
Proof.
  intros H. unfold u32.
  destruct (Z.eq_dec p (2 ^ 32 - 1)) as [->|N].
  - vm_compute. discriminate.
  - rewrite Z.mod_small by lia. lia.
Qed.

(** X14.  A message queued while the queue is empty, no transmission is
    in progress and the parser waits in MS_START is sent at once: the
    words handed to the PIO are the [stuffed_words] first words of the
    encoding of the sanitized message, and the transmission is marked in
    progress.  In any other parser state [can2040_transmit] only queues:
    nothing is handed to the PIO and the transmit state is as it was. *)
Theorem transmit_starts_when_idle (cd : can2040) (m : can2040_msg) :
  length (tx_queue cd) = Z.to_nat TX_QUEUE_SIZE ->
  tx_push_pos cd = tx_pull_pos cd -> 0 <= tx_pull_pos cd < 2 ^ 32 ->
  in_transmit cd = 0 -> cancel_count cd <= 32 ->
  let q := tx_encode (tx_copy_msg m) in
  let cd' := snd (can2040_transmit cd m) in
  fst (can2040_transmit cd m) = 0 /\
  tx_slot cd' (tx_pull_pos cd) = q /\
  if parse_state_eqb (parse_state cd) MS_START
  then log cd'
       = PioTxSend (firstn (Z.to_nat (stuffed_words q)) (stuffed_data q))
         :: log cd /\
       in_transmit cd' = 1 /\ tx_pull_pos cd' = tx_pull_pos cd
  else log cd' = log cd /\ in_transmit cd' = 0 /\
       tx_pull_pos cd' = tx_pull_pos cd.
Proof.
  intros Hlen Hpp Hr Hit Hcc. cbv zeta. unfold can2040_transmit. cbv zeta.
  rewrite Hpp, Z.sub_diag.
  change (TX_QUEUE_SIZE <=? u32 0) with false. cbv iota. cbn [fst snd].
  set (q := tx_encode (tx_copy_msg m)).
  set (cd1 := set_tx_push_pos (u32 (tx_pull_pos cd + 1))
                (set_tx_queue (set_nth (tx_queue cd)
                   (Z.to_nat (tx_qpos (tx_pull_pos cd))) q) cd)).
  assert (Hs : tx_slot cd1 (tx_pull_pos cd) = q).
  { unfold tx_slot. cbn [cd1 tx_queue set_tx_push_pos set_tx_queue].
    apply nth_set_nth. rewrite Hlen. unfold tx_qpos, TX_QUEUE_SIZE.
    pose proof (Z.mod_pos_bound (tx_pull_pos cd) 4). lia. }
  change (parse_state cd1) with (parse_state cd).
  split; [reflexivity|].
  destruct (parse_state_eqb (parse_state cd) MS_START).
  - unfold tx_do_schedule.
    change (in_transmit cd1) with (in_transmit cd).
    change (tx_push_pos cd1) with (u32 (tx_pull_pos cd + 1)).
    change (tx_pull_pos cd1) with (tx_pull_pos cd).
    change (cancel_count cd1) with (cancel_count cd).
    rewrite Hit. cbn [Z.eqb negb orb].
    destruct (Z.eqb_spec (u32 (tx_pull_pos cd + 1)) (tx_pull_pos cd)) as [E|_];
      [exfalso; exact (u32_succ_neq _ Hr E)|].
    destruct (Z.ltb_spec 32 (cancel_count cd)); [lia|].
    cbv zeta.
    set (cd2 := set_in_transmit 1 cd1).
    change (tx_pull_pos cd2) with (tx_pull_pos cd).
    assert (Hs2 : tx_slot cd2 (tx_pull_pos cd) = q) by exact Hs.
    rewrite Hs2. unfold pio_tx_send.
    split; [exact Hs2|]. split; [reflexivity|]. split; reflexivity.
  - split; [exact Hs|]. split; [reflexivity|]. split; [exact Hit|reflexivity].
Qed.

Lemma transmit_starts_when_idle_witness :
  let cd := can2040_setup in
  length (tx_queue cd) = Z.to_nat TX_QUEUE_SIZE /\
  tx_push_pos cd = tx_pull_pos cd /\ 0 <= tx_pull_pos cd < 2 ^ 32 /\
  in_transmit cd = 0 /\ cancel_count cd <= 32 /\
  let q := tx_encode (tx_copy_msg user_msg) in
  let cd' := snd (can2040_transmit cd user_msg) in
  fst (can2040_transmit cd user_msg) = 0 /\
  tx_slot cd' (tx_pull_pos cd) = q /\
  if parse_state_eqb (parse_state cd) MS_START
  then log cd'
       = PioTxSend (firstn (Z.to_nat (stuffed_words q)) (stuffed_data q))
         :: log cd /\
       in_transmit cd' = 1 /\ tx_pull_pos cd' = tx_pull_pos cd
  else log cd' = log cd /\ in_transmit cd' = 0 /\
       tx_pull_pos cd' = tx_pull_pos cd.
Proof.
  cbv zeta. split; [reflexivity|]. split; [reflexivity|].
  split; [cbn; lia|]. split; [reflexivity|]. split; [cbn; lia|].
  apply (transmit_starts_when_idle can2040_setup user_msg);
    [reflexivity | reflexivity | cbn; lia | reflexivity | cbn; lia].
Defined.

(** * A controller that only listens *)

Lemma passive_rx_only L cd cd' :
  rx_only cd cd' -> rx_passive L cd -> rx_passive L cd'.
Proof. intros (bu & rc & ->) P. exact P. Qed.

Lemma passive_emit L e cd :
  is_notify e = false -> rx_passive L cd -> rx_passive L (emit e cd).
Proof.
  intros He (P1 & P2 & P3). split; [exact P1|]. split; [exact P2|].
  unfold notes in *. cbn [log emit filter]. rewrite He. exact P3.
Qed.

Lemma passive_parse L cd cd' :
  in_transmit cd' = in_transmit cd -> tx_push_pos cd' = tx_push_pos cd ->
  tx_pull_pos cd' = tx_pull_pos cd -> log cd' = log cd ->
  rx_passive L cd -> rx_passive L cd'.
Proof.
  intros E1 E2 E3 E4 (P1 & P2 & P3). unfold rx_passive, notes.
  rewrite E1, E2, E3, E4. repeat split; assumption.
Qed.

Lemma passive_go_discard L cd :
  rx_passive L cd -> rx_passive L (data_state_go_discard cd).
Proof.
  intros (P1 & P2 & P3). split; [reflexivity|]. split; [exact P2|].
  exact P3.
Qed.

Lemma passive_self_transmit L cd :
  rx_passive L cd -> tx_check_self_transmit cd = (false, cd).
Proof.
  intros (P1 & _). unfold tx_check_self_transmit. rewrite P1. reflexivity.
Qed.

Lemma passive_go_crc L cd :
  rx_passive L cd -> rx_passive L (data_state_go_crc cd).
Proof.
  intros P. unfold data_state_go_crc.
  set (cd1 := set_parse_crc _ _).
  assert (P1 : rx_passive L cd1)
    by (apply (passive_parse L cd); try reflexivity; exact P).
  rewrite (passive_self_transmit L cd1 P1). cbv zeta.
  destruct (bitstuff _ _) as [last newcount].
  apply passive_emit; [reflexivity | exact P1].
Qed.

Lemma passive_update_start L cd data :
  rx_passive L cd -> rx_passive L (data_state_update_start cd data).
Proof.
  intros P. unfold data_state_update_start.
  destruct (negb _); [apply passive_go_discard, P|].
  cbv zeta. apply passive_emit; [reflexivity|].
  set (cd1 := set_parse_datapos 0 _).
  assert (P1 : rx_passive L cd1)
    by (apply (passive_parse L cd); try reflexivity; exact P).
  destruct (_ <=? _); [apply passive_go_crc, P1|].
  apply (passive_parse L cd1); try reflexivity. exact P1.
Qed.

Lemma passive_update_data L cd data :
  rx_passive L cd -> rx_passive L (data_state_update_data cd data).
Proof.
  intros P. unfold data_state_update_data. cbv zeta.
  set (cd1 := set_parse_datapos _ _).
  assert (P1 : rx_passive L cd1)
    by (apply (passive_parse L cd); try reflexivity; exact P).
  destruct (_ <=? _); [apply passive_go_crc, P1|].
  apply (passive_parse L cd1); try reflexivity. exact P1.
Qed.

Lemma passive_update_crc L cd data :
  rx_passive L cd -> rx_passive L (data_state_update_crc cd data).
Proof.
  intros P. unfold data_state_update_crc.
  destruct (negb _).
  - apply passive_go_discard, passive_emit; [reflexivity | exact P].
  - apply (passive_parse L cd); try reflexivity. exact P.
Qed.

Lemma passive_update_ack L cd :
  rx_passive L cd -> rx_passive L (data_state_update_ack cd 2).
Proof.
  intros P. unfold data_state_update_ack. cbn [Z.eqb negb]. cbv zeta.
  apply (passive_parse L (pio_ack_cancel cd)); try reflexivity.
  apply passive_emit; [reflexivity | exact P].
Qed.

Lemma passive_schedule L cd :
  rx_passive L cd -> tx_do_schedule cd = cd.
Proof.
  intros (P1 & P2 & _). unfold tx_do_schedule.
  rewrite P1, P2, !Z.eqb_refl. reflexivity.
Qed.

(** The end of a frame that is not the controller's own: the message is
    reported, once. *)
Lemma go_idle_reports L cd :
  rx_passive L cd -> parse_state cd = MS_EOF ->
  unstuffed_bits (unstuf cd) = 62 -> count_unstuff (unstuf cd) = 1 ->
  rx_passive (Notify CAN2040_ID_RX (parse_msg cd) :: L)
             (data_state_go_idle cd).
Proof.
  intros P Hs Hub Hcu. unfold data_state_go_idle. rewrite Hs.
  cbn [parse_state_eqb]. cbv zeta.
  set (cd1 := pio_sync_disable_idle_irq cd).
  assert (P1 : rx_passive L cd1)
    by (apply passive_emit; [reflexivity | exact P]).
  change (parse_state cd1) with (parse_state cd). rewrite Hs.
  cbn [parse_state_eqb].
  change (unstuf cd1) with (unstuf cd). rewrite Hub, Hcu.
  change (u32 (shr 62 1 + 1) =? shl 1 (6 - 1)) with true. cbv iota.
  rewrite (passive_self_transmit L cd1 P1).
  set (cd2 := pio_ack_cancel (report_rx_msg cd1)).
  assert (P2 : rx_passive (Notify CAN2040_ID_RX (parse_msg cd) :: L) cd2).
  { destruct P1 as (Q1 & Q2 & Q3). split; [exact Q1|]. split; [exact Q2|].
    unfold notes in *. cbn [cd2 pio_ack_cancel report_rx_msg emit log filter
                            is_notify].
    rewrite Q3. reflexivity. }
  rewrite (passive_schedule _ cd2 P2).
  apply (passive_parse _ cd2); try reflexivity. exact P2.
Qed.

Lemma passive_go_idle L cd :
  rx_passive L cd -> parse_state cd <> MS_EOF ->
  rx_passive L (data_state_go_idle cd).
Proof.
  intros P Hs. unfold data_state_go_idle.
  destruct (parse_state_eqb (parse_state cd) MS_START) eqn:E.
  - destruct (_ && _).
    + apply passive_go_discard.
      apply (passive_parse L (pio_sync_setup cd)); try reflexivity.
      apply passive_emit; [reflexivity | exact P].
    + apply (passive_parse L cd); try reflexivity. exact P.
  - cbv zeta. set (cd1 := pio_sync_disable_idle_irq cd).
    assert (P1 : rx_passive L cd1)
      by (apply passive_emit; [reflexivity | exact P]).
    change (parse_state cd1) with (parse_state cd).
    assert (E2 : parse_state_eqb (parse_state cd) MS_EOF = false)
      by (destruct (parse_state cd); try reflexivity; congruence).
    rewrite E2.
    assert (P2 : rx_passive L (pio_ack_cancel cd1))
      by (apply passive_emit; [reflexivity | exact P1]).
    rewrite (passive_schedule _ _ P2).
    apply (passive_parse _ (pio_ack_cancel cd1)); try reflexivity. exact P2.
Qed.

(** * Acknowledge and end of frame *)

Lemma run5_edge0 h :
  eqb (nth 0 h false) (nth 1 h false) = false -> run5 h = false.
Proof. intros E. unfold run5. rewrite E. reflexivity. Qed.

Lemma run5_edge1 x h :
  eqb (nth 0 h false) (nth 1 h false) = false -> run5 (x :: h) = false.
Proof.
  intros E. unfold run5. cbn [nth]. rewrite E, andb_false_r. reflexivity.
Qed.

Lemma rx_window_eq5 cd bytes hs p ub cu :
  rx_window cd bytes hs p ub cu ->
  eq5 (stuffed_bits (unstuf cd)) (count_stuff (unstuf cd)) = run5 hs /\
  Z.testbit (stuffed_bits (unstuf cd)) (count_stuff (unstuf cd))
  = nth 0 hs false.
Proof.
  intros (_ & _ & W2 & _). split.
  - rewrite <- run5_hist. apply run5_ext5. intros j Hj.
    rewrite nth_hist by lia. apply W2, Hj.
  - rewrite <- (W2 0%nat) by lia. f_equal. lia.
Qed.

Lemma data_state_update_at_ack cd data :
  parse_state cd = MS_ACK ->
  data_state_update cd data = data_state_update_ack cd data.
Proof. intros E. unfold data_state_update. rewrite E. reflexivity. Qed.

(** The stuff bit that may be due after the CRC is dropped; after it the
    two most recent bits differ, as they do after [unstuf_clear_state]. *)
Lemma rx_after_crc cd bytes hF p :
  rx_window cd bytes (clear_hist hF) (stuff_due hF ++ p) 0 2 ->
  exists cd1 bytes1 hB,
    rx_reaches (length (stuff_due hF)) cd bytes cd1 bytes1 /\
    rx_only cd cd1 /\ rx_window cd1 bytes1 hB p 0 2 /\
    eqb (nth 0 hB false) (nth 1 hB false) = false.
Proof.
  unfold clear_hist, stuff_due. intros W.
  destruct (run5 hF) eqn:R.
  - rewrite andb_false_r in W. cbn [app] in W.
    destruct (rx_drop_bit _ _ _ _ _ _ _ W R eq_refl)
      as (cd1 & b1 & S1 & O1 & W1).
    exists cd1, b1, (negb (nth 0 hF false) :: hF).
    split; [exact S1|]. split; [exact O1|]. split; [exact W1|].
    cbn [nth]. destruct (nth 0 hF false); reflexivity.
  - rewrite andb_true_r in W. cbn [app] in W.
    destruct (eqb (nth 0 hF false) (nth 1 hF false)) eqn:E.
    + exists cd, bytes, (negb (nth 0 hF false) :: tl hF).
      split; [apply rx_reaches_refl|]. split; [apply rx_only_refl|].
      split; [exact W|].
      apply eqb_prop in E.
      destruct hF as [|x [|y hF]]; cbn [nth tl] in *; subst;
        try reflexivity. destruct y; reflexivity.
    + exists cd, bytes, hF.
      split; [apply rx_reaches_refl|]. split; [apply rx_only_refl|].
      split; [exact W | exact E].
Qed.

Lemma rx_reaches_one cd bytes cd' bytes' :
  (forall n, rx_run (S n) cd bytes = rx_run n cd' bytes') ->
  rx_reaches 1 cd bytes cd' bytes'.
Proof. intros H n. apply H. Qed.

(** CRC delimiter and ACK slot: the parser goes to MS_EOF. *)
Lemma rx_ack_slot L cd bytes hB p :
  parse_state cd = MS_ACK -> rx_passive L cd ->
  eqb (nth 0 hB false) (nth 1 hB false) = false ->
  rx_window cd bytes hB (true :: false :: p) 0 2 ->
  exists cd' bytes',
    rx_reaches 2 cd bytes cd' bytes' /\
    parse_state cd' = MS_EOF /\ parse_msg cd' = parse_msg cd /\
    rx_passive L cd' /\
    rx_window cd' bytes' (false :: true :: hB) p 0 6.
Proof.
  intros Hs P E W.
  destruct (rx_data_bit _ _ _ _ _ _ _ W (run5_edge0 _ E) ltac:(lia))
    as (cd1 & b1 & S1 & O1 & W1).
  change (2 - 1) with 1 in W1.
  destruct (rx_last_bit _ _ _ _ _ _ W1 (run5_edge1 true _ E))
    as (cdm & b2 & S2 & O2 & W2).
  change (Z.lor (Z.lor 0 (shl (Z.b2z true) 1)) (shl (Z.b2z false) 0))
    with 2 in S2, W2.
  pose proof (rx_only_trans _ _ _ O1 O2) as O.
  assert (Hsm : parse_state cdm = MS_ACK)
    by (rewrite (rx_only_state _ _ O); exact Hs).
  rewrite (data_state_update_at_ack _ _ Hsm) in S2.
  pose proof (update_ack_fields cdm 2) as U. cbv zeta in U.
  change (2 =? 2) with true in U. cbv iota in U.
  destruct U as (_ & U2 & _ & U3 & U4).
  exists (data_state_update_ack cdm 2), b2.
  split; [|split; [exact U3|split; [|split]]].
  - apply (rx_reaches_trans 1 1 _ _ cd1 b1);
      apply rx_reaches_one; assumption.
  - rewrite U2. apply (rx_only_msg _ _ O).
  - apply passive_update_ack, (passive_rx_only L cd); assumption.
  - eapply rx_window_set_count; [exact U4 | exact W2].
Qed.

(** ACK delimiter and end of frame: at the sixth recessive bit the message
    is reported and the parser waits for the next frame. *)
Lemma rx_end_of_frame L cd bytes h p :
  parse_state cd = MS_EOF -> rx_passive L cd ->
  rx_window cd bytes (false :: true :: h)
            (true :: true :: true :: true :: true :: true :: p) 0 6 ->
  exists cd' bytes',
    rx_reaches 6 cd bytes cd' bytes' /\
    parse_state cd' = MS_START /\ parse_msg cd' = parse_msg cd /\
    rx_passive (Notify CAN2040_ID_RX (parse_msg cd) :: L) cd' /\
    rx_window cd' bytes'
      (true :: true :: true :: true :: true :: true :: false :: true :: h)
      p 0 18.
Proof.
  intros Hs P W.
  destruct (rx_data_bit _ _ _ _ _ _ _ W eq_refl ltac:(lia))
    as (cd1 & b1 & S1 & O1 & W1). change (6 - 1) with 5 in W1.
  destruct (rx_data_bit _ _ _ _ _ _ _ W1 eq_refl ltac:(lia))
    as (cd2 & b2 & S2 & O2 & W2). change (5 - 1) with 4 in W2.
  destruct (rx_data_bit _ _ _ _ _ _ _ W2 eq_refl ltac:(lia))
    as (cd3 & b3 & S3 & O3 & W3). change (4 - 1) with 3 in W3.
  destruct (rx_data_bit _ _ _ _ _ _ _ W3 eq_refl ltac:(lia))
    as (cd4 & b4 & S4 & O4 & W4). change (3 - 1) with 2 in W4.
  destruct (rx_data_bit _ _ _ _ _ _ _ W4 eq_refl ltac:(lia))
    as (cd5 & b5 & S5 & O5 & W5). change (2 - 1) with 1 in W5.
  destruct (rx_sixth_bit _ _ _ _ _ _ _ W5 eq_refl eq_refl)
    as (cdm & b6 & S6 & O6 & W6).
  cbv iota in S6.
  pose proof (rx_only_trans _ _ _ O1
               (rx_only_trans _ _ _ O2
                 (rx_only_trans _ _ _ O3
                   (rx_only_trans _ _ _ O4
                     (rx_only_trans _ _ _ O5 O6))))) as O.
  assert (Hsm : parse_state cdm = MS_EOF)
    by (rewrite (rx_only_state _ _ O); exact Hs).
  assert (Pm : rx_passive L cdm) by (apply (passive_rx_only L cd); assumption).
  pose proof W6 as (_ & _ & _ & Ub & Cu).
  assert (Ub' : unstuffed_bits (unstuf cdm) = 62) by (rewrite Ub; reflexivity).
  pose proof (go_idle_reports L cdm Pm Hsm Ub' Cu) as PR.
  rewrite (rx_only_msg _ _ O) in PR.
  assert (Ne : parse_state_eqb (parse_state cdm) MS_START = false)
    by (rewrite Hsm; reflexivity).
  pose proof (go_idle_not_start cdm Ne) as G. cbv zeta in G.
  destruct G as (G1 & _ & _ & G4 & _ & G6).
  exists (data_state_go_idle cdm), b6.
  split; [|split; [exact G1|split; [|split; [exact PR|]]]].
  - apply (rx_reaches_trans 1 5 _ _ cd1 b1); [apply rx_reaches_one, S1|].
    apply (rx_reaches_trans 1 4 _ _ cd2 b2); [apply rx_reaches_one, S2|].
    apply (rx_reaches_trans 1 3 _ _ cd3 b3); [apply rx_reaches_one, S3|].
    apply (rx_reaches_trans 1 2 _ _ cd4 b4); [apply rx_reaches_one, S4|].
    apply (rx_reaches_trans 1 1 _ _ cd5 b5); apply rx_reaches_one;
      assumption.
  - rewrite G4. apply (rx_only_msg _ _ O).
  - eapply rx_window_set_count; [exact G6 | exact W6].
Qed.

(** * After the report: the bus stays recessive *)

Lemma rx_rest_rearmed L cd' bu n :
  rx_passive L cd' ->
  unstuf cd' = unstuf_set_count bu n -> n <> 0 -> 0 <= count_stuff bu <= 8 ->
  match parse_state cd' with
  | MS_START =>
    eq5 (stuffed_bits bu) (count_stuff bu) = true /\
    Z.testbit (stuffed_bits bu) (count_stuff bu) = true
  | MS_DISCARD => True
  | _ => False
  end ->
  rx_rest L cd' /\ count_stuff (unstuf cd') = count_stuff bu /\
  stuffed_bits (unstuf cd') = stuffed_bits bu.
Proof.
  intros H1 H3 H4 H5 H6. unfold rx_rest. rewrite H3.
  cbn [unstuf_set_count stuffed_bits count_stuff count_unstuff].
  split; [|split; reflexivity].
  split; [exact H1|]. split; [exact H5|]. split; [exact H4 | exact H6].
Qed.

Lemma rx_rest_step L cd :
  rx_rest L cd -> 0 < count_stuff (unstuf cd) ->
  Z.testbit (stuffed_bits (unstuf cd)) (count_stuff (unstuf cd) - 1) = true ->
  rx_rest L (rx_step cd) /\
  count_stuff (unstuf (rx_step cd)) = count_stuff (unstuf cd) - 1 /\
  forall j, 0 <= j < count_stuff (unstuf cd) - 1 ->
    Z.testbit (stuffed_bits (unstuf (rx_step cd))) j
    = Z.testbit (stuffed_bits (unstuf cd)) j.
Proof.
  intros (T1 & T3 & T4 & T5) Hcs Hb. unfold rx_step. cbv zeta.
  set (sb := stuffed_bits (unstuf cd)) in *.
  set (cs := count_stuff (unstuf cd)) in *.
  rewrite Hb.
  assert (Plain : forall ub' cu', cu' <> 0 ->
    match parse_state cd with
    | MS_START => eq5 sb (cs - 1) = true /\ Z.testbit sb (cs - 1) = true
    | MS_DISCARD => True
    | _ => False
    end ->
    let cd1 := set_unstuf (mk_unstuf sb (cs - 1) ub' cu') cd in
    rx_rest L cd1 /\ count_stuff (unstuf cd1) = cs - 1 /\
    forall j, 0 <= j < cs - 1 ->
      Z.testbit (stuffed_bits (unstuf cd1)) j = Z.testbit sb j).
  { intros ub' cu' Hcu Hst. cbv zeta. unfold rx_rest.
    cbn [parse_state unstuf set_unstuf stuffed_bits
         count_stuff count_unstuff].
    split; [|split; [reflexivity | intros; reflexivity]].
    split; [exact T1|]. split; [lia|]. split; [exact Hcu | exact Hst]. }
  assert (Rearm : forall cd' ub' cu' n,
    rx_passive L cd' ->
    unstuf cd' = unstuf_set_count (mk_unstuf sb (cs - 1) ub' cu') n ->
    n <> 0 ->
    match parse_state cd' with
    | MS_START => eq5 sb (cs - 1) = true /\ Z.testbit sb (cs - 1) = true
    | MS_DISCARD => True
    | _ => False
    end ->
    rx_rest L cd' /\ count_stuff (unstuf cd') = cs - 1 /\
    forall j, 0 <= j < cs - 1 ->
      Z.testbit (stuffed_bits (unstuf cd')) j = Z.testbit sb j).
  { intros cd' ub' cu' n H1 H3 H4 H5.
    destruct (rx_rest_rearmed L cd' _ n H1 H3 H4) as (R1 & R2 & R3).
    - cbn [count_stuff]. lia.
    - exact H5.
    - split; [exact R1|]. split; [exact R2|].
      intros j Hj. rewrite R3. reflexivity. }
  destruct (eq5 sb cs) eqn:E5.
  - destruct (eqb true (Z.testbit sb cs)) eqn:Eb.
    + apply eqb_prop in Eb.
      set (cd1 := set_unstuf (mk_unstuf sb (cs - 1)
                    (unstuffed_bits (unstuf cd)) (count_unstuff (unstuf cd)))
                    cd).
      assert (Six : eq5 sb (cs - 1) = true /\ Z.testbit sb (cs - 1) = true).
      { split; [|exact Hb]. apply eq5_below; [exact E5|].
        rewrite Hb. exact Eb. }
      assert (P1 : rx_passive L cd1)
        by (apply (passive_rx_only L cd);
            [apply rx_only_set_unstuf, rx_only_refl | exact T1]).
      assert (Ne : parse_state cd1 <> MS_EOF).
      { change (parse_state cd1) with (parse_state cd).
        destruct (parse_state cd); try contradiction; discriminate. }
      pose proof (passive_go_idle L cd1 P1 Ne) as PG.
      destruct (parse_state_eqb (parse_state cd1) MS_START) eqn:Hs.
      * pose proof (go_idle_start cd1 Hs) as G. cbv zeta in G.
        destruct G as (_ & _ & _ & _ & G5).
        destruct (_ && _) eqn:Ov.
        -- destruct G5 as (G5 & G6).
           apply andb_true_iff in Ov. destruct Ov as (Ov & _).
           apply Z.eqb_eq in Ov.
           cbn [cd1 unstuf set_unstuf count_stuff] in Ov.
           unfold rx_rest. rewrite G5, G6.
           cbn [cd1 set_unstuf unstuf stuffed_bits count_stuff
                count_unstuff].
           split; [|split; [reflexivity | intros j Hj; lia]].
           split; [exact PG|]. split; [lia|]. split; [lia | exact I].
        -- destruct G5 as (G5 & G6).
           eapply (Rearm _ _ _ 18); [exact PG | exact G6 | lia |].
           rewrite G5.
           destruct (parse_state cd1); try discriminate. exact Six.
      * pose proof (go_idle_not_start cd1 Hs) as G. cbv zeta in G.
        destruct G as (G1 & _ & _ & _ & _ & G6).
        eapply (Rearm _ _ _ 18); [exact PG | exact G6 | lia |].
        rewrite G1. exact Six.
    + apply Plain; [exact T4|].
      destruct (parse_state cd); try exact T5; try exact I.
      destruct T5 as (_ & T5). rewrite T5 in Eb. discriminate.
  - destruct (parse_state cd) eqn:Hst;
      try contradiction; try (destruct T5 as (T5 & _); congruence).
    set (cu' := count_unstuff (unstuf cd) - 1).
    set (ub' := Z.lor (unstuffed_bits (unstuf cd)) (shl (Z.b2z true) cu')).
    set (cd1 := set_unstuf (mk_unstuf sb (cs - 1) ub' cu') cd).
    destruct (Z.eqb_spec cu' 0) as [Ez|Ez].
    + assert (Hs1 : parse_state cd1 = MS_DISCARD) by exact Hst.
      unfold data_state_update. rewrite Hs1.
      unfold data_state_update_discard.
      assert (P1 : rx_passive L cd1)
        by (apply (passive_rx_only L cd);
            [apply rx_only_set_unstuf, rx_only_refl | exact T1]).
      pose proof (data_state_go_discard_parse cd1) as G. cbv zeta in G.
      destruct G as (G1 & _ & _ & _ & _ & G6).
      eapply (Rearm _ _ _ 8);
        [apply passive_go_discard, P1 | exact G6 | lia |].
      rewrite G1. exact I.
    + apply (Plain ub' cu' Ez). exact I.
Qed.

Lemma rx_rest_load L cd b :
  rx_rest L cd -> count_stuff (unstuf cd) = 0 -> rx_rest L (rx_load cd b).
Proof.
  intros (T1 & T3 & T4 & T5) Hcs. unfold rx_rest.
  split; [apply (passive_rx_only L cd);
          [apply rx_only_load, rx_only_refl | exact T1]|].
  change (parse_state (rx_load cd b)) with (parse_state cd).
  change (unstuf (rx_load cd b)) with (unstuf_add_bits (unstuf cd) b 8).
  unfold unstuf_add_bits.
  cbn [stuffed_bits count_stuff unstuffed_bits count_unstuff].
  split; [lia|]. split; [exact T4|].
  destruct (parse_state cd); try exact T5.
  rewrite Hcs in T5. destruct T5 as (T5 & T6).
  set (sb := stuffed_bits (unstuf cd)) in *.
  assert (H : forall j, 0 <= j < 24 ->
            Z.testbit (Z.lor (shl sb 8) (Z.land b (lowmask 8))) (8 + j)
            = Z.testbit sb (0 + j)).
  { intros j Hj. rewrite testbit_add_bits by lia.
    destruct (Z.ltb_spec (8 + j) 8); [lia|].
    destruct (Z.ltb_spec (8 + j) 32); [|lia].
    cbn [andb]. f_equal. lia. }
  split.
  - unfold eq5 in *. rewrite <- (Z.add_0_r 8) at 1 3.
    rewrite <- (Z.add_0_r 0) in T5 at 1.
    rewrite !H by lia. exact T5.
  - rewrite <- (Z.add_0_r 8). rewrite H by lia. exact T6.
Qed.

(** On a recessive bus nothing more is reported. *)
Lemma rx_rest_run L n : forall cd bytes,
  rx_rest L cd -> Forall (fun x => x = true) (rx_future cd bytes) ->
  rx_rest L (fst (rx_run n cd bytes)).
Proof.
  induction n as [|n IH]; intros cd bytes T K; [exact T|].
  assert (Core : forall cd1 bytes1,
    rx_rest L cd1 -> 0 < count_stuff (unstuf cd1) ->
    Forall (fun x => x = true) (rx_future cd1 bytes1) ->
    rx_rest L (fst (rx_run n (rx_step cd1) bytes1))).
  { intros cd1 bytes1 T1 Hcs K1. unfold rx_future in K1.
    replace (Z.to_nat (count_stuff (unstuf cd1)))
      with (S (Z.to_nat (count_stuff (unstuf cd1) - 1))) in K1 by lia.
    rewrite bits_of_S in K1. cbn [app] in K1.
    rewrite Z2Nat.id in K1 by lia. inversion K1 as [|x l K2 K3]; subst.
    destruct (rx_rest_step L cd1 T1 Hcs K2) as (T' & C' & B').
    apply IH; [exact T'|].
    unfold rx_future. rewrite C'.
    rewrite (bits_of_ext _ (stuffed_bits (unstuf cd1))); [exact K3|].
    intros j Hj. apply B'. lia. }
  rewrite rx_run_S.
  pose proof T as (_ & T3 & _).
  destruct (Z.eqb_spec (count_stuff (unstuf cd)) 0) as [E|E].
  - destruct bytes as [|b r]; [exact T|].
    apply Core.
    + apply rx_rest_load; assumption.
    + reflexivity.
    + rewrite rx_future_load by exact E. exact K.
  - apply Core; [exact T | lia | exact K].
Qed.

(** X15.  A frame of another node is reported.  A controller that is not
    transmitting and has nothing queued waits on an idle bus; the bytes it
    is given carry the stuffed frame of a message that keeps to the frame
    format, the recessive CRC delimiter, a dominant ACK slot, and at least
    six recessive bits.  Then [process_rx] returns for every byte, the
    controller has made exactly one callback more, the RX callback with the
    message of the frame, and it is still not transmitting. *)
Theorem acknowledged_frame_is_reported
  (m : can2040_msg) (cd0 : can2040) (bytes : list Z) (k : nat) :
  msg_wf m -> rx_idle cd0 ->
  in_transmit cd0 = 0 -> tx_push_pos cd0 = tx_pull_pos cd0 ->
  let m' := tx_copy_msg m in
  flat_map (fun b => bits_of b 8) bytes
  = tx_stream m' ++ [true; false] ++ repeat true (6 + k) ->
  exists cd',
    rx_bytes cd0 bytes = Some cd' /\
    notes cd' = Notify CAN2040_ID_RX m' :: notes cd0 /\
    in_transmit cd' = 0.
Proof.
  intros Hm Hidle Hit Hq. cbv zeta. intros Hb.
  destruct (msg_wf_copy m Hm) as (Hm' & _ & _ & _ & E4). cbv zeta in *.
  remember (tx_copy_msg m) as m' eqn:Em. clear Em.
  assert (P0 : rx_passive (notes cd0) cd0)
    by (split; [exact Hit | split; [exact Hq | reflexivity]]).
  remember (notes cd0) as L eqn:EL. clear EL.
  pose proof Hidle as (I1 & I2 & I3 & I4 & _).
  cbn [app] in Hb.
  assert (Hf : rx_future cd0 bytes
               = tx_stream m' ++ true :: false :: repeat true (6 + k)).
  { unfold rx_future. rewrite I2. exact Hb. }
  destruct (rx_frame_head m' (rx_passive L) (passive_rx_only L)
              (fun cd P _ => passive_update_start L cd _ P)
              (fun cd _ P _ _ => passive_update_data L cd _ P)
              (fun cd P _ => passive_update_crc L cd _ P)
              cd0 bytes _ Hm' Hidle P0 Hf)
    as (N & cdA & bytesA & RA & LN & A1 & A2 & A3 & PA & WA).
  cbv zeta in LN, WA. rewrite E4 in A2.
  set (hF := rev (lstuff [false; true; true; true; true]
                (bits_of (tx_hdr m') 18 ++ tx_data_bits m'
                 ++ bits_of (crc (tx_encode m')) 15))
             ++ [false; true; true; true; true]) in *.
  destruct (rx_after_crc cdA bytesA hF _ WA)
    as (cd1 & b1 & hB & R1 & O1 & W1 & E).
  assert (S1 : parse_state cd1 = MS_ACK)
    by (rewrite (rx_only_state _ _ O1); exact A1).
  destruct (rx_ack_slot L cd1 b1 hB _ S1 (passive_rx_only L _ _ O1 PA) E W1)
    as (cd2 & b2 & R2 & S2 & M2 & P2 & W2).
  change (repeat true (6 + k))
    with (true :: true :: true :: true :: true :: true :: repeat true k)
    in W2.
  destruct (rx_end_of_frame L cd2 b2 hB _ S2 P2 W2)
    as (cd3 & b3 & R3 & S3 & M3 & P3 & W3).
  rewrite M2, (rx_only_msg _ _ O1), A2 in P3.
  assert (T : rx_rest (Notify CAN2040_ID_RX m' :: L) cd3).
  { destruct (rx_window_eq5 _ _ _ _ _ _ W3) as (Q1 & Q2).
    destruct W3 as (V1 & _ & _ & _ & V5).
    split; [exact P3|]. split; [exact V1|]. split; [lia|].
    rewrite S3. split; [exact Q1 | exact Q2]. }
  assert (K : Forall (fun x => x = true) (rx_future cd3 b3)).
  { destruct W3 as (_ & V2 & _). rewrite V2. apply all_recessive. }
  pose proof (rx_reaches_trans _ _ _ _ _ _ _ _ RA
               (rx_reaches_trans _ _ _ _ _ _ _ _ R1
                 (rx_reaches_trans _ _ _ _ _ _ _ _ R2 R3))) as RT.
  assert (LB : (8 * length bytes
                = N + (length (stuff_due hF) + (2 + 6)) + k)%nat).
  { rewrite <- (length_flat_bits 8 bytes), Hb, length_app.
    cbn [length]. rewrite repeat_length. lia. }
  pose proof (rx_rest_run _ k cd3 b3 T K) as TF.
  rewrite <- (RT k), <- LB in TF.
  destruct TF as ((F1 & _ & F3) & _).
  exists (fst (rx_run (8 * length bytes) cd0 bytes)).
  split; [apply rx_bytes_run; [exact I2 | lia]|].
  split; [exact F3 | exact F1].
Qed.

Lemma acknowledged_frame_is_reported_witness :
  msg_wf user_msg /\ rx_idle idle_after_noise /\
  in_transmit idle_after_noise = 0 /\
  tx_push_pos idle_after_noise = tx_pull_pos idle_after_noise /\
  let m' := tx_copy_msg user_msg in
  flat_map (fun b => bits_of b 8) acked_frame_bytes
  = tx_stream m' ++ [true; false] ++ repeat true (6 + 4) /\
  exists cd',
    rx_bytes idle_after_noise acked_frame_bytes = Some cd' /\
    notes cd' = Notify CAN2040_ID_RX m' :: notes idle_after_noise /\
    in_transmit cd' = 0.
Proof.
  assert (W : msg_wf user_msg).
  { split; [cbn; lia|]. split; [cbn; lia|]. split; [reflexivity|].
    repeat constructor; lia. }
  assert (I : rx_idle idle_after_noise).
  { repeat split; vm_compute; reflexivity. }
  assert (B : flat_map (fun b => bits_of b 8) acked_frame_bytes
              = tx_stream (tx_copy_msg user_msg) ++ [true; false]
                ++ repeat true (6 + 4)).
  { vm_compute. reflexivity. }
  split; [exact W|]. split; [exact I|].
  split; [vm_compute; reflexivity|]. split; [vm_compute; reflexivity|].
  split; [exact B|].
  apply (acknowledged_frame_is_reported user_msg idle_after_noise
           acked_frame_bytes 4 W I);
    [vm_compute; reflexivity | vm_compute; reflexivity | exact B].
Defined.

(** * The RXSTALL flag along a frame *)

Lemma stall_go_crc cd : rx_stall (data_state_go_crc cd) = rx_stall cd.
Proof.
  unfold data_state_go_crc, tx_check_self_transmit. cbv zeta.
  match goal with |- context [in_transmit ?c =? 0] =>
    destruct (in_transmit c =? 0) end.
  - destruct (bitstuff _ _). reflexivity.
  - match goal with |- context [if ?b then (true, _) else _] =>
      destruct b end; [reflexivity|].
    destruct (bitstuff _ _). reflexivity.
Qed.

Lemma stall_update_start cd data :
  rx_stall (data_state_update_start cd data) = rx_stall cd.
Proof.
  unfold data_state_update_start.
  destruct (negb _); [reflexivity|]. cbv zeta.
  change (rx_stall (pio_sync_enable_idle_irq ?c)) with (rx_stall c).
  destruct (_ <=? _); [|reflexivity].
  rewrite stall_go_crc. reflexivity.
Qed.

Lemma stall_update_data cd data :
  rx_stall (data_state_update_data cd data) = rx_stall cd.
Proof.
  unfold data_state_update_data. cbv zeta.
  destruct (_ <=? _); [|reflexivity].
  rewrite stall_go_crc. reflexivity.
Qed.

Lemma stall_update_crc cd data :
  rx_stall (data_state_update_crc cd data) = rx_stall cd.
Proof.
  unfold data_state_update_crc. destruct (negb _); reflexivity.
Qed.

Lemma stall_rx_only cd cd' : rx_only cd cd' -> rx_stall cd' = rx_stall cd.
Proof. intros (bu & rc & ->). reflexivity. Qed.

(** CRC delimiter and ACK slot, whatever the bus shows in them: the two
    bits reach [data_state_update_ack]. *)
Lemma rx_ack_field cd bytes hB x y p :
  parse_state cd = MS_ACK ->
  eqb (nth 0 hB false) (nth 1 hB false) = false ->
  rx_window cd bytes hB (x :: y :: p) 0 2 ->
  let v := 2 * Z.b2z x + Z.b2z y in
  exists cdm bytes',
    rx_only cd cdm /\
    rx_reaches 2 cd bytes (data_state_update_ack cdm v) bytes' /\
    rx_window cdm bytes' (y :: x :: hB) p v 0.
Proof.
  intros Hs E W v.
  destruct (rx_data_bit _ _ _ _ _ _ _ W (run5_edge0 _ E) ltac:(lia))
    as (cd1 & b1 & S1 & O1 & W1).
  change (2 - 1) with 1 in W1.
  destruct (rx_last_bit _ _ _ _ _ _ W1 (run5_edge1 x _ E))
    as (cdm & b2 & S2 & O2 & W2).
  assert (V : Z.lor (Z.lor 0 (shl (Z.b2z x) 1)) (shl (Z.b2z y) 0) = v)
    by (destruct x, y; reflexivity).
  rewrite V in S2, W2.
  pose proof (rx_only_trans _ _ _ O1 O2) as O.
  assert (Hsm : parse_state cdm = MS_ACK)
    by (rewrite (rx_only_state _ _ O); exact Hs).
  rewrite (data_state_update_at_ack _ _ Hsm) in S2.
  exists cdm, b2. split; [exact O|]. split; [|exact W2].
  apply (rx_reaches_trans 1 1 _ _ cd1 b1); apply rx_reaches_one; assumption.
Qed.

Lemma notes_emit e cd :
  notes (emit e cd) = if is_notify e then e :: notes cd else notes cd.
Proof. unfold notes. cbn [log emit filter]. reflexivity. Qed.

Lemma passive_stall_error L cd :
  rx_passive L cd ->
  rx_passive (Notify (CAN2040_ID_ERROR 0) zero_msg :: L)
             (report_error (pio_sm_setup cd) 0).
Proof.
  intros (Q1 & Q2 & Q3). split; [exact Q1|]. split; [exact Q2|].
  unfold report_error, pio_sm_setup. rewrite !notes_emit.
  cbn [is_notify]. f_equal. exact Q3.
Qed.

Lemma stall_go_discard cd :
  rx_stall (data_state_go_discard cd) = rx_stall cd.
Proof. reflexivity. Qed.

(** An ACK field other than recessive delimiter and dominant slot: the frame
    is discarded, and an overrun of the receive FIFO is reported. *)
Lemma passive_update_nack L cd data :
  data <> 2 -> rx_passive L cd ->
  rx_passive
    ((if rx_stall cd then [Notify (CAN2040_ID_ERROR 0) zero_msg] else [])
     ++ L)
    (data_state_update_ack cd data).
Proof.
  intros Hd P. unfold data_state_update_ack. cbv zeta.
  destruct (Z.eqb_spec data 2) as [|_]; [contradiction|]. cbn [negb].
  assert (P1 : rx_passive L (data_state_go_discard (pio_ack_cancel cd)))
    by (apply passive_go_discard, passive_emit; [reflexivity | exact P]).
  unfold pio_rx_check_stall. rewrite stall_go_discard.
  assert (E : rx_stall (pio_ack_cancel cd) = rx_stall cd) by reflexivity.
  rewrite E.
  destruct (rx_stall cd); [|exact P1].
  apply passive_stall_error, P1.
Qed.

(** X16.  A frame nobody acknowledges is not reported.  A controller that
    is not transmitting and has nothing queued waits on an idle bus; the
    bytes it is given carry the stuffed frame of a message that keeps to
    the frame format and then only recessive bits, so the ACK slot is
    recessive too.  Then [process_rx] returns for every byte and makes no
    RX callback: the parser discards the frame and ends in MS_START or
    MS_DISCARD, and the only callback that can occur is the error callback
    made when the RXSTALL flag of the PIO was set. *)
Theorem unacknowledged_frame_is_dropped
  (m : can2040_msg) (cd0 : can2040) (bytes : list Z) (k : nat) :
  msg_wf m -> rx_idle cd0 ->
  in_transmit cd0 = 0 -> tx_push_pos cd0 = tx_pull_pos cd0 ->
  flat_map (fun b => bits_of b 8) bytes
  = tx_stream (tx_copy_msg m) ++ repeat true (2 + k) ->
  exists cd',
    rx_bytes cd0 bytes = Some cd' /\
    notes cd'
    = (if rx_stall cd0 then [Notify (CAN2040_ID_ERROR 0) zero_msg] else [])
      ++ notes cd0 /\
    in_transmit cd' = 0 /\
    (parse_state cd' = MS_START \/ parse_state cd' = MS_DISCARD).
Proof.
  intros Hm Hidle Hit Hq Hb.
  destruct (msg_wf_copy m Hm) as (Hm' & _). cbv zeta in Hm'.
  remember (tx_copy_msg m) as m' eqn:Em. clear Em.
  set (s := rx_stall cd0).
  set (J := fun cd => rx_passive (notes cd0) cd /\ rx_stall cd = s).
  assert (P0 : J cd0).
  { split; [|reflexivity].
    split; [exact Hit | split; [exact Hq | reflexivity]]. }
  remember (notes cd0) as L eqn:EL. clear EL.
  pose proof Hidle as (I1 & I2 & I3 & I4 & _).
  assert (Hf : rx_future cd0 bytes = tx_stream m' ++ repeat true (2 + k)).
  { unfold rx_future. rewrite I2. exact Hb. }
  destruct (rx_frame_head m' J
              (fun cd cd' O P =>
                 conj (passive_rx_only L cd cd' O (proj1 P))
                      (eq_trans (stall_rx_only cd cd' O) (proj2 P)))
              (fun cd P _ =>
                 conj (passive_update_start L cd _ (proj1 P))
                      (eq_trans (stall_update_start cd _) (proj2 P)))
              (fun cd _ P _ _ =>
                 conj (passive_update_data L cd _ (proj1 P))
                      (eq_trans (stall_update_data cd _) (proj2 P)))
              (fun cd P _ =>
                 conj (passive_update_crc L cd _ (proj1 P))
                      (eq_trans (stall_update_crc cd _) (proj2 P)))
              cd0 bytes _ Hm' Hidle P0 Hf)
    as (N & cdA & bytesA & RA & LN & A1 & _ & _ & PA & WA).
  cbv zeta in LN, WA.
  set (hF := rev (lstuff [false; true; true; true; true]
                (bits_of (tx_hdr m') 18 ++ tx_data_bits m'
                 ++ bits_of (crc (tx_encode m')) 15))
             ++ [false; true; true; true; true]) in *.
  destruct (rx_after_crc cdA bytesA hF _ WA)
    as (cd1 & b1 & hB & R1 & O1 & W1 & E).
  assert (S1 : parse_state cd1 = MS_ACK)
    by (rewrite (rx_only_state _ _ O1); exact A1).
  change (repeat true (2 + k)) with (true :: true :: repeat true k) in W1.
  destruct (rx_ack_field cd1 b1 hB _ _ _ S1 E W1)
    as (cdm & b2 & O2 & R2 & W2).
  change (2 * Z.b2z true + Z.b2z true) with 3 in R2, W2.
  pose proof (rx_only_trans _ _ _ O1 O2) as O.
  assert (Pm : rx_passive L cdm)
    by (apply (passive_rx_only L cdA); [exact O | exact (proj1 PA)]).
  assert (Sm : rx_stall cdm = s)
    by (rewrite (stall_rx_only _ _ O); exact (proj2 PA)).
  pose proof (passive_update_nack L cdm 3 ltac:(lia) Pm) as P3.
  rewrite Sm in P3.
  pose proof (update_ack_fields cdm 3) as U. cbv zeta in U.
  change (3 =? 2) with false in U. cbv iota in U.
  destruct U as (_ & _ & _ & U3 & U4).
  pose proof (rx_window_set_count _ _ _ _ _ _ _ _ U4 W2) as W3.
  set (cd3 := data_state_update_ack cdm 3) in *.
  assert (T : rx_rest ((if s then [Notify (CAN2040_ID_ERROR 0) zero_msg]
                        else []) ++ L) cd3).
  { destruct W3 as (V1 & _ & _ & _ & V5).
    split; [exact P3|]. split; [exact V1|]. split; [lia|].
    rewrite U3. exact I. }
  assert (K : Forall (fun x => x = true) (rx_future cd3 b2)).
  { destruct W3 as (_ & V2 & _). rewrite V2. apply all_recessive. }
  pose proof (rx_reaches_trans _ _ _ _ _ _ _ _ RA
               (rx_reaches_trans _ _ _ _ _ _ _ _ R1 R2)) as RT.
  assert (LB : (8 * length bytes
                = N + (length (stuff_due hF) + 2) + k)%nat).
  { rewrite <- (length_flat_bits 8 bytes), Hb, length_app.
    rewrite repeat_length. lia. }
  pose proof (rx_rest_run _ k cd3 b2 T K) as TF.
  rewrite <- (RT k), <- LB in TF.
  set (cdf := fst (rx_run (8 * length bytes) cd0 bytes)) in *.
  destruct TF as ((F1 & _ & F3) & _ & _ & F4).
  exists cdf.
  split; [apply rx_bytes_run; [exact I2 | lia]|].
  split; [exact F3|]. split; [exact F1|].
  destruct (parse_state cdf); try contradiction;
    [left; reflexivity | right; reflexivity].
Qed.

Lemma unacknowledged_frame_is_dropped_witness :
  msg_wf user_msg /\ rx_idle idle_after_noise /\
  in_transmit idle_after_noise = 0 /\
  tx_push_pos idle_after_noise = tx_pull_pos idle_after_noise /\
  flat_map (fun b => bits_of b 8) unacked_frame_bytes
  = tx_stream (tx_copy_msg user_msg) ++ repeat true (2 + 10) /\
  exists cd',
    rx_bytes idle_after_noise unacked_frame_bytes = Some cd' /\
    notes cd'
    = (if rx_stall idle_after_noise
       then [Notify (CAN2040_ID_ERROR 0) zero_msg] else [])
      ++ notes idle_after_noise /\
    in_transmit cd' = 0 /\
    (parse_state cd' = MS_START \/ parse_state cd' = MS_DISCARD).
Proof.
  assert (W : msg_wf user_msg).
  { split; [cbn; lia|]. split; [cbn; lia|]. split; [reflexivity|].
    repeat constructor; lia. }
  assert (I : rx_idle idle_after_noise).
  { repeat split; vm_compute; reflexivity. }
  assert (B : flat_map (fun b => bits_of b 8) unacked_frame_bytes
              = tx_stream (tx_copy_msg user_msg) ++ repeat true (2 + 10)).
  { vm_compute. reflexivity. }
  split; [exact W|]. split; [exact I|].
  split; [vm_compute; reflexivity|]. split; [vm_compute; reflexivity|].
  split; [exact B|].
  apply (unacknowledged_frame_is_dropped user_msg idle_after_noise
           unacked_frame_bytes 10 W I);
    [vm_compute; reflexivity | vm_compute; reflexivity | exact B].
Defined.

(** * A controller that hears its own frame *)
















